(** * addfile.py: classify, relocate and log one file

    A shallow embedding of [src/addfile.py] and a verification of the
    properties its specification states about it, followed by
    properties the code shows beyond them: the edge cases of the move
    and of the ledger, what a run touches, and the command line of the
    script with its listing and its validation of the file name.

    The script calls into the Python standard library ([os.path],
    [os], [shutil], [csv], [mimetypes]).  The pure string functions of
    [posixpath] and the writer of [csv] are transcribed from their
    library sources; the file system is a finite map from resolved
    paths to nodes, and every operation that touches it is a
    computation in a state-and-exception monad over that map.  The
    extension table of [mimetypes] and the table of printable
    characters of the Unicode database are parameters of the
    development.

    Strings are the bytes of the file system.  Standard output takes
    every string as it is, as it does with the locale [C.UTF-8] or
    [POSIX] of a Linux system; a ledger is written with the codec
    [utf-8], which refuses the names that are not UTF-8.

    The operating system of the first part refuses no call.  The
    module [Faulty] has the same script on an operating system that
    may refuse the calls that change the file system, for what the
    specification says about operations that fail. *)

From Stdlib Require Import String Ascii NArith ZArith List Bool Lia DecimalString.
From stdpp Require Import base strings gmap list sorting.
Import ListNotations.
Open Scope string_scope.

(** ** Python [str] methods used by the script and by [posixpath] *)

Module Str.

(** [s.startswith(p)] *)
Definition startswith (s p : string) : bool := String.prefix p s.

(** [s.endswith(c)] for a single character [c] *)
Fixpoint endswith (s : string) (c : ascii) : bool :=
  match s with
  | EmptyString => false
  | String a s' =>
      match s' with
      | EmptyString => Ascii.eqb a c
      | String _ _ => endswith s' c
      end
  end.

(** [s.split(c)]: the pieces of [s] between occurrences of [c];
    never the empty list. *)
Fixpoint split (c : ascii) (s : string) : list string :=
  match s with
  | EmptyString => [EmptyString]
  | String a s' =>
      if Ascii.eqb a c then EmptyString :: split c s'
      else match split c s' with
           | p :: ps => String a p :: ps
           | [] => [String a EmptyString]
           end
  end.

(** [s.rstrip(c)] *)
Fixpoint rstrip (c : ascii) (s : string) : string :=
  match s with
  | EmptyString => EmptyString
  | String a s' =>
      match rstrip c s' with
      | EmptyString => if Ascii.eqb a c then EmptyString else String a EmptyString
      | r => String a r
      end
  end.

(** [(s[:i], s[i:])] for [i = s.rfind(c) + 1] *)
Fixpoint rpartition (c : ascii) (s : string) : string * string :=
  match s with
  | EmptyString => (EmptyString, EmptyString)
  | String a s' =>
      let (h, t) := rpartition c s' in
      match h with
      | EmptyString =>
          if Ascii.eqb a c then (String a EmptyString, t)
          else (EmptyString, String a t)
      | String _ _ => (String a h, t)
      end
  end.

(** [c.join(l)] *)
Fixpoint join (c : string) (l : list string) : string :=
  match l with
  | [] => EmptyString
  | [x] => x
  | x :: l' => x ++ c ++ join c l'
  end.

(** [c in s] *)
Fixpoint contains (s : string) (c : ascii) : bool :=
  match s with
  | EmptyString => false
  | String a s' => Ascii.eqb a c || contains s' c
  end.

End Str.

(** ** Python lists of strings *)

Module PyList.

(** [l.sort()]: ascending in the order of [str], which compares code
    points; on UTF-8 text that is the order of the bytes. *)
Definition sort (l : list string) : list string := merge_sort String.le l.

(** [x in l] *)
Definition contains (x : string) (l : list string) : bool :=
  existsb (String.eqb x) l.

End PyList.

(** ** Text

    A [string] of this development holds bytes: a file name as the
    file system has it, a text as a file holds it.  Python turns the
    bytes of a name into a [str] with the codec [utf-8] and the error
    handler [surrogateescape] ([os.fsdecode]), so a byte that belongs
    to no well-formed UTF-8 sequence becomes the lone surrogate
    [U+DC00 + byte], and it turns such a [str] back into the same
    bytes.  This module is that reading of bytes as characters. *)

Module Utf8.

(** A character of a [str]: its code point, and the bytes it came from. *)
Record char : Type := Char { code : N; bytes : string }.

Definition byte (b : ascii) : N := N_of_ascii b.

Definition between (lo hi : N) (b : ascii) : bool :=
  (lo <=? byte b)%N && (byte b <=? hi)%N.

(** The bytes that may follow the lead byte [lead] once [seen] bytes
    of its sequence have been read: the second byte of a sequence is
    restricted after [E0], [ED], [F0] and [F4], so that overlong forms,
    surrogates and code points above U+10FFFF are not well formed. *)
Definition follows (lead : ascii) (seen : nat) (b : ascii) : bool :=
  match seen with
  | O =>
      if N.eqb (byte lead) 224 then between 160 191 b
      else if N.eqb (byte lead) 237 then between 128 159 b
      else if N.eqb (byte lead) 240 then between 144 191 b
      else if N.eqb (byte lead) 244 then between 128 143 b
      else between 128 191 b
  | S _ => between 128 191 b
  end.

(** The number of bytes after the lead byte, [0] for a byte that
    starts no sequence of several bytes. *)
Definition trail (lead : ascii) : nat :=
  if between 194 223 lead then 1
  else if between 224 239 lead then 2
  else if between 240 244 lead then 3
  else 0.

(** The lone surrogate that stands for a byte outside any well-formed
    sequence (the error handler [surrogateescape]). *)
Definition escaped (b : ascii) : char :=
  {| code := 56320 + byte b; bytes := String b EmptyString |}.

Definition is_escaped (c : char) : bool :=
  (56448 <=? code c)%N && (code c <=? 56575)%N.

(** The code point of a sequence: the payload bits of the lead byte
    and six bits of every byte after it. *)
Definition payload (lead : ascii) (seen : list ascii) : N :=
  fold_left (fun n b => n * 64 + (byte b - 128))%N seen
            (byte lead - match trail lead with
                         | 1%nat => 192
                         | 2%nat => 224
                         | _ => 240
                         end)%N.

Definition sequence (lead : ascii) (seen : list ascii) : char :=
  {| code := payload lead seen;
     bytes := String lead (string_of_list_ascii seen) |}.

(** The decoder between two bytes: at the start of a character, or
    inside a sequence after its lead byte and the bytes [seen]. *)
Inductive state : Type :=
| Start
| Inside (lead : ascii) (seen : list ascii).

Definition start (b : ascii) : list char * state :=
  if (byte b <? 128)%N then ([Char (byte b) (String b EmptyString)], Start)
  else match trail b with
       | O => ([escaped b], Start)
       | S _ => ([], Inside b [])
       end.

Definition step (st : state) (b : ascii) : list char * state :=
  match st with
  | Start => start b
  | Inside lead seen =>
      if follows lead (length seen) b then
        if Nat.eqb (S (length seen)) (trail lead)
        then ([sequence lead (seen ++ [b])], Start)
        else ([], Inside lead (seen ++ [b]))
      else
        let (out, st') := start b in
        (escaped lead :: map escaped seen ++ out, st')
  end.

(** What is left at the end of the input. *)
Definition flush (st : state) : list char :=
  match st with
  | Start => []
  | Inside lead seen => escaped lead :: map escaped seen
  end.

Fixpoint feed (st : state) (s : string) : list char :=
  match s with
  | EmptyString => flush st
  | String b s' => let (out, st') := step st b in out ++ feed st' s'
  end.

(** [os.fsdecode(s)]: the characters of the [str] for the bytes [s]. *)
Definition decode (s : string) : list char := feed Start s.

(** The first run of lone surrogates in a text, as the positions
    [start, end) of its characters: what the [utf-8] codec refuses to
    encode. *)
Fixpoint run_length (l : list char) : nat :=
  match l with
  | c :: l' => if is_escaped c then S (run_length l') else O
  | [] => O
  end.

Fixpoint surrogates_from (i : nat) (l : list char) : option (nat * nat) :=
  match l with
  | [] => None
  | c :: l' =>
      if is_escaped c then Some (i, i + S (run_length l'))
      else surrogates_from (S i) l'
  end.

Definition surrogates (s : string) : option (nat * nat) :=
  surrogates_from 0 (decode s).

(** Text that [str.encode('utf-8')] accepts. *)
Definition encodable (s : string) : bool :=
  match surrogates s with None => true | Some _ => false end.

(** No character of [l] is a lone surrogate. *)
Definition pure (l : list char) : bool := forallb (fun c => negb (is_escaped c)) l.

(** Every byte of [s] is an ASCII character. *)
Definition ascii_only (s : string) : bool :=
  forallb (fun b => (byte b <? 128)%N) (list_ascii_of_string s).

(** The states the decoder can be in: inside a sequence only after a
    lead byte. *)
Inductive sound : state -> Prop :=
| sound_Start : sound Start
| sound_Inside lead seen : trail lead <> O -> sound (Inside lead seen).

End Utf8.

(** ** [posixpath] *)

Module PosixPath.

Definition sep : ascii := "/"%char.
Definition curdir : string := ".".
Definition pardir : string := "..".

Definition isabs (p : string) : bool := Str.startswith p "/".

(** [posixpath.join(a, b)] with one component [b] *)
Definition join (a b : string) : string :=
  if Str.startswith b "/" then b
  else if String.eqb a "" || Str.endswith a sep then a ++ b
  else a ++ "/" ++ b.

(** [posixpath.split(p)] *)
Definition split (p : string) : string * string :=
  let (head, tail) := Str.rpartition sep p in
  (match Str.rstrip sep head with
   | EmptyString => head         (* empty, or nothing but separators *)
   | r => r
   end, tail).

(** [posixpath.basename(p)] *)
Definition basename (p : string) : string := snd (Str.rpartition sep p).

(** One round of the loop of [posixpath.normpath]; [new_comps] is kept
    with its last component first. *)
Definition norm_step (initial_slashes : bool) (new_comps : list string)
    (comp : string) : list string :=
  if String.eqb comp "" || String.eqb comp curdir then new_comps
  else if negb (String.eqb comp pardir)
          || (negb initial_slashes && match new_comps with [] => true | _ => false end)
          || match new_comps with c :: _ => String.eqb c pardir | [] => false end
       then comp :: new_comps
       else tl new_comps.

Definition norm_comps (path : string) : list string :=
  fold_left (norm_step (isabs path)) (Str.split sep path) [].

(** [posixpath.normpath(path)] *)
Definition normpath (path : string) : string :=
  if String.eqb path "" then curdir
  else
    let initial_slashes :=
      if isabs path then
        if Str.startswith path "//" && negb (Str.startswith path "///")
        then "//" else "/"
      else "" in
    let r := initial_slashes ++ Str.join "/" (rev (norm_comps path)) in
    if String.eqb r "" then curdir else r.

End PosixPath.

(** ** The classifier of the script *)

(** [mimetypes.guess_type] yields [None] for an extension it does not
    know; [get_mime_type] replaces that by this sentinel. *)
Definition tipo_sconosciuto : string := "Tipo sconosciuto".

(** [classifica_file(mime_type)]: the argument may be [None]. *)
Definition classifica_file (mime_type : option string) : option string :=
  match mime_type with
  | None => None
  | Some mime_type =>
      if Str.startswith mime_type "audio" then Some "audio"
      else if Str.startswith mime_type "image" then Some "immagini"
      else if Str.startswith mime_type "application" || Str.startswith mime_type "text"
           then Some "documenti"
           else None
  end.

(** The tuple of [main] and its test [mime.split('/')[0] in tipi_validi]. *)
Definition tipi_validi : list string := ["image"; "audio"; "text"; "application"].

Definition top_level (mime : string) : string := hd "" (Str.split "/" mime).

Definition tipo_valido (mime : string) : bool :=
  existsb (String.eqb (top_level mime)) tipi_validi.

(** The categorisation as the specification words it: by the top-level
    token of the media type, everything else unrecognized. *)
Definition categoryOf_by_token (mime : string) : option string :=
  let t := top_level mime in
  if String.eqb t "audio" then Some "audio"
  else if String.eqb t "image" then Some "immagini"
  else if String.eqb t "application" || String.eqb t "text" then Some "documenti"
  else None.


(** ** The file system

    A node is a regular file with its contents or a directory.  A path
    is resolved lexically, the way [normpath] reads it: whether it is
    absolute, and its components with [.] and empty components dropped
    and [..] cancelling the component before it.  The key of a node is
    that pair, the components last first, so that the parent of a key
    is its tail.  Links are not part of the model.  The operations of
    the modules [OS] and [Shutil] below are those of an operating
    system that refuses no call: there is room on the device, every
    name is short enough, every permission is granted.  The module
    [Faulty] further down has the same calls on an operating system
    that may refuse any of them. *)

Inductive node : Type :=
| File (data : string)
| Dir.

Abbreviation key := (bool * list string)%type.

Abbreviation world := (gmap key node).

Inductive exn : Type :=
| FileNotFoundError (path : string)
| FileExistsError (path : string)
| NotADirectoryError (path : string)
| IsADirectoryError (path : string)
| OSError (errno : Z) (strerror : string) (paths : list string)
| DirectoryMissing (dst : string)       (* [FileNotFoundError] of [shutil.copyfile] *)
| SameFileError (src dst : string)
| ShutilError (real_dst : string)       (* Destination path already exists *)
| UnicodeEncodeError (object : string) (start end_ : nat)
| ValueError (wrong_fields : list string)
| RecursionError
| DirectorySourceUnmodelled (src : string).

Inductive result (A : Type) : Type :=
| Return (a : A)
| Raise (e : exn).
Arguments Return {A} a.
Arguments Raise {A} e.

(** A computation reads and updates the file system and returns or raises;
    what it changed before raising stays changed. *)
Definition io (A : Type) : Type := world -> world * result A.

Definition ret {A} (a : A) : io A := fun w => (w, Return a).
Definition raise {A} (e : exn) : io A := fun w => (w, Raise e).
Definition bind {A B} (c : io A) (k : A -> io B) : io B :=
  fun w => match c w with
           | (w', Return a) => k a w'
           | (w', Raise e) => (w', Raise e)
           end.
(** [try: c  except E: h] where [catches] tells the exceptions of class [E]. *)
Definition try_except {A} (c : io A) (catches : exn -> bool) (h : exn -> io A) : io A :=
  fun w => match c w with
           | (w', Raise e) => if catches e then h e w' else (w', Raise e)
           | r => r
           end.
(** A pure observation of the file system. *)
Definition observe {A} (f : world -> A) : io A := fun w => (w, Return (f w)).
Definition lift {A} (f : world -> result A) : io A := fun w => (w, f w).

Notation "x <- c ;; k" := (bind c (fun x => k))
  (at level 100, c at next level, right associativity).
Notation "c ;;; k" := (bind c (fun _ => k))
  (at level 100, right associativity).

(** [OSError] and its subclasses, for [except OSError]; [shutil.Error]
    is one of them, [UnicodeEncodeError] is a [ValueError]. *)
Definition is_OSError (e : exn) : bool :=
  match e with
  | FileNotFoundError _ | FileExistsError _ | NotADirectoryError _
  | IsADirectoryError _ | OSError _ _ _ | DirectoryMissing _
  | SameFileError _ _ | ShutilError _ => true
  | UnicodeEncodeError _ _ _ | ValueError _ | RecursionError
  | DirectorySourceUnmodelled _ => false
  end.

(** [errno] decides the subclass of an [OSError]: 17 is [EEXIST], 21
    is [EISDIR]. *)
Definition is_FileExistsError (e : exn) : bool :=
  match e with
  | FileExistsError _ => true
  | OSError errno _ _ => Z.eqb errno 17
  | _ => false
  end.

Definition is_IsADirectoryError (e : exn) : bool :=
  match e with
  | IsADirectoryError _ => true
  | OSError errno _ _ => Z.eqb errno 21
  | _ => false
  end.

Module OS.

Definition resolve (p : string) : key :=
  (PosixPath.isabs p, PosixPath.norm_comps p).

Definition parent (k : key) : key := (fst k, tl (snd k)).

(** The root and the working directory are directories that are
    always there. *)
Definition node_at (w : world) (k : key) : option node :=
  match snd k with
  | [] => Some Dir
  | _ :: _ => w !! k
  end.

(** A last component that names an entry of its directory. *)
Definition proper_name (b : string) : bool :=
  negb (String.eqb b "" || String.eqb b "." || String.eqb b "..").

(** The name of an entry: such a component without separator. *)
Definition entry_name (b : string) : bool :=
  negb (Str.contains b PosixPath.sep) && proper_name b.

(** [os.stat(p)]: a regular file is only reached under its own name,
    not as [f/] or [f/.]. *)
Definition stat (p : string) (w : world) : result node :=
  if String.eqb p "" then Raise (FileNotFoundError p)
  else match node_at w (resolve p) with
       | None => Raise (FileNotFoundError p)
       | Some Dir => Return Dir
       | Some (File data) =>
           if proper_name (PosixPath.basename p) then Return (File data)
           else Raise (NotADirectoryError p)
       end.

(** [os.path.exists], [os.path.isdir], [os.path.getsize] *)
Definition path_exists (p : string) : io bool :=
  observe (fun w => match stat p w with Return _ => true | Raise _ => false end).

Definition path_isdir (p : string) : io bool :=
  observe (fun w => match stat p w with Return Dir => true | _ => false end).

(** The size a directory reports depends on the file system. *)
Definition dir_st_size : Z := 4096.

Definition path_getsize (p : string) : io Z :=
  lift (fun w => match stat p w with
                 | Return (File data) => Return (Z.of_nat (String.length data))
                 | Return Dir => Return dir_st_size
                 | Raise e => Raise e
                 end).

(** [os.path.samefile] inside [shutil._samefile], which turns an
    [OSError] into [False]. *)
Definition samefile (src dst : string) : io bool :=
  observe (fun w => match stat src w, stat dst w with
                    | Return _, Return _ =>
                        bool_decide (resolve src = resolve dst)
                    | _, _ => false
                    end).

(** Creating the entry [k] for the path [p]: the parent must be a
    directory and the last component of [p] a name. *)
Definition create (p : string) (last : string) (k : key) (n : node) : io unit :=
  fun w =>
    if proper_name last then
      match node_at w (parent k) with
      | Some Dir => (<[k := n]> w, Return tt)
      | Some (File _) => (w, Raise (NotADirectoryError p))
      | None => (w, Raise (FileNotFoundError p))
      end
    else (w, Raise (FileNotFoundError p)).

(** [os.mkdir(p)] *)
Definition mkdir (p : string) : io unit :=
  fun w =>
    if String.eqb p "" then (w, Raise (FileNotFoundError p))
    else match node_at w (resolve p) with
         | Some _ => (w, Raise (FileExistsError p))
         | None =>
             create p (PosixPath.basename (Str.rstrip PosixPath.sep p))
                    (resolve p) Dir w
         end.

(** [os.makedirs(name)] with [exist_ok=False]; it recurses on the
    head of [name], which is shorter than [name]. *)
Fixpoint makedirs_rec (depth : nat) (name : string) : io unit :=
  match depth with
  | O => raise RecursionError
  | S depth =>
      let (head, tail) := PosixPath.split name in
      let (head, tail) :=
        if String.eqb tail "" then PosixPath.split head else (head, tail) in
      done <-
        (if negb (String.eqb head "") && negb (String.eqb tail "") then
           ex <- path_exists head ;;
           if negb ex then
             try_except (makedirs_rec depth head) is_FileExistsError
                        (fun _ => ret tt) ;;;
             ret (String.eqb tail PosixPath.curdir)
           else ret false
         else ret false) ;;
      if done : bool then ret tt else mkdir name
  end.

Definition makedirs (name : string) : io unit :=
  makedirs_rec (S (String.length name)) name.

(** Whether a regular file is in the place of one of the directories
    above the entry with the components [comps]. *)
Fixpoint beyond_file (w : world) (absolute : bool) (comps : list string) : bool :=
  match comps with
  | [] => false
  | _ :: above =>
      match node_at w (absolute, above) with
      | Some (File _) => true
      | _ => beyond_file w absolute above
      end
  end.

(** What [open] finds at [p] when it may create the file (the modes
    ['a'] and ['w']): the contents of the regular file that is there,
    or nothing when the file can be created.  A path that ends with a
    separator after a name is refused as a directory, whatever the
    name stands for; a path into a directory that is not there is
    refused with [ENOTDIR] when a regular file is on the way to it,
    with [ENOENT] otherwise. *)
Definition opening (p : string) (w : world) : result (option string) :=
  if String.eqb p "" then Raise (FileNotFoundError p)
  else
    let named := proper_name (PosixPath.basename p) in
    let slash :=
      proper_name (PosixPath.basename (Str.rstrip PosixPath.sep p)) in
    match node_at w (resolve p) with
    | Some Dir => Raise (IsADirectoryError p)
    | Some (File data) =>
        if named then Return (Some data)
        else if slash then Raise (IsADirectoryError p)
        else Raise (NotADirectoryError p)
    | None =>
        match node_at w (parent (resolve p)) with
        | Some Dir =>
            if named then Return None
            else if slash then Raise (IsADirectoryError p)
            else Raise (FileNotFoundError p)
        | Some (File _) => Raise (NotADirectoryError p)
        | None =>
            if beyond_file w (fst (resolve p)) (tl (snd (resolve p)))
            then Raise (NotADirectoryError p)
            else Raise (FileNotFoundError p)
        end
    end.

(** [open(p, 'a')]: the handle is the key of the file, which is
    created empty when it is not there. *)
Definition open_append (p : string) : io key :=
  fun w =>
    match opening p w with
    | Return (Some _) => (w, Return (resolve p))
    | Return None => (<[resolve p := File ""]> w, Return (resolve p))
    | Raise e => (w, Raise e)
    end.

(** [f.write(text)] on a handle opened for appending with
    [encoding='utf-8']: the text is encoded when it is written, and a
    text with a lone surrogate is refused whole. *)
Definition write (f : key) (text : string) : io unit :=
  fun w =>
    match Utf8.surrogates text with
    | Some (start, end_) => (w, Raise (UnicodeEncodeError text start end_))
    | None =>
        match w !! f with
        | Some (File data) => (<[f := File (data ++ text)]> w, Return tt)
        | _ => (w, Return tt)
        end
    end.

(** [open(p, 'rb').read()] *)
Definition read_file (p : string) : io string :=
  lift (fun w => match stat p w with
                 | Return (File data) => Return data
                 | Return Dir => Raise (IsADirectoryError p)
                 | Raise e => Raise e
                 end).

(** [open(p, 'wb').write(data)]: create or truncate, then write *)
Definition write_file (p : string) (data : string) : io unit :=
  fun w =>
    match opening p w with
    | Return _ => (<[resolve p := File data]> w, Return tt)
    | Raise e => (w, Raise e)
    end.

(** [os.unlink(p)] *)
Definition unlink (p : string) : io unit :=
  fun w =>
    match stat p w with
    | Return (File _) => (delete (resolve p) w, Return tt)
    | Return Dir => (w, Raise (IsADirectoryError p))
    | Raise e => (w, Raise e)
    end.

(** [os.rename(src, dst)] for a regular file [src]: [dst] is replaced
    when it is a regular file.  The script only ever moves regular
    files ([main] lists them with [os.path.isfile]); renaming a
    directory onto itself does nothing, and any other move of a
    directory is outside this model. *)
Definition rename (src dst : string) : io unit :=
  fun w =>
    match stat src w with
    | Raise e => (w, Raise e)
    | Return Dir =>
        if bool_decide (resolve src = resolve dst) then (w, Return tt)
        else (w, Raise (DirectorySourceUnmodelled src))
    | Return (File data) =>
        if String.eqb dst "" then (w, Raise (FileNotFoundError dst))
        else match node_at w (resolve dst) with
             | Some Dir => (w, Raise (IsADirectoryError dst))
             | Some (File _) =>
                 if proper_name (PosixPath.basename dst)
                 then (<[resolve dst := File data]> (delete (resolve src) w), Return tt)
                 else (w, Raise (NotADirectoryError dst))
             | None =>
                 match create dst (PosixPath.basename dst) (resolve dst)
                              (File data) w with
                 | (w', Return _) => (delete (resolve src) w', Return tt)
                 | (_, Raise e) => (w, Raise e)
                 end
             end
    end.

(** The names of the entries of the directory [d], in the order the
    file system hands them out. *)
Definition entries (w : world) (d : key) : list string :=
  omap (fun kn : key * node =>
          match snd (fst kn) with
          | name :: rest =>
              if bool_decide (fst (fst kn) = fst d /\ rest = snd d) && entry_name name
              then Some name else None
          | [] => None
          end)
       (map_to_list w).

(** [os.listdir(p)] *)
Definition listdir (p : string) : io (list string) :=
  lift (fun w => match stat p w with
                 | Return Dir => Return (entries w (resolve p))
                 | Return (File _) => Raise (NotADirectoryError p)
                 | Raise e => Raise e
                 end).

(** [os.path.isfile(p)] *)
Definition path_isfile (p : string) : io bool :=
  observe (fun w => match stat p w with Return (File _) => true | _ => false end).

End OS.

(** ** [shutil] *)

Module Shutil.

(** [shutil._basename]: the base name, ignoring trailing separators *)
Definition _basename (path : string) : string :=
  PosixPath.basename (Str.rstrip PosixPath.sep path).

(** [shutil.copyfile(src, dst)]: when [open(dst, 'wb')] raises
    [IsADirectoryError] for a path that is not there, the error is
    replaced by a [FileNotFoundError] of its own. *)
Definition copyfile (src dst : string) : io unit :=
  same <- OS.samefile src dst ;;
  if same : bool then raise (SameFileError src dst)
  else
    data <- OS.read_file src ;;
    try_except (OS.write_file dst data) is_IsADirectoryError
               (fun e =>
                  ex <- OS.path_exists dst ;;
                  if negb ex then raise (DirectoryMissing dst) else raise e).

(** [shutil.copy2(src, dst)]; the metadata it also copies is not modelled. *)
Definition copy2 (src dst : string) : io unit :=
  isd <- OS.path_isdir dst ;;
  let dst := if isd : bool then PosixPath.join dst (PosixPath.basename src) else dst in
  copyfile src dst.

(** [shutil.move(src, dst)] *)
Definition move (src dst : string) : io string :=
  isd <- OS.path_isdir dst ;;
  if isd : bool then
    same <- OS.samefile src dst ;;
    if same : bool then
      OS.rename src dst ;;; ret dst
    else
      let real_dst := PosixPath.join dst (_basename src) in
      ex <- OS.path_exists real_dst ;;
      if ex : bool then raise (ShutilError real_dst)
      else
        try_except (OS.rename src real_dst) is_OSError
                   (fun _ => copy2 src real_dst ;;; OS.unlink src) ;;;
        ret real_dst
  else
    try_except (OS.rename src dst) is_OSError
               (fun _ => copy2 src dst ;;; OS.unlink src) ;;;
    ret dst.

End Shutil.

(** ** [csv]: the writer of the default (excel) dialect *)

Module Csv.

Definition delimiter : ascii := ","%char.
Definition quotechar : ascii := "034"%char.
Definition CR : ascii := "013"%char.
Definition LF : ascii := "010"%char.
Definition lineterminator : string := String CR (String LF EmptyString).

(** The values a row of the script holds. *)
Inductive pyval : Type :=
| PyStr (s : string)
| PyInt (z : Z)
| PyNone.

(** [str(field)]; [None] is written as the empty string. *)
Definition field_text (v : pyval) : string :=
  match v with
  | PyStr s => s
  | PyInt z => NilZero.string_of_int (Z.to_int z)
  | PyNone => EmptyString
  end.

(** With [QUOTE_MINIMAL] a character asks for quotes when it is the
    delimiter, the quote character, or part of the line terminator. *)
Definition special (c : ascii) : bool :=
  Ascii.eqb c delimiter || Ascii.eqb c quotechar
  || Str.contains lineterminator c.

Fixpoint has_special (s : string) : bool :=
  match s with
  | EmptyString => false
  | String c s' => special c || has_special s'
  end.

(** The characters of a field as they are copied into the record:
    with [doublequote] a quote character is written twice. *)
Fixpoint copy_field (s : string) : string :=
  match s with
  | EmptyString => EmptyString
  | String c s' =>
      if Ascii.eqb c quotechar then String c (String c (copy_field s'))
      else String c (copy_field s')
  end.

(** [join_append] for one field *)
Definition join_append (s : string) : string :=
  if has_special s
  then String quotechar (copy_field s ++ String quotechar EmptyString)
  else copy_field s.

(** [writer.writerow(row)]: the text handed to [write].  A record of
    one empty field is written as a pair of quotes. *)
Definition writerow_text (row : list pyval) : string :=
  let rec := Str.join (String delimiter EmptyString)
                      (map (fun v => join_append (field_text v)) row) in
  (match row with
   | _ :: _ => if String.eqb rec "" then String quotechar (String quotechar EmptyString) else rec
   | [] => rec
   end) ++ lineterminator.

(** The record without its line terminator. *)
Definition record_text (fields : list string) : string :=
  Str.join (String delimiter "") (map join_append fields).

(** The text of a ledger: its rows, one after the other. *)
Definition ledger_text (rows : list (list pyval)) : string :=
  fold_right (fun row text => writerow_text row ++ text) "" rows.

(** [DictWriter._dict_to_list] with [extrasaction='raise'], [restval=''] *)
Definition dict_to_list (fieldnames : list string) (rowdict : gmap string pyval)
  : result (list pyval) :=
  let wrong_fields :=
    filter (fun k => k ∉ fieldnames) (map fst (map_to_list rowdict)) in
  match wrong_fields with
  | [] => Return (map (fun k => default (PyStr "") (rowdict !! k)) fieldnames)
  | _ :: _ => Raise (ValueError wrong_fields)
  end.

(** [DictWriter.writerow(rowdict)] on the file [f] *)
Definition writerow (f : key) (fieldnames : list string)
    (rowdict : gmap string pyval) : io unit :=
  row <- lift (fun _ => dict_to_list fieldnames rowdict) ;;
  OS.write f (writerow_text row).

(** [DictWriter.writeheader()] *)
Definition writeheader (f : key) (fieldnames : list string) : io unit :=
  writerow f fieldnames (list_to_map (zip fieldnames (map PyStr fieldnames))).

End Csv.

(** ** The script *)

Section Addfile.

(** [mimetypes.guess_type(path)[0]]: the table of extensions. *)
Variable guess_type : string -> option string.

(** [get_mime_type(file_path)] *)
Definition get_mime_type (file_path : string) : io (string * Z) :=
  let mime_type :=
    match guess_type file_path with
    | None => tipo_sconosciuto
    | Some mime_type => mime_type
    end in
  size <- OS.path_getsize file_path ;;
  ret (mime_type, size).

(** [sposta_file(file_path, folder_path, categoria)] *)
Definition sposta_file (file_path folder_path categoria : string) : io string :=
  let destinazione_cartella := PosixPath.join folder_path categoria in
  ex <- OS.path_exists destinazione_cartella ;;
  (if negb ex then OS.makedirs destinazione_cartella else ret tt) ;;;
  let nome_file := PosixPath.basename file_path in
  let nuovo_percorso := PosixPath.join destinazione_cartella nome_file in
  Shutil.move file_path nuovo_percorso ;;;
  ret nuovo_percorso.

Definition intestazioni : list string := ["Nome"; "Tipo"; "Size Byte"; "Percorso"].

(** [scrivi_log_csv(file_info, csv_path)]; leaving the [with] block
    closes the file, also when [writerow] raises. *)
Definition scrivi_log_csv (file_info : gmap string Csv.pyval) (csv_path : string)
  : io unit :=
  file_esiste <- OS.path_exists csv_path ;;
  csvfile <- OS.open_append csv_path ;;
  (if negb file_esiste then Csv.writeheader csvfile intestazioni else ret tt) ;;;
  Csv.writerow csvfile intestazioni file_info.

(** The calls of [scrivi_log_csv] that successive runs of the script
    make on one ledger, up to the first that raises. *)
Fixpoint scrivi_log_csv_each (file_infos : list (gmap string Csv.pyval))
    (csv_path : string) : io unit :=
  match file_infos with
  | [] => ret tt
  | file_info :: file_infos =>
      scrivi_log_csv file_info csv_path ;;;
      scrivi_log_csv_each file_infos csv_path
  end.

(** The dictionary [file_info] that [main] builds. *)
Definition file_info (filename mime_type : string) (size : Z)
    (nuovo_percorso : string) : gmap string Csv.pyval :=
  <["Percorso" := Csv.PyStr nuovo_percorso]>
  (<["Size Byte" := Csv.PyInt size]>
  (<["Tipo" := Csv.PyStr mime_type]>
  (<["Nome" := Csv.PyStr filename]> ∅))).

(** The header row as [writeheader] writes it. *)
Definition header_text : string :=
  Csv.writerow_text (map Csv.PyStr intestazioni).

(** The rows the dictionaries of successive calls are written as. *)
Definition rows_of (file_infos : list (gmap string Csv.pyval))
    (rows : list (list Csv.pyval)) : Prop :=
  Forall2 (fun file_info row => Csv.dict_to_list intestazioni file_info = Return row)
          file_infos rows.

(** ['{s}'] in an f-string of [main]: [s] between single quotes. *)
Definition quoted (s : string) : string := "'" ++ s ++ "'".

Definition str_int (z : Z) : string := NilZero.string_of_int (Z.to_int z).

(** [n] in [digits] hexadecimal digits, as [%0*x] prints it *)
Fixpoint hex (digits : nat) (n : N) : string :=
  match digits with
  | O => EmptyString
  | S digits =>
      hex digits (n / 16)
      ++ String (nth (N.to_nat (n mod 16))
                     (list_ascii_of_string "0123456789abcdef") "0"%char)
                EmptyString
  end.

(** The escape of a character that [repr] does not write as it is. *)
Definition escape (n : N) : string :=
  if (n <=? 255)%N then "\x" ++ hex 2 n
  else if (n <=? 65535)%N then "\u" ++ hex 4 n
  else "\U" ++ hex 8 n.

(** [str.isprintable] on the characters above [U+007F]: a table of
    the Unicode database. *)
Variable isprintable : N -> bool.

(** One character of [repr(s)], inside the quotes [quote]. *)
Definition repr_char (quote : ascii) (c : Utf8.char) : string :=
  let n := Utf8.code c in
  if N.eqb n (Utf8.byte quote) || N.eqb n 92 then String "\"%char (Utf8.bytes c)
  else if N.eqb n 9 then "\t"
  else if N.eqb n 10 then "\n"
  else if N.eqb n 13 then "\r"
  else if (n <? 32)%N || N.eqb n 127 then escape n
  else if (n <? 127)%N then Utf8.bytes c
  else if negb (Utf8.is_escaped c) && isprintable n then Utf8.bytes c
  else escape n.

(** [repr(s)] of a [str]: between double quotes when [s] has a single
    quote and no double quote, between single quotes otherwise. *)
Definition repr (s : string) : string :=
  let quote :=
    if Str.contains s "'"%char && negb (Str.contains s Csv.quotechar)
    then Csv.quotechar else "'"%char in
  String quote (String.concat EmptyString (map (repr_char quote) (Utf8.decode s)))
  ++ String quote EmptyString.

(** [str(e)] of a [UnicodeEncodeError] of the codec [utf-8] *)
Definition str_UnicodeEncodeError (object : string) (start end_ : nat) : string :=
  "'utf-8' codec can't encode "
  ++ (if Nat.eqb end_ (S start)
      then "character '"
           ++ escape (Utf8.code (nth start (Utf8.decode object) (Utf8.Char 0 "")))
           ++ "' in position " ++ str_int (Z.of_nat start)
      else "characters in position " ++ str_int (Z.of_nat start) ++ "-"
           ++ str_int (Z.of_nat (pred end_)))
  ++ ": surrogates not allowed".

(** [str(e)], as the messages of [main] interpolate it: an [OSError]
    shows its [errno], its message and the [repr] of its paths. *)
Definition str_OSError (errno : Z) (strerror : string) (paths : list string)
  : string :=
  "[Errno " ++ str_int errno ++ "] " ++ strerror
  ++ match paths with
     | [] => ""
     | [p] => ": " ++ repr p
     | p :: q :: _ => ": " ++ repr p ++ " -> " ++ repr q
     end.

Definition str_exn (e : exn) : string :=
  match e with
  | FileNotFoundError p => str_OSError 2 "No such file or directory" [p]
  | FileExistsError p => str_OSError 17 "File exists" [p]
  | NotADirectoryError p => str_OSError 20 "Not a directory" [p]
  | IsADirectoryError p => str_OSError 21 "Is a directory" [p]
  | OSError errno strerror paths => str_OSError errno strerror paths
  | DirectoryMissing dst => "Directory does not exist: " ++ dst
  | SameFileError src dst => repr src ++ " and " ++ repr dst ++ " are the same file"
  | ShutilError real_dst => "Destination path " ++ quoted real_dst ++ " already exists"
  | UnicodeEncodeError object start end_ => str_UnicodeEncodeError object start end_
  | ValueError wrong_fields =>
      "dict contains fields not in fieldnames: " ++ Str.join ", " (map repr wrong_fields)
  | RecursionError => "maximum recursion depth exceeded"
  | DirectorySourceUnmodelled src => "directory source: " ++ repr src
  end.

(** How a run of the script ends: [sys.exit(code)], or [main] returns. *)
Inductive termination : Type :=
| SysExit (code : Z)
| Returned.

(** What a run leaves behind: the file system, the lines it printed
    and how it ended. *)
Record run : Type := {
  run_fs : world;
  run_stdout : list string;
  run_end : termination
}.

(** The operation summary printed at the end of [main]. *)
Definition riepilogo (filename mime_type : string) (size : Z)
    (categoria nuovo_percorso csv_path : string) : list string :=
  [ String Csv.LF "--- Riepilogo Operazione ---";
    "Nome: " ++ filename;
    "Tipo: " ++ mime_type;
    "Dimensione: " ++ str_int size ++ " byte";
    "Categoria: " ++ categoria ++ "/";
    "Percorso aggiornato: " ++ nuovo_percorso;
    "Log registrato in: " ++ csv_path;
    "----------------------------------------" ].

(** [main()] from the comment [# Processamento del file] on.  The
    lines before it parse the command line, prompt for a missing
    directory and check [filename] against the listing of
    [folder_path]; they hand these two values over. *)
Definition main (folder_path filename : string) (w : world) : run :=
  let file_path := PosixPath.join folder_path filename in
  match get_mime_type file_path w with
  | (w, Raise e) =>
      {| run_fs := w;
         run_stdout :=
           ["Errore nel rilevare il tipo MIME o la dimensione del file "
              ++ quoted filename ++ ": " ++ str_exn e];
         run_end := SysExit 1 |}
  | (w, Return (mime_type, size)) =>
      match classifica_file (Some mime_type) with
      | None =>
          {| run_fs := w;
             run_stdout :=
               ["File " ++ quoted filename ++ " di tipo " ++ quoted mime_type
                  ++ " non riconosciuto, nessuna azione eseguita."];
             run_end := SysExit 0 |}
      | Some categoria =>
          match sposta_file file_path folder_path categoria w with
          | (w, Raise e) =>
              {| run_fs := w;
                 run_stdout :=
                   ["Errore durante lo spostamento del file "
                      ++ quoted filename ++ ": " ++ str_exn e];
                 run_end := SysExit 1 |}
          | (w, Return nuovo_percorso) =>
              let file_info := file_info filename mime_type size nuovo_percorso in
              let csv_path := PosixPath.join folder_path "recap.csv" in
              let (w, logged) := scrivi_log_csv file_info csv_path w in
              {| run_fs := w;
                 run_stdout :=
                   app
                     match logged with
                     | Raise e =>
                         ["Errore durante la scrittura del log nel file "
                            ++ quoted csv_path ++ ": " ++ str_exn e]
                     | Return _ => []
                     end
                     (riepilogo filename mime_type size categoria
                                nuovo_percorso csv_path);
                 run_end := Returned |}
          end
      end
  end.

(** The four outcomes the specification names, by the branch a run of
    [main] takes. *)
Inductive outcome : Type :=
| Success
| SuccessDegraded
| Skipped
| Failure.

Definition outcome_of (folder_path filename : string) (w : world) : outcome :=
  let file_path := PosixPath.join folder_path filename in
  match get_mime_type file_path w with
  | (_, Raise _) => Failure
  | (w, Return (mime_type, size)) =>
      match classifica_file (Some mime_type) with
      | None => Skipped
      | Some categoria =>
          match sposta_file file_path folder_path categoria w with
          | (_, Raise _) => Failure
          | (w, Return nuovo_percorso) =>
              match scrivi_log_csv
                      (file_info filename mime_type size nuovo_percorso)
                      (PosixPath.join folder_path "recap.csv") w with
              | (_, Raise _) => SuccessDegraded
              | (_, Return _) => Success
              end
          end
      end
  end.

(** What the caller of the script sees of a run: the lines printed and
    the exit. *)
Definition observable (r : run) : list string * termination :=
  (run_stdout r, run_end r).

End Addfile.

(** ** The script on an operating system that may refuse a call

    The calls that change the file system or open a file may each be
    refused, with the [OSError] that the environment chooses: no
    permission, a name that is too long, a destination on another
    device, a file system that is read-only.  The size of the files
    that the process writes may be limited ([RLIMIT_FSIZE]); a write
    that would go beyond the limit writes what fits and raises.  What
    [os.stat] answers is decided by the file system alone, as
    before.  With the environment [calm], which refuses nothing and
    sets no limit, the definitions of this module are those above. *)

Module Faulty.

Inductive call : Type :=
| Mkdir (p : string)
| Rename (src dst : string)
| OpenRead (p : string)
| OpenWrite (p : string)
| OpenAppend (p : string)
| Utime (p : string)
| Chmod (p : string)
| Unlink (p : string).

(** For each call, whether it is refused and with which [errno] and
    message; and the limit on the size of a written file, if any. *)
Record environment : Type := {
  refuses : call -> option (Z * string);
  fsize : option nat
}.

Definition calm : environment := {| refuses := fun _ => None; fsize := None |}.

(** The paths that the [OSError] of a refused call carries. *)
Definition paths (c : call) : list string :=
  match c with
  | Rename src dst => [src; dst]
  | Mkdir p | OpenRead p | OpenWrite p | OpenAppend p | Utime p | Chmod p
  | Unlink p => [p]
  end.

Section Calls.

Variable env : environment.

Definition guarded {A : Type} (c : call) (op : io A) : io A :=
  match refuses env c with
  | Some (errno, strerror) => raise (OSError errno strerror (paths c))
  | None => op
  end.

(** What of [text] can be added to a file of [size] bytes. *)
Definition fits (size : nat) (text : string) : string :=
  match fsize env with
  | Some limit => String.substring 0 (limit - size) text
  | None => text
  end.

Definition mkdir (p : string) : io unit := guarded (Mkdir p) (OS.mkdir p).

Fixpoint makedirs_rec (depth : nat) (name : string) : io unit :=
  match depth with
  | O => raise RecursionError
  | S depth =>
      let (head, tail) := PosixPath.split name in
      let (head, tail) :=
        if String.eqb tail "" then PosixPath.split head else (head, tail) in
      done <-
        (if negb (String.eqb head "") && negb (String.eqb tail "") then
           ex <- OS.path_exists head ;;
           if negb ex then
             try_except (makedirs_rec depth head) is_FileExistsError
                        (fun _ => ret tt) ;;;
             ret (String.eqb tail PosixPath.curdir)
           else ret false
         else ret false) ;;
      if done : bool then ret tt else mkdir name
  end.

Definition makedirs (name : string) : io unit :=
  makedirs_rec (S (String.length name)) name.

(** [os.rename(src, dst)]; a directory as [src] is outside the model,
    as before. *)
Definition rename (src dst : string) : io unit :=
  fun w =>
    match OS.stat src w with
    | Return Dir => OS.rename src dst w
    | _ => guarded (Rename src dst) (OS.rename src dst) w
    end.

Definition unlink (p : string) : io unit := guarded (Unlink p) (OS.unlink p).

(** The copy loop of [shutil.copyfile], into the file that
    [open(dst, 'wb')] has created or emptied.  When the limit lets
    nothing through, the error is the one of the plain [write] that
    the loop falls back on, which names no file. *)
Definition fill (src dst : string) (data : string) : io unit :=
  fun w =>
    let written := fits 0 data in
    (<[OS.resolve dst := File written]> w,
     if String.eqb written data then Return tt
     else Raise (OSError 27 "File too large"
                         (if String.eqb written "" then [] else [src; dst]))).

Definition copyfile (src dst : string) : io unit :=
  same <- OS.samefile src dst ;;
  if same : bool then raise (SameFileError src dst)
  else
    data <- guarded (OpenRead src) (OS.read_file src) ;;
    try_except (guarded (OpenWrite dst) (OS.write_file dst "") ;;;
                fill src dst data)
               is_IsADirectoryError
               (fun e =>
                  ex <- OS.path_exists dst ;;
                  if negb ex then raise (DirectoryMissing dst) else raise e).

(** [shutil.copystat(src, dst)]: the times, then the mode; the
    extended attributes are not modelled. *)
Definition copystat (src dst : string) : io unit :=
  guarded (Utime dst) (ret tt) ;;; guarded (Chmod dst) (ret tt).

Definition copy2 (src dst : string) : io unit :=
  isd <- OS.path_isdir dst ;;
  let dst := if isd : bool then PosixPath.join dst (PosixPath.basename src) else dst in
  copyfile src dst ;;; copystat src dst.

Definition move (src dst : string) : io string :=
  isd <- OS.path_isdir dst ;;
  if isd : bool then
    same <- OS.samefile src dst ;;
    if same : bool then
      rename src dst ;;; ret dst
    else
      let real_dst := PosixPath.join dst (Shutil._basename src) in
      ex <- OS.path_exists real_dst ;;
      if ex : bool then raise (ShutilError real_dst)
      else
        try_except (rename src real_dst) is_OSError
                   (fun _ => copy2 src real_dst ;;; unlink src) ;;;
        ret real_dst
  else
    try_except (rename src dst) is_OSError
               (fun _ => copy2 src dst ;;; unlink src) ;;;
    ret dst.

Definition sposta_file (file_path folder_path categoria : string) : io string :=
  let destinazione_cartella := PosixPath.join folder_path categoria in
  ex <- OS.path_exists destinazione_cartella ;;
  (if negb ex then makedirs destinazione_cartella else ret tt) ;;;
  let nome_file := PosixPath.basename file_path in
  let nuovo_percorso := PosixPath.join destinazione_cartella nome_file in
  move file_path nuovo_percorso ;;;
  ret nuovo_percorso.

Definition open_append (p : string) : io key :=
  guarded (OpenAppend p) (OS.open_append p).

(** [f.write(text)] and the [close] that hands the text to the
    operating system: what does not fit is not written, and the
    [OSError] of [close] names no file. *)
Definition write (f : key) (text : string) : io unit :=
  fun w =>
    match Utf8.surrogates text with
    | Some (start, end_) => (w, Raise (UnicodeEncodeError text start end_))
    | None =>
        match w !! f with
        | Some (File data) =>
            let written := fits (String.length data) text in
            (<[f := File (data ++ written)]> w,
             if String.eqb written text then Return tt
             else Raise (OSError 27 "File too large" []))
        | _ => (w, Return tt)
        end
    end.

Definition writerow (f : key) (fieldnames : list string)
    (rowdict : gmap string Csv.pyval) : io unit :=
  row <- lift (fun _ => Csv.dict_to_list fieldnames rowdict) ;;
  write f (Csv.writerow_text row).

Definition writeheader (f : key) (fieldnames : list string) : io unit :=
  writerow f fieldnames (list_to_map (zip fieldnames (map Csv.PyStr fieldnames))).

Definition scrivi_log_csv (file_info : gmap string Csv.pyval) (csv_path : string)
  : io unit :=
  file_esiste <- OS.path_exists csv_path ;;
  csvfile <- open_append csv_path ;;
  (if negb file_esiste then writeheader csvfile intestazioni else ret tt) ;;;
  writerow csvfile intestazioni file_info.

Variable guess_type : string -> option string.
Variable isprintable : N -> bool.

Definition main (folder_path filename : string) (w : world) : run :=
  let file_path := PosixPath.join folder_path filename in
  match get_mime_type guess_type file_path w with
  | (w, Raise e) =>
      {| run_fs := w;
         run_stdout :=
           ["Errore nel rilevare il tipo MIME o la dimensione del file "
              ++ quoted filename ++ ": " ++ str_exn isprintable e];
         run_end := SysExit 1 |}
  | (w, Return (mime_type, size)) =>
      match classifica_file (Some mime_type) with
      | None =>
          {| run_fs := w;
             run_stdout :=
               ["File " ++ quoted filename ++ " di tipo " ++ quoted mime_type
                  ++ " non riconosciuto, nessuna azione eseguita."];
             run_end := SysExit 0 |}
      | Some categoria =>
          match sposta_file file_path folder_path categoria w with
          | (w, Raise e) =>
              {| run_fs := w;
                 run_stdout :=
                   ["Errore durante lo spostamento del file "
                      ++ quoted filename ++ ": " ++ str_exn isprintable e];
                 run_end := SysExit 1 |}
          | (w, Return nuovo_percorso) =>
              let file_info := file_info filename mime_type size nuovo_percorso in
              let csv_path := PosixPath.join folder_path "recap.csv" in
              let (w, logged) := scrivi_log_csv file_info csv_path w in
              {| run_fs := w;
                 run_stdout :=
                   app
                     match logged with
                     | Raise e =>
                         ["Errore durante la scrittura del log nel file "
                            ++ quoted csv_path ++ ": " ++ str_exn isprintable e]
                     | Return _ => []
                     end
                     (riepilogo filename mime_type size categoria
                                nuovo_percorso csv_path);
                 run_end := Returned |}
          end
      end
  end.

End Calls.

End Faulty.

(** ** The script from the command line *)

Module Cli.

(** What [parser.parse_args()] returns: the values of the optional
    positional [filename] and of the option [-d], [None] when absent. *)
Record namespace : Type := {
  filename : option string;
  directory : option string
}.

(** An exception that nothing in the script catches. *)
Inductive uncaught : Type :=
| EOFError                  (* [input] at the end of the input *)
| Uncaught (e : exn).       (* a library call outside any [try] *)

(** How the script ends: with the run of [main], or with a traceback. *)
Inductive ending : Type :=
| Finished (r : run)
| Traceback (u : uncaught).

(** A session at the command line: whether [input] prompted for the
    directory, and how the script ended. *)
Record session : Type := {
  prompted : bool;
  session_end : ending
}.

Section Main.

Variable guess_type : string -> option string.
Variable isprintable : N -> bool.

(** The loop of [main] over [os.listdir(folder_path)]. *)
Fixpoint scan (folder_path : string) (names available_files : list string)
  : io (list string) :=
  match names with
  | [] => ret available_files
  | f :: names =>
      let full_path := PosixPath.join folder_path f in
      isfile <- OS.path_isfile full_path ;;
      if isfile && negb (String.eqb f "recap.csv") then
        match guess_type full_path with
        | Some mime =>
            if negb (String.eqb mime "") && tipo_valido mime
            then scan folder_path names (available_files ++ [f])
            else scan folder_path names available_files
        | None => scan folder_path names available_files
        end
      else scan folder_path names available_files
  end.

(** The test of that loop on one name, in the file system [w]. *)
Definition spostabile (folder_path : string) (w : world) (f : string) : bool :=
  let full_path := PosixPath.join folder_path f in
  match OS.stat full_path w with Return (File _) => true | _ => false end
  && negb (String.eqb f "recap.csv")
  && match guess_type full_path with
     | Some mime => negb (String.eqb mime "") && tipo_valido mime
     | None => false
     end.

(** The list [available_files] as the loop and [sort] leave it when
    [folder_path] is a directory. *)
Definition available_files (folder_path : string) (w : world) : list string :=
  PyList.sort (filter (fun f => spostabile folder_path w f = true)
                      (OS.entries w (OS.resolve folder_path))).

(** The lines that list the files, one [  - f] for each. *)
Definition elenco (available_files : list string) : list string :=
  map (fun f => "  - " ++ f) available_files.

(** [main()] once [folder_path] is known, up to the comment
    [# Processamento del file]; from there on it is [main] above. *)
Definition organizza (folder_path : string) (filename : option string) (w : world)
  : ending :=
  match OS.path_isdir folder_path w with
  | (w, Raise e) => Traceback (Uncaught e)
  | (w, Return false) =>
      Finished
        {| run_fs := w;
           run_stdout :=
             ["Errore: la cartella " ++ quoted folder_path
                ++ " non esiste o non è accessibile."];
           run_end := SysExit 1 |}
  | (w, Return true) =>
      match (names <- OS.listdir folder_path ;; scan folder_path names []) w with
      | (w, Raise e) => Traceback (Uncaught e)
      | (w, Return available_files) =>
          let available_files := PyList.sort available_files in
          match filename with
          | None | Some EmptyString =>
              Finished
                {| run_fs := w;
                   run_stdout :=
                     match available_files with
                     | _ :: _ =>
                         ("File disponibili nella cartella " ++ quoted folder_path
                            ++ " da spostare:") :: elenco available_files
                     | [] =>
                         ["Nessun file valido da spostare trovato nella cartella "
                            ++ quoted folder_path ++ "."]
                     end;
                   run_end := SysExit 0 |}
          | Some filename =>
              if negb (PyList.contains filename available_files) then
                Finished
                  {| run_fs := w;
                     run_stdout :=
                       ("Errore: Il file " ++ quoted filename
                          ++ " non è valido o non è presente nella cartella "
                          ++ quoted folder_path ++ " o il suo tipo non è supportato.")
                       :: match available_files with
                          | _ :: _ => "File disponibili:" :: elenco available_files
                          | [] => []
                          end;
                     run_end := SysExit 1 |}
              else Finished (main guess_type isprintable folder_path filename w)
          end
      end
  end.

(** [main()], from the namespace of [parser.parse_args()] on.  Without
    a directory on the command line [input] writes its prompt and
    takes the next line of [stdin], the lines a user types. *)
Definition main (args : namespace) (stdin : list string) (w : world) : session :=
  match directory args with
  | Some (String _ _ as folder_path) =>
      {| prompted := false; session_end := organizza folder_path (filename args) w |}
  | _ =>
      match stdin with
      | folder_path :: _ =>
          {| prompted := true; session_end := organizza folder_path (filename args) w |}
      | [] => {| prompted := true; session_end := Traceback EOFError |}
      end
  end.

End Main.

End Cli.

(** ** The reader of [csv], for reading a ledger back

    The script never reads its ledger.  This is the reader a consumer
    of [recap.csv] would use: the state machine of [csv.reader] for the
    same dialect, run over the text of the whole file. *)

Module CsvReader.

Import Csv.

Inductive state : Type :=
| StartRecord
| StartField
| InField
| InQuotedField
| QuoteInQuotedField
| AfterCR.

(** [field] is the field being read, [row] the fields of the record
    read so far; the result is the list of the records. *)
Fixpoint parse (st : state) (field : string) (row : list string) (s : string)
  : list (list string) :=
  match s with
  | EmptyString =>
      match st with
      | StartRecord | AfterCR => []
      | _ => [(row ++ [field])%list]
      end
  | String c s' =>
      let save := (row ++ [field])%list in
      let add := field ++ String c EmptyString in
      match st with
      | StartRecord | AfterCR =>
          if Ascii.eqb c LF then
            match st with
            | AfterCR => parse StartRecord "" [] s'
            | _ => [] :: parse StartRecord "" [] s'
            end
          else if Ascii.eqb c CR then [] :: parse AfterCR "" [] s'
          else if Ascii.eqb c quotechar then parse InQuotedField "" [] s'
          else if Ascii.eqb c delimiter then parse StartField "" [""] s'
          else parse InField (String c EmptyString) [] s'
      | StartField =>
          if Ascii.eqb c LF then save :: parse StartRecord "" [] s'
          else if Ascii.eqb c CR then save :: parse AfterCR "" [] s'
          else if Ascii.eqb c quotechar then parse InQuotedField "" row s'
          else if Ascii.eqb c delimiter then parse StartField "" save s'
          else parse InField add row s'
      | InField =>
          if Ascii.eqb c LF then save :: parse StartRecord "" [] s'
          else if Ascii.eqb c CR then save :: parse AfterCR "" [] s'
          else if Ascii.eqb c delimiter then parse StartField "" save s'
          else parse InField add row s'
      | InQuotedField =>
          if Ascii.eqb c quotechar then parse QuoteInQuotedField field row s'
          else parse InQuotedField add row s'
      | QuoteInQuotedField =>
          if Ascii.eqb c quotechar then parse InQuotedField add row s'
          else if Ascii.eqb c delimiter then parse StartField "" save s'
          else if Ascii.eqb c LF then save :: parse StartRecord "" [] s'
          else if Ascii.eqb c CR then save :: parse AfterCR "" [] s'
          else parse InField add row s'
      end
  end.

Definition reader (text : string) : list (list string) :=
  parse StartRecord "" [] text.

(** The state the reader is in after the text of one field. *)
Definition after (s : string) : state :=
  if has_special s then QuoteInQuotedField
  else match s with EmptyString => StartField | _ => InField end.

End CsvReader.

(** ** What a run may change *)

(** [w'] has the entries of [w] and possibly new, empty directories. *)
Definition only_new_dirs (w w' : world) : Prop :=
  forall k, w' !! k = w !! k \/ (w !! k = None /\ w' !! k = Some Dir).

(** [w] and [w'] hold the same regular files with the same contents. *)
Definition same_files (w w' : world) : Prop :=
  forall k data, w' !! k = Some (File data) <-> w !! k = Some (File data).

(** The file system after a move of the regular file at [src], with
    contents [data], to [dst] inside the directory [dir]. *)
Definition moved (src dir dst : string) (data : string) (w : world) : world :=
  <[OS.resolve dst := File data]>
    (delete (OS.resolve src) (<[OS.resolve dir := Dir]> w)).

(** ** A small file system to run the script on *)

Module Sample.

(** A few entries of the table of [mimetypes]. *)
Definition guess_type (path : string) : option string :=
  let ext := snd (Str.rpartition "." (PosixPath.basename path)) in
  if String.eqb ext "mp3" then Some "audio/mpeg"
  else if String.eqb ext "png" then Some "image/png"
  else if String.eqb ext "pdf" then Some "application/pdf"
  else if String.eqb ext "txt" then Some "text/plain"
  else None.

(** A few entries of the Unicode database: of the characters above
    [U+007F], the printable ones of the Latin-1 Supplement. *)
Definition isprintable (n : N) : bool :=
  (161 <=? n)%N && (n <=? 255)%N && negb (N.eqb n 173).

Definition files : key := (false, ["files"]).

Definition w0 : world :=
  <[(false, ["song.mp3"; "files"]) := File "ID3-bytes"]>
  (<[(false, ["tune.mp3"; "files"]) := File "RIFF"]>
  (<[(false, ["a,b.txt"; "files"]) := File "hello"]>
  (<[(false, ["song.xyz"; "files"]) := File "?"]>
  (<[(false, ["report.pdf"; "files"]) := File "%PDF-1.7"]>
  (<[files := Dir]> ∅))))).

(** The same, with a directory in the place of the ledger ... *)
Definition w_recap_dir : world := <[(false, ["recap.csv"; "files"]) := Dir]> w0.

(** ... and with a regular file in the place of a category directory. *)
Definition w_audio_file : world :=
  <[(false, ["audio"; "files"]) := File "not a directory"]> w0.

(** The same again, with a file whose name has an apostrophe. *)
Definition w_apostrophe : world :=
  <[(false, ["it's.mp3"; "files"]) := File "ID3-bytes"]> w_audio_file.

(** [w0] with a category directory that already holds a file
    named like one of the folder ... *)
Definition w_taken : world :=
  <[(false, ["song.mp3"; "audio"; "files"]) := File "old song"]>
  (<[(false, ["audio"; "files"]) := Dir]> w0).

(** ... with a directory of that name in the category directory ... *)
Definition w_dst_dir : world :=
  <[(false, ["song.mp3"; "audio"; "files"]) := Dir]>
  (<[(false, ["audio"; "files"]) := Dir]> w0).

(** ... and with an entry of that name in that directory. *)
Definition w_dst_full : world :=
  <[(false, ["song.mp3"; "song.mp3"; "audio"; "files"]) := File "in the way"]> w_dst_dir.

(** [w0] with a ledger of one record. *)
Definition ledger : string :=
  "Nome,Tipo,Size Byte,Percorso" ++ Csv.lineterminator
  ++ "intro.mp3,audio/mpeg,4,files/audio/intro.mp3" ++ Csv.lineterminator.

Definition w_ledger : world :=
  <[(false, ["recap.csv"; "files"]) := File ledger]> w0.



(** An environment in which [files/audio] is on another device than
    [files], so that a file cannot be renamed from one to the other,
    and no file may grow beyond four bytes. *)
Definition other_device : Faulty.environment :=
  {| Faulty.refuses :=
       fun c => match c with
                | Faulty.Rename _ _ => Some (18%Z, "Invalid cross-device link")
                | _ => None
                end;
     Faulty.fsize := Some 4%nat |}.

(** The dictionary as the docstring of [scrivi_log_csv] describes it,
    with the key [Size]. *)
Definition docstring_info : gmap string Csv.pyval :=
  <["Size" := Csv.PyInt 9]>
  (<["Tipo" := Csv.PyStr "audio/mpeg"]>
  (<["Nome" := Csv.PyStr "song.mp3"]> ∅)).

End Sample.
(** An equation between two closed terms, one of them a file system,
    holds by evaluating both sides. *)
Ltac evaluated :=
  lazymatch goal with |- _ = ?rhs => vm_cast_no_check (eq_refl rhs) end.

(** Two keys differ, by their components or by their lengths. *)
Ltac key_neq :=
  let E := fresh "E" in
  first [ congruence
        | intros E; apply (f_equal (fun k : key => length (snd k))) in E;
          simpl in E; lia ].

(** * Verification *)

(** ** Strings *)

#[local] Arguments String.append : simpl nomatch.
#[local] Arguments Csv.dict_to_list : simpl never.
#[local] Arguments Csv.writerow_text : simpl never.
#[local] Arguments OS.resolve : simpl never.
#[local] Arguments OS.stat : simpl never.
#[local] Arguments OS.node_at : simpl never.
#[local] Arguments OS.proper_name : simpl never.
#[local] Arguments PosixPath.basename : simpl never.
#[local] Arguments PosixPath.join : simpl never.
#[local] Arguments PosixPath.split : simpl never.

Section StrFacts.

Lemma sapp_assoc (s t u : string) : (s ++ t) ++ u = s ++ (t ++ u).
Proof. induction s as [|a s IH]; simpl; [reflexivity | now rewrite IH]. Qed.

Lemma sapp_nil_r (s : string) : s ++ "" = s.
Proof. induction s as [|a s IH]; simpl; [reflexivity | now rewrite IH]. Qed.

Lemma slength_app (s t : string) :
  String.length (s ++ t) = String.length s + String.length t.
Proof. induction s as [|a s IH]; simpl; [reflexivity | now rewrite IH]. Qed.

Lemma prefix_app (p s : string) :
  String.prefix p s = true <-> exists r, s = p ++ r.
Proof.
  revert s; induction p as [|a p IH]; intros s; simpl.
  - split; [intros _; exists s; reflexivity | now destruct s].
  - destruct s as [|b s]; simpl.
    + split; [discriminate | intros [r Hr]; discriminate].
    + destruct (ascii_dec a b) as [->|Hab].
      * rewrite IH. split; intros [r Hr]; exists r; simpl in *; congruence.
      * split; [discriminate | intros [r Hr]; simpl in Hr; congruence].
Qed.


Lemma split_not_nil (c : ascii) (s : string) : Str.split c s <> [].
Proof.
  destruct s as [|a s]; simpl; [discriminate|].
  destruct (Ascii.eqb a c); [discriminate|].
  destruct (Str.split c s); discriminate.
Qed.

(** The first piece of a split is a prefix of the string. *)
Lemma split_hd_prefix (c : ascii) (s : string) :
  String.prefix (hd "" (Str.split c s)) s = true.
Proof.
  induction s as [|a s IH]; simpl; [reflexivity|].
  destruct (Ascii.eqb a c); simpl; [reflexivity|].
  destruct (Str.split c s) as [|p ps] eqn:E; simpl in *.
  - now destruct (split_not_nil c s).
  - destruct (ascii_dec a a); [assumption | congruence].
Qed.

Lemma startswith_char (x : ascii) (s : string) (c : ascii) :
  Str.startswith (String x s) (String c "") = Ascii.eqb c x.
Proof.
  unfold Str.startswith. cbn [String.prefix].
  destruct (ascii_dec c x) as [->|H]; [rewrite Ascii.eqb_refl; now destruct s|].
  symmetry. now apply Ascii.eqb_neq.
Qed.

(** Splitting at an occurrence of the separator. *)
Lemma split_app_sep (c : ascii) (a b : string) :
  Str.split c (a ++ String c b) = (Str.split c a ++ Str.split c b)%list.
Proof.
  induction a as [|x a IH]; simpl.
  - now rewrite Ascii.eqb_refl.
  - rewrite IH. destruct (Ascii.eqb x c); [reflexivity|].
    destruct (Str.split c a) as [|p ps] eqn:E; [now destruct (split_not_nil c a)|].
    reflexivity.
Qed.

Lemma split_nosep (c : ascii) (b : string) :
  Str.contains b c = false -> Str.split c b = [b].
Proof.
  induction b as [|x b IH]; simpl; [reflexivity|].
  rewrite orb_false_iff. intros [-> Hb]. now rewrite (IH Hb).
Qed.

Lemma rpartition_nosep (c : ascii) (b : string) :
  Str.contains b c = false -> Str.rpartition c b = ("", b).
Proof.
  induction b as [|x b IH]; simpl; [reflexivity|].
  rewrite orb_false_iff. intros [-> Hb]. now rewrite (IH Hb).
Qed.

Lemma rpartition_app_sep (c : ascii) (a b : string) :
  Str.contains b c = false ->
  Str.rpartition c (a ++ String c b) = (a ++ String c "", b).
Proof.
  intros Hb. induction a as [|x a IH]; simpl.
  - now rewrite (rpartition_nosep c b Hb), Ascii.eqb_refl.
  - rewrite IH. destruct a; reflexivity.
Qed.

(** The tail that [rpartition] cuts off has no separator, and the two
    parts make up the string. *)
Lemma rpartition_snd_nosep (c : ascii) (s : string) :
  Str.contains (snd (Str.rpartition c s)) c = false.
Proof.
  induction s as [|x s IH]; simpl; [reflexivity|].
  destruct (Str.rpartition c s) as [h t]. simpl in IH.
  destruct h; [|assumption].
  destruct (Ascii.eqb x c) eqn:E; simpl; [assumption | now rewrite E].
Qed.

Lemma rpartition_app (c : ascii) (s : string) :
  fst (Str.rpartition c s) ++ snd (Str.rpartition c s) = s.
Proof.
  induction s as [|x s IH]; simpl; [reflexivity|].
  destruct (Str.rpartition c s) as [h t]. simpl in IH. subst s.
  destruct h; [destruct (Ascii.eqb x c)|]; reflexivity.
Qed.

Lemma endswith_app (a : string) (c : ascii) :
  Str.endswith a c = true -> exists a', a = a' ++ String c "".
Proof.
  induction a as [|x a IH]; simpl; [discriminate|].
  destruct a as [|y a].
  - intros H. apply Ascii.eqb_eq in H as ->. now exists "".
  - intros H. destruct (IH H) as [a' ->]. now exists (String x a').
Qed.

Lemma rstrip_app_sep (c : ascii) (r : string) :
  Str.rstrip c (r ++ String c "") = Str.rstrip c r.
Proof.
  induction r as [|x r IH]; simpl; [now rewrite Ascii.eqb_refl | now rewrite IH].
Qed.

(** Nothing is stripped from a string that ends in a piece without
    separator. *)
Lemma rstrip_nosep (c : ascii) (b : string) :
  Str.contains b c = false -> Str.rstrip c b = b.
Proof.
  induction b as [|x b IH]; simpl; [reflexivity|].
  rewrite orb_false_iff. intros [-> Hb]. rewrite (IH Hb). now destruct b.
Qed.

Lemma rstrip_app_nosep (c : ascii) (a b : string) :
  b <> "" -> Str.contains b c = false -> Str.rstrip c (a ++ b) = a ++ b.
Proof.
  intros Hne Hb. induction a as [|x a IH]; simpl; [now apply rstrip_nosep|].
  rewrite IH. destruct (a ++ b) eqn:E; [|reflexivity].
  destruct a, b; simpl in E; congruence.
Qed.

(** What [rstrip] removes is a row of separators: the pieces of the
    string are those of the stripped string and empty pieces. *)
Lemma rstrip_split (c : ascii) (a : string) :
  exists k,
    match Str.rstrip c a with
    | EmptyString => Str.split c a = repeat "" (S k)
    | r => Str.split c a = (Str.split c r ++ repeat "" k)%list
    end.
Proof.
  induction a as [|x a IH]; simpl.
  - now exists 0.
  - destruct IH as [k IH]. destruct (Str.rstrip c a) as [|y r] eqn:E.
    + destruct (Ascii.eqb x c) eqn:Ex.
      * exists (S k). now rewrite IH.
      * exists k. rewrite IH. simpl. now rewrite Ex.
    + exists k. rewrite IH. destruct (Ascii.eqb x c); [reflexivity|].
      destruct (Str.split c (String y r)) as [|p ps] eqn:Es;
        [now destruct (split_not_nil c (String y r))|].
      reflexivity.
Qed.

(** A stripped string that is not empty starts as the string does. *)
Lemma rstrip_first (c : ascii) (a : string) (x : ascii) (r : string) :
  Str.rstrip c a = String x r -> exists a', a = String x a'.
Proof.
  destruct a as [|y a]; simpl; [discriminate|].
  destruct (Str.rstrip c a); [destruct (Ascii.eqb y c)|]; intros [= <- _]; eauto.
Qed.

(** A string of separators only, when not empty, ends with one. *)
Lemma rstrip_empty_endswith (c : ascii) (a : string) :
  a <> "" -> Str.rstrip c a = "" -> Str.endswith a c = true.
Proof.
  induction a as [|x a IH]; [congruence|]. intros _. simpl.
  destruct (Str.rstrip c a) eqn:E; [|discriminate].
  destruct (Ascii.eqb x c) eqn:Ex; [|discriminate]. intros _.
  destruct a as [|y a]; [reflexivity|]. apply IH; [discriminate | reflexivity].
Qed.

Lemma rstrip_length (c : ascii) (s : string) :
  String.length (Str.rstrip c s) <= String.length s.
Proof.
  induction s as [|x s IH]; simpl; [lia|].
  destruct (Str.rstrip c s); [destruct (Ascii.eqb x c)|]; simpl in *; lia.
Qed.

End StrFacts.

(** ** Text that can be encoded *)

Section TextFacts.

Import Utf8.

Lemma pure_app (l l' : list char) : pure (l ++ l') = pure l && pure l'.
Proof. apply forallb_app. Qed.

Lemma surrogates_from_pure (i : nat) (l : list char) :
  surrogates_from i l = None <-> pure l = true.
Proof.
  revert i; induction l as [|c l IH]; intros i; cbn; [tauto|].
  destruct (is_escaped c); cbn; [split; discriminate | apply IH].
Qed.

Lemma encodable_pure (s : string) : encodable s = pure (decode s).
Proof.
  unfold encodable, surrogates.
  destruct (surrogates_from 0 (decode s)) as [[a b]|] eqn:E.
  - symmetry. apply not_true_is_false. intros H.
    apply (surrogates_from_pure 0) in H. congruence.
  - symmetry. now apply (surrogates_from_pure 0).
Qed.

Lemma encodable_surrogates (s : string) :
  encodable s = true <-> surrogates s = None.
Proof.
  unfold encodable. destruct (surrogates s) as [[a b]|]; split; congruence.
Qed.

Lemma trail_lead (b : ascii) : trail b <> O -> (194 <=? byte b)%N = true.
Proof.
  unfold trail, between.
  destruct (194 <=? byte b)%N eqn:E; [reflexivity|].
  assert (H : (byte b < 194)%N) by now apply N.leb_gt.
  replace (224 <=? byte b)%N with false by (symmetry; apply N.leb_gt; lia).
  replace (240 <=? byte b)%N with false by (symmetry; apply N.leb_gt; lia).
  cbn. congruence.
Qed.

Lemma is_escaped_escaped (b : ascii) :
  (128 <=? byte b)%N = true -> is_escaped (escaped b) = true.
Proof.
  intros H. apply N.leb_le in H. unfold is_escaped, escaped. cbn [code].
  pose proof (N_ascii_bounded b) as Hb. unfold byte in *.
  apply andb_true_iff. split; apply N.leb_le; lia.
Qed.

Lemma start_sound (b : ascii) : sound (snd (start b)).
Proof.
  unfold start. destruct (byte b <? 128)%N; [constructor|].
  destruct (trail b) eqn:E; [constructor|]. constructor. congruence.
Qed.

Lemma step_sound (st : state) (b : ascii) : sound st -> sound (snd (step st b)).
Proof.
  intros Hst. destruct st as [|lead seen]; [apply start_sound|].
  inversion Hst; subst. cbn [step].
  destruct (follows lead (length seen) b).
  - destruct (Nat.eqb _ _); constructor. assumption.
  - pose proof (start_sound b) as H. destruct (start b). exact H.
Qed.

Lemma flush_pure (st : state) : sound st -> pure (flush st) = true -> st = Start.
Proof.
  intros Hst. destruct Hst as [|lead seen Hl]; [reflexivity|].
  cbn. rewrite is_escaped_escaped; [discriminate|].
  apply trail_lead in Hl. apply N.leb_le in Hl. apply N.leb_le. lia.
Qed.

(** Text after text that can be encoded is decoded on its own. *)
Lemma feed_app (st : state) (a b : string) :
  sound st -> pure (feed st a) = true ->
  feed st (a ++ b) = (feed st a ++ feed Start b)%list.
Proof.
  revert st; induction a as [|c a IH]; intros st Hst Hp.
  - cbn in Hp |- *. now rewrite (flush_pure st Hst Hp).
  - cbn [feed String.append] in Hp |- *.
    pose proof (step_sound st c Hst) as Hs'.
    destruct (step st c) as [out st']. cbn [snd] in Hs'.
    rewrite pure_app in Hp. apply andb_true_iff in Hp as [_ Hp].
    rewrite (IH st' Hs' Hp). now rewrite app_assoc.
Qed.

Lemma encodable_app (a b : string) :
  encodable a = true -> encodable b = true -> encodable (a ++ b) = true.
Proof.
  rewrite !encodable_pure. unfold decode. intros Ha Hb.
  rewrite (feed_app Start a b sound_Start Ha), pure_app. now rewrite Ha, Hb.
Qed.

Lemma ascii_only_app (a b : string) :
  ascii_only (a ++ b) = ascii_only a && ascii_only b.
Proof.
  unfold ascii_only. induction a as [|c a IH]; [reflexivity|].
  cbn. now rewrite IH, andb_assoc.
Qed.

Lemma ascii_only_encodable (s : string) : ascii_only s = true -> encodable s = true.
Proof.
  rewrite encodable_pure. unfold decode, ascii_only.
  induction s as [|c s IH]; [reflexivity|].
  cbn [list_ascii_of_string forallb feed step]. intros H.
  apply andb_true_iff in H as [Hc Hs].
  unfold start. rewrite Hc. cbn [app pure forallb]. fold (pure (feed Start s)).
  rewrite (IH Hs), andb_true_r. unfold is_escaped. cbn [code].
  apply N.ltb_lt in Hc. apply negb_true_iff, andb_false_iff. left.
  apply N.leb_gt. lia.
Qed.

(** A quote character inside a sequence breaks it. *)
Lemma step_quote (st : state) :
  sound st ->
  st = Start \/ pure (fst (step st Csv.quotechar)) = false.
Proof.
  intros Hst. destruct Hst as [|lead seen Hl]; [now left|]. right.
  cbn [step].
  replace (follows lead (length seen) Csv.quotechar) with false.
  - change (start Csv.quotechar) with ([Char 34 (String Csv.quotechar "")], Start).
    cbn [fst pure forallb]. rewrite is_escaped_escaped; [reflexivity|].
    apply trail_lead in Hl. apply N.leb_le in Hl. apply N.leb_le. lia.
  - symmetry. unfold follows.
    destruct (length seen); repeat case_match; reflexivity.
Qed.

(** Doubling the quotes of a text keeps it encodable. *)
Lemma feed_copy_field (st : state) (s : string) :
  sound st -> pure (feed st s) = true -> pure (feed st (Csv.copy_field s)) = true.
Proof.
  revert st; induction s as [|c s IH]; intros st Hst Hp; [exact Hp|].
  cbn [Csv.copy_field]. destruct (Ascii.eqb_spec c Csv.quotechar) as [->|Hc].
  - cbn [feed] in Hp |- *.
    destruct (step_quote st Hst) as [->|Hbad].
    + cbn in Hp |- *. now apply (IH Start sound_Start).
    + destruct (step st Csv.quotechar) as [out st']. cbn [fst] in Hbad.
      rewrite pure_app, Hbad in Hp. discriminate Hp.
  - cbn [feed] in Hp |- *. pose proof (step_sound st c Hst) as Hs'.
    destruct (step st c) as [out st']. cbn [snd] in Hs'.
    rewrite pure_app in Hp |- *. apply andb_true_iff in Hp as [Ho Hp].
    rewrite Ho. now apply IH.
Qed.

Lemma encodable_join_append (s : string) :
  encodable s = true -> encodable (Csv.join_append s) = true.
Proof.
  intros Hs. assert (Hc : encodable (Csv.copy_field s) = true).
  { rewrite encodable_pure in Hs |- *. now apply feed_copy_field; [constructor|]. }
  unfold Csv.join_append. destruct (Csv.has_special s); [|exact Hc].
  change (String Csv.quotechar (Csv.copy_field s ++ String Csv.quotechar ""))
    with (String Csv.quotechar "" ++ (Csv.copy_field s ++ String Csv.quotechar "")).
  apply encodable_app; [reflexivity|]. now apply encodable_app.
Qed.

(** The decimal text of an integer is plain ASCII. *)
Lemma string_of_uint_ascii (d : Decimal.uint) :
  ascii_only (NilEmpty.string_of_uint d) = true.
Proof. induction d; cbn; try assumption; reflexivity. Qed.

Lemma str_int_encodable (z : Z) : encodable (str_int z) = true.
Proof.
  apply ascii_only_encodable. unfold str_int, NilZero.string_of_int.
  assert (H : forall d, ascii_only (NilZero.string_of_uint d) = true).
  { intros d. unfold NilZero.string_of_uint.
    destruct d; try reflexivity; apply (string_of_uint_ascii (_ d)). }
  destruct (Z.to_int z) as [d|d]; [apply H|].
  change (ascii_only (String "-" "" ++ NilZero.string_of_uint d) = true).
  now rewrite ascii_only_app, H.
Qed.

(** The record of the four values of a run is encodable when the
    name, the media type and the path are. *)
Lemma writerow_text_encodable (filename mime_type : string) (size : Z)
    (nuovo_percorso : string) :
  encodable filename = true -> encodable mime_type = true ->
  encodable nuovo_percorso = true ->
  surrogates (Csv.writerow_text [Csv.PyStr filename; Csv.PyStr mime_type;
                                 Csv.PyInt size; Csv.PyStr nuovo_percorso]) = None.
Proof.
  intros Hf Hm Hp. apply encodable_surrogates.
  unfold Csv.writerow_text. cbn [map Str.join Csv.field_text].
  match goal with |- context [String.eqb ?r ""] => set (rec := r) end.
  assert (Hrec : encodable rec = true).
  { subst rec. repeat apply encodable_app;
      try apply encodable_join_append; try assumption; try reflexivity.
    apply str_int_encodable. }
  apply encodable_app; [|reflexivity].
  destruct (String.eqb rec ""); [reflexivity | assumption].
Qed.

Lemma encodable_join (a b : string) :
  encodable a = true -> encodable b = true -> encodable (PosixPath.join a b) = true.
Proof.
  intros Ha Hb. unfold PosixPath.join. repeat case_match; try assumption.
  - now apply encodable_app.
  - apply encodable_app; [assumption|]. now apply encodable_app.
Qed.

End TextFacts.

(** ** The classifier *)

Lemma top_level_prefix (mime : string) : Str.startswith mime (top_level mime) = true.
Proof. apply split_hd_prefix. Qed.

Lemma startswith_top_level (mime word : string) :
  top_level mime = word -> Str.startswith mime word = true.
Proof. intros <-. apply top_level_prefix. Qed.

(** A string that starts with one word does not start with another
    word that differs from it in the first letter. *)
Lemma startswith_first (s : string) (a b : ascii) (p q : string) :
  a <> b -> Str.startswith s (String a p) = true ->
  Str.startswith s (String b q) = false.
Proof.
  unfold Str.startswith. destruct s as [|c s]; simpl; [discriminate|].
  intros Hab. destruct (ascii_dec a c) as [->|]; [|discriminate].
  intros _. destruct (ascii_dec b c); [congruence | reflexivity].
Qed.

(** The test of [main] lets through only media types the classifier
    recognizes: behind it the branch for an unrecognized type is never
    taken. *)
Lemma tipo_valido_classified (mime : string) :
  tipo_valido mime = true -> classifica_file (Some mime) <> None.
Proof.
  unfold tipo_valido, tipi_validi. simpl. rewrite !orb_true_iff, !String.eqb_eq.
  intros H. unfold classifica_file.
  destruct (Str.startswith mime "audio") eqn:Ea; [discriminate|].
  destruct (Str.startswith mime "image") eqn:Ei; [discriminate|].
  destruct (Str.startswith mime "application") eqn:Eap; [discriminate|].
  destruct (Str.startswith mime "text") eqn:Et; [discriminate|].
  destruct H as [H|[H|[H|[H|H]]]]; try discriminate H;
    apply startswith_top_level in H; congruence.
Qed.

(** C1, as the code has it: [classifica_file] is a total function of
    the media-type string, and it tests the beginning of the whole
    string, not its top-level token: the result is audio exactly for
    the strings that begin with the letters [audio], immagini exactly
    for those that begin with [image], documenti exactly for those
    that begin with [application] or with [text], and unrecognized
    ([None]) exactly for the others, among them the sentinel of an
    unknown extension.  So a string whose top-level token is one of
    the four words goes to the category of the word, and the
    classifier agrees with the classification by top-level token
    exactly on the strings whose token is one of the four words and
    on those it does not recognize. *)
Theorem classifica_file_by_prefix (mime : string) :
  let starts word := exists rest, mime = word ++ rest in
  (classifica_file (Some mime) = Some "audio" <-> starts "audio") /\
  (classifica_file (Some mime) = Some "immagini" <-> starts "image") /\
  (classifica_file (Some mime) = Some "documenti" <->
     starts "application" \/ starts "text") /\
  (classifica_file (Some mime) = None <->
     ~ (starts "audio" \/ starts "image" \/ starts "application" \/ starts "text")) /\
  (top_level mime = "audio" -> classifica_file (Some mime) = Some "audio") /\
  (top_level mime = "image" -> classifica_file (Some mime) = Some "immagini") /\
  (top_level mime = "application" \/ top_level mime = "text" ->
     classifica_file (Some mime) = Some "documenti") /\
  classifica_file (Some tipo_sconosciuto) = None /\
  classifica_file None = None /\
  (classifica_file (Some mime) = categoryOf_by_token mime <->
     tipo_valido mime = true \/ classifica_file (Some mime) = None).
Proof.
  intros starts.
  assert (Pa : Str.startswith mime "audio" = true <-> starts "audio")
    by apply prefix_app.
  assert (Pi : Str.startswith mime "image" = true <-> starts "image")
    by apply prefix_app.
  assert (Pp : Str.startswith mime "application" = true <-> starts "application")
    by apply prefix_app.
  assert (Pt : Str.startswith mime "text" = true <-> starts "text")
    by apply prefix_app.
  assert (Hai : starts "audio" -> starts "image" -> False)
    by (intros [r ->] [r' H]; discriminate H).
  assert (Hap : starts "audio" -> starts "application" -> False)
    by (intros [r ->] [r' H]; discriminate H).
  assert (Hat : starts "audio" -> starts "text" -> False)
    by (intros [r ->] [r' H]; discriminate H).
  assert (Hip : starts "image" -> starts "application" -> False)
    by (intros [r ->] [r' H]; discriminate H).
  assert (Hit : starts "image" -> starts "text" -> False)
    by (intros [r ->] [r' H]; discriminate H).
  assert (Hcases : classifica_file (Some mime)
                   = if Str.startswith mime "audio" then Some "audio"
                     else if Str.startswith mime "image" then Some "immagini"
                     else if Str.startswith mime "application"
                             || Str.startswith mime "text"
                          then Some "documenti" else None) by reflexivity.
  assert (Haudio : classifica_file (Some mime) = Some "audio" <-> starts "audio").
  { rewrite Hcases, <- Pa. repeat case_match; split; congruence. }
  assert (Himage : classifica_file (Some mime) = Some "immagini" <-> starts "image").
  { rewrite Hcases. split.
    - intros H. apply Pi. repeat case_match; congruence.
    - intros H. destruct (Str.startswith mime "audio");
        [exfalso; apply (Hai (proj1 Pa eq_refl) H)|].
      apply Pi in H. now rewrite H. }
  assert (Hdoc : classifica_file (Some mime) = Some "documenti"
                 <-> starts "application" \/ starts "text").
  { rewrite Hcases, <- Pp, <- Pt, <- orb_true_iff. split.
    - intros H. repeat case_match; congruence.
    - intros H. destruct (Str.startswith mime "audio").
      { exfalso. pose proof (proj1 Pa eq_refl). apply orb_true_iff in H as [H|H];
          [apply Pp in H | apply Pt in H]; eauto. }
      destruct (Str.startswith mime "image").
      { exfalso. pose proof (proj1 Pi eq_refl). apply orb_true_iff in H as [H|H];
          [apply Pp in H | apply Pt in H]; eauto. }
      now rewrite H. }
  assert (Hnone : classifica_file (Some mime) = None <->
            ~ (starts "audio" \/ starts "image" \/ starts "application" \/ starts "text")).
  { rewrite Hcases, <- Pa, <- Pi, <- Pp, <- Pt.
    destruct (Str.startswith mime "audio"), (Str.startswith mime "image"),
      (Str.startswith mime "application"), (Str.startswith mime "text"); cbn [orb];
      split; try discriminate; try tauto;
      intros _ [H|[H|[H|H]]]; discriminate H. }
  assert (Htoken : forall word, top_level mime = word -> starts word).
  { intros word H. apply startswith_top_level in H. now apply prefix_app in H. }
  split; [exact Haudio|]. split; [exact Himage|]. split; [exact Hdoc|].
  split; [exact Hnone|].
  split; [intros H; apply Haudio; now apply Htoken|].
  split; [intros H; apply Himage; now apply Htoken|].
  split; [intros [H|H]; apply Hdoc; [left | right]; now apply Htoken|].
  split; [reflexivity|]. split; [reflexivity|].
  unfold tipo_valido, tipi_validi, categoryOf_by_token. cbn [existsb].
  rewrite !orb_true_iff, !String.eqb_eq. cbv zeta.
  destruct (String.eqb_spec (top_level mime) "audio") as [Et|Na].
  { split; [auto|]. intros _. apply Haudio. now apply Htoken. }
  destruct (String.eqb_spec (top_level mime) "image") as [Et|Ni].
  { split; [auto|]. intros _. apply Himage. now apply Htoken. }
  destruct (String.eqb_spec (top_level mime) "application") as [Et|Np].
  { split; [auto 6|]. intros _. apply Hdoc. left. now apply Htoken. }
  destruct (String.eqb_spec (top_level mime) "text") as [Et|Nt].
  { split; [auto 6|]. intros _. apply Hdoc. right. now apply Htoken. }
  cbn [orb]. split; [auto 6|].
  intros [[H|[H|[H|[H|H]]]]|H]; congruence.
Qed.

Lemma classifica_file_by_prefix_witness :
  classifica_file (Some "audio/mpeg") = Some "audio" /\
  classifica_file (Some "imagery") = Some "immagini" /\
  classifica_file (Some "audiobook/x-m4b") = Some "audio" /\
  classifica_file (Some "textile") = Some "documenti" /\
  classifica_file (Some "text/plain") = Some "documenti" /\
  classifica_file (Some "video/mp4") = categoryOf_by_token "video/mp4" /\
  classifica_file (Some "imagery") <> categoryOf_by_token "imagery".
Proof.
  destruct (classifica_file_by_prefix "audio/mpeg") as (_ & _ & _ & _ & Ha & _).
  destruct (classifica_file_by_prefix "imagery") as (_ & Hi & _ & _ & _ & _ & _ & _ & _ & Hn).
  destruct (classifica_file_by_prefix "audiobook/x-m4b") as (Hb & _).
  destruct (classifica_file_by_prefix "textile") as (_ & _ & Ht & _).
  destruct (classifica_file_by_prefix "text/plain") as (_ & _ & _ & _ & _ & _ & Hd & _).
  destruct (classifica_file_by_prefix "video/mp4")
    as (_ & _ & _ & _ & _ & _ & _ & _ & _ & Hv).
  split; [exact (Ha eq_refl)|].
  split; [exact (proj2 Hi (ex_intro _ "ry" eq_refl))|].
  split; [exact (proj2 Hb (ex_intro _ "book/x-m4b" eq_refl))|].
  split; [exact (proj2 Ht (or_intror (ex_intro _ "ile" eq_refl)))|].
  split; [exact (Hd (or_intror eq_refl))|].
  split; [exact (proj2 Hv (or_intror eq_refl))|].
  intros E. apply Hn in E as [E|E]; discriminate E.
Defined.

(** C1 as stated fails: a string whose top-level token is none of the
    four is still classified when it begins with the letters of one
    of them. *)
Lemma classifica_file_not_by_token :
  top_level "audiobook/x-m4b" = "audiobook" /\
  categoryOf_by_token "audiobook/x-m4b" = None /\
  classifica_file (Some "audiobook/x-m4b") = Some "audio" /\
  top_level "imagery" = "imagery" /\
  categoryOf_by_token "imagery" = None /\
  classifica_file (Some "imagery") = Some "immagini".
Proof. repeat split. Qed.

(** ** Writing a record and reading it back *)

Section CsvFacts.

Import Csv CsvReader.

Lemma special_false (c : ascii) :
  special c = false ->
  Ascii.eqb c delimiter = false /\ Ascii.eqb c quotechar = false /\
  Ascii.eqb c CR = false /\ Ascii.eqb c LF = false.
Proof.
  unfold special. simpl. rewrite !orb_false_iff. tauto.
Qed.

(** A field without special characters is copied as it is. *)
Lemma copy_field_plain (s : string) : has_special s = false -> copy_field s = s.
Proof.
  induction s as [|c s IH]; simpl; [reflexivity|].
  rewrite orb_false_iff. intros [Hc Hs].
  apply special_false in Hc. destruct Hc as (_ & -> & _).
  now rewrite IH.
Qed.

(** After a field, the delimiter opens the next field ... *)
Lemma parse_delimiter (st : state) (field : string) (row : list string) (r : string) :
  st = StartField \/ st = InField \/ st = QuoteInQuotedField ->
  parse st field row (String delimiter r) = parse StartField "" (row ++ [field])%list r.
Proof. intros [-> | [-> | ->]]; reflexivity. Qed.

(** ... and the line terminator closes the record. *)
Lemma parse_lineterminator (st : state) (field : string) (row : list string)
    (r : string) :
  st = StartField \/ st = InField \/ st = QuoteInQuotedField ->
  parse st field row (lineterminator ++ r)
  = (row ++ [field])%list :: parse StartRecord "" [] r.
Proof. intros [-> | [-> | ->]]; reflexivity. Qed.

Lemma parse_plain (field s : string) (row : list string) (r : string) :
  has_special s = false ->
  parse InField field row (s ++ r) = parse InField (field ++ s) row r.
Proof.
  revert field; induction s as [|c s IH]; intros field; simpl.
  - now rewrite sapp_nil_r.
  - rewrite orb_false_iff. intros [Hc Hs].
    apply special_false in Hc. destruct Hc as (Hd & _ & Hcr & Hlf).
    rewrite Hlf, Hcr, Hd, (IH _ Hs), sapp_assoc. reflexivity.
Qed.

Lemma parse_quoted (field s : string) (row : list string) (r : string) :
  parse InQuotedField field row (copy_field s ++ String quotechar r)
  = parse QuoteInQuotedField (field ++ s) row r.
Proof.
  revert field; induction s as [|c s IH]; intros field; simpl.
  - now rewrite sapp_nil_r.
  - destruct (Ascii.eqb c quotechar) eqn:E; simpl; rewrite ?E.
    + rewrite IH, sapp_assoc. reflexivity.
    + rewrite IH, sapp_assoc. reflexivity.
Qed.

Lemma after_cases (s : string) :
  after s = StartField \/ after s = InField \/ after s = QuoteInQuotedField.
Proof. unfold after. destruct (has_special s), s; tauto. Qed.

Lemma parse_join_append (s : string) (row : list string) (r : string) :
  parse StartField "" row (join_append s ++ r) = parse (after s) s row r.
Proof.
  unfold join_append, after. destruct (has_special s) eqn:Hs.
  - simpl. rewrite sapp_assoc. simpl. apply (parse_quoted "").
  - rewrite (copy_field_plain _ Hs). destruct s as [|c s]; [reflexivity|].
    simpl in Hs |- *. apply orb_false_iff in Hs. destruct Hs as [Hc Hs].
    apply special_false in Hc. destruct Hc as (Hd & Hq & Hcr & Hlf).
    rewrite Hlf, Hcr, Hq, Hd. apply (parse_plain (String c "") s row r Hs).
Qed.

(** At the start of a record the reader treats a first field that is
    not empty like any other field. *)
Lemma parse_first_field (s : string) (r : string) :
  s <> "" ->
  parse StartRecord "" [] (join_append s ++ r)
  = parse StartField "" [] (join_append s ++ r).
Proof.
  intros Hne. unfold join_append. destruct (has_special s) eqn:Hs; [reflexivity|].
  destruct s as [|c s]; [congruence|].
  simpl in Hs |- *. apply orb_false_iff in Hs. destruct Hs as [Hc Hs].
  apply special_false in Hc. destruct Hc as (Hd & Hq & Hcr & Hlf).
  rewrite Hq in *. simpl. now rewrite Hlf, Hcr, Hq, Hd.
Qed.

Lemma record_text_cons (f g : string) (fields : list string) :
  record_text (f :: g :: fields)
  = join_append f ++ String delimiter "" ++ record_text (g :: fields).
Proof. reflexivity. Qed.

Lemma parse_record (f : string) (fields row : list string) (r : string) :
  parse StartField "" row (record_text (f :: fields) ++ lineterminator ++ r)
  = (row ++ f :: fields)%list :: parse StartRecord "" [] r.
Proof.
  revert f row; induction fields as [|g fields IH]; intros f row.
  - unfold record_text; simpl. rewrite parse_join_append.
    apply parse_lineterminator, after_cases.
  - rewrite record_text_cons, !sapp_assoc, parse_join_append.
    change (String delimiter "" ++ ?x) with (String delimiter x).
    rewrite (parse_delimiter _ _ _ _ (after_cases f)), IH.
    now rewrite <- app_assoc.
Qed.

Lemma join_append_nonempty (s : string) : s <> "" -> join_append s <> "".
Proof.
  unfold join_append. destruct (has_special s); [discriminate|].
  destruct s as [|c s]; [congruence|]. simpl.
  destruct (Ascii.eqb c quotechar); discriminate.
Qed.

Lemma record_text_empty (f : string) (fields : list string) :
  record_text (f :: fields) = "" -> f = "" /\ fields = [].
Proof.
  unfold record_text. simpl. destruct fields as [|g fields]; simpl.
  - intros H. split; [|reflexivity].
    destruct (string_dec f "") as [|Hne]; [assumption|].
    now destruct (join_append_nonempty f Hne).
  - destruct (join_append f); discriminate.
Qed.

(** Reading back what [writerow] wrote gives the texts of the fields,
    whatever follows the record. *)
Lemma reader_writerow (row : list pyval) (r : string) :
  parse StartRecord "" [] (writerow_text row ++ r)
  = map field_text row :: parse StartRecord "" [] r.
Proof.
  unfold writerow_text. destruct row as [|v row]; [reflexivity|].
  rewrite <- (map_map field_text join_append).
  fold (record_text (map field_text (v :: row))).
  simpl map. set (f := field_text v). set (fields := map field_text row).
  destruct (String.eqb_spec (record_text (f :: fields)) "") as [E|Hne].
  - destruct (record_text_empty _ _ E) as [-> ->]. reflexivity.
  - rewrite sapp_assoc.
    destruct (string_dec f "") as [Ef|Hf].
    + rewrite Ef in *. destruct fields as [|g fields]; [now destruct Hne|].
      transitivity (parse StartField "" []
                      (record_text ("" :: g :: fields) ++ lineterminator ++ r));
        [reflexivity | apply parse_record].
    + transitivity (parse StartField "" []
                      (record_text (f :: fields) ++ lineterminator ++ r));
        [|apply (parse_record f fields [] r)].
      clearbody fields. destruct fields as [|g fields].
      * apply parse_first_field, Hf.
      * rewrite record_text_cons, !sapp_assoc. apply parse_first_field, Hf.
Qed.

Lemma reader_ledger_text (rows : list (list pyval)) :
  reader (ledger_text rows) = map (map field_text) rows.
Proof.
  unfold reader. induction rows as [|row rows IH]; simpl; [reflexivity|].
  now rewrite reader_writerow, IH.
Qed.

Lemma ledger_text_one (row : list pyval) : ledger_text [row] = writerow_text row.
Proof. apply sapp_nil_r. Qed.

Lemma ledger_text_app (rows rows' : list (list pyval)) :
  ledger_text (rows ++ rows') = ledger_text rows ++ ledger_text rows'.
Proof.
  induction rows as [|row rows IH]; simpl; [reflexivity|].
  now rewrite IH, sapp_assoc.
Qed.

End CsvFacts.

(** ** Paths *)

Section PathFacts.

Import PosixPath OS.

Lemma isabs_app (a b : string) : a <> "" -> isabs (a ++ b) = isabs a.
Proof.
  destruct a as [|x a]; [congruence|]. intros _.
  unfold isabs. change (String x a ++ b) with (String x (a ++ b)).
  now rewrite !startswith_char.
Qed.

Lemma entry_name_spec (b : string) :
  entry_name b = true ->
  Str.contains b sep = false /\ proper_name b = true /\ b <> ""
  /\ Str.startswith b "/" = false.
Proof.
  unfold entry_name. rewrite andb_true_iff, negb_true_iff. intros [Hc Hp].
  split; [assumption|]. split; [assumption|].
  destruct b as [|x b]; [discriminate|]. split; [discriminate|].
  rewrite startswith_char. cbn [Str.contains] in Hc.
  apply orb_false_iff in Hc as [Hx _]. now rewrite Ascii.eqb_sym.
Qed.

Lemma norm_step_name (i : bool) (acc : list string) (b : string) :
  proper_name b = true -> norm_step i acc b = b :: acc.
Proof.
  unfold proper_name, norm_step, curdir, pardir.
  rewrite negb_true_iff, !orb_false_iff. intros [[-> ->] ->]. reflexivity.
Qed.

Lemma fold_norm_step_empty (i : bool) (k : nat) (acc : list string) :
  fold_left (norm_step i) (repeat "" k) acc = acc.
Proof. induction k as [|k IH]; simpl; [reflexivity | exact IH]. Qed.

Lemma norm_comps_app_name (a b : string) :
  a <> "" -> entry_name b = true ->
  norm_comps (a ++ String sep b) = b :: norm_comps a.
Proof.
  intros Ha Hb. apply entry_name_spec in Hb as (Hc & Hp & _ & _).
  unfold norm_comps. rewrite (isabs_app _ _ Ha), split_app_sep, fold_left_app.
  rewrite (split_nosep _ _ Hc). simpl. now apply norm_step_name.
Qed.

Lemma norm_comps_app_sep (a : string) :
  a <> "" -> norm_comps (a ++ String sep "") = norm_comps a.
Proof.
  intros Ha. unfold norm_comps.
  rewrite (isabs_app _ _ Ha), split_app_sep, fold_left_app. reflexivity.
Qed.

(** [join] of a path and an entry name: the path, a separator unless
    there is one, the name. *)
Lemma join_name (a b : string) :
  a <> "" -> entry_name b = true ->
  exists r, join a b = r ++ String sep b /\
            (a = r /\ Str.endswith a sep = false \/ a = r ++ String sep "").
Proof.
  intros Ha Hb. apply entry_name_spec in Hb as (_ & _ & _ & Hs).
  unfold join. rewrite Hs. apply String.eqb_neq in Ha. rewrite Ha. simpl.
  destruct (Str.endswith a sep) eqn:He.
  - apply endswith_app in He as [r ->]. exists r.
    split; [now rewrite sapp_assoc | now right].
  - exists a. split; [reflexivity | now left].
Qed.

(** The key of an entry of a directory. *)
Lemma resolve_join (a b : string) :
  a <> "" -> entry_name b = true ->
  resolve (join a b) = (fst (resolve a), b :: snd (resolve a)).
Proof.
  intros Ha Hb. destruct (join_name a b Ha Hb) as (r & -> & [[-> _]| ->]).
  - unfold resolve. simpl. now rewrite (isabs_app _ _ Ha), (norm_comps_app_name _ _ Ha Hb).
  - unfold resolve. simpl. destruct (string_dec r "") as [->|Hr].
    + simpl. apply entry_name_spec in Hb as (Hc & Hp & _ & _).
      unfold norm_comps. simpl. rewrite (split_nosep _ _ Hc). simpl.
      unfold isabs. rewrite !startswith_char.
      now rewrite (norm_step_name _ _ _ Hp).
    + rewrite (isabs_app r _ Hr), (isabs_app r _ Hr).
      now rewrite (norm_comps_app_name _ _ Hr Hb), (norm_comps_app_sep _ Hr).
Qed.

Lemma basename_join (a b : string) :
  a <> "" -> entry_name b = true -> basename (join a b) = b.
Proof.
  intros Ha Hb. destruct (join_name a b Ha Hb) as (r & -> & _).
  apply entry_name_spec in Hb as (Hc & _). unfold basename.
  now rewrite (rpartition_app_sep _ _ _ Hc).
Qed.

Lemma join_nonempty (a b : string) : a <> "" -> join a b <> "".
Proof.
  intros Ha. unfold join. destruct (Str.startswith b "/") eqn:Hb.
  - destruct b; [discriminate | discriminate].
  - destruct (_ || _); destruct a; try congruence; discriminate.
Qed.

(** Stripping trailing separators does not change what a path names. *)
Lemma resolve_rstrip (a : string) :
  Str.rstrip sep a <> "" -> resolve (Str.rstrip sep a) = resolve a.
Proof.
  intros Hr. destruct (Str.rstrip sep a) as [|x r] eqn:E; [congruence|].
  destruct (rstrip_first _ _ _ _ E) as [a' ->].
  destruct (rstrip_split sep (String x a')) as [k Hk]. rewrite E in Hk.
  assert (Habs : isabs (String x r) = isabs (String x a'))
    by (unfold isabs; now rewrite !startswith_char).
  unfold resolve, norm_comps. rewrite Habs. f_equal.
  rewrite Hk, fold_left_app, fold_norm_step_empty. reflexivity.
Qed.

(** The head and the tail of the path of an entry: a path that names
    the directory, and the name. *)
Lemma split_join (a b : string) :
  a <> "" -> entry_name b = true ->
  exists h, split (join a b) = (h, b) /\ h <> "" /\ resolve h = resolve a.
Proof.
  intros Ha Hb. destruct (join_name a b Ha Hb) as (r & -> & Hr).
  pose proof (entry_name_spec _ Hb) as (Hc & _).
  unfold split. rewrite (rpartition_app_sep _ _ _ Hc), rstrip_app_sep.
  assert (Hra : Str.rstrip sep r = Str.rstrip sep a).
  { destruct Hr as [[-> _]| ->]; [reflexivity | now rewrite rstrip_app_sep]. }
  rewrite Hra. destruct (Str.rstrip sep a) as [|x t] eqn:E.
  - exists (r ++ String sep ""). split; [reflexivity|].
    split; [destruct r; discriminate|].
    destruct Hr as [[-> He]| ->]; [|reflexivity].
    now rewrite (rstrip_empty_endswith _ _ Ha E) in He.
  - exists (String x t). split; [reflexivity|]. split; [discriminate|].
    rewrite <- E. apply resolve_rstrip. rewrite E. discriminate.
Qed.

(** A path of an entry is left alone by [rstrip]. *)
Lemma rstrip_join (a b : string) :
  a <> "" -> entry_name b = true -> Str.rstrip sep (join a b) = join a b.
Proof.
  intros Ha Hb. destruct (join_name a b Ha Hb) as (r & -> & _).
  apply entry_name_spec in Hb as (Hc & _ & Hne & _).
  change (r ++ String sep b) with (r ++ String sep "" ++ b).
  rewrite <- sapp_assoc. now apply rstrip_app_nosep.
Qed.

(** The base name of any path has no separator. *)
Lemma basename_nosep (p : string) : Str.contains (basename p) sep = false.
Proof. apply rpartition_snd_nosep. Qed.

End PathFacts.

(** ** The file system operations *)

Section OSFacts.

Import OS.

Lemma node_at_lookup (w : world) (k : key) (n : node) :
  snd k <> [] -> node_at w k = w !! k.
Proof. unfold node_at. destruct (snd k); [congruence | reflexivity]. Qed.

Lemma node_at_None (w : world) (k : key) :
  node_at w k = None -> snd k <> [] /\ w !! k = None.
Proof. unfold node_at. destruct (snd k); [discriminate | split; [discriminate | assumption]]. Qed.

Lemma node_at_File (w : world) (k : key) (data : string) :
  node_at w k = Some (File data) -> snd k <> [] /\ w !! k = Some (File data).
Proof. unfold node_at. destruct (snd k); [discriminate | split; [discriminate | assumption]]. Qed.

(** What [stat] tells about the map. *)
Lemma stat_File (p : string) (w : world) (data : string) :
  stat p w = Return (File data) <->
  p <> "" /\ node_at w (resolve p) = Some (File data)
  /\ proper_name (PosixPath.basename p) = true.
Proof.
  unfold stat. destruct (String.eqb_spec p "") as [->|Hp].
  - split; [discriminate | intros [H _]; congruence].
  - destruct (node_at w (resolve p)) as [[d|]|];
      try (split; [discriminate | intros (_ & H & _); discriminate]).
    destruct (proper_name (PosixPath.basename p)).
    + split; [intros [= ->]; auto | intros (_ & [= ->] & _); reflexivity].
    + split; [discriminate | intros (_ & _ & H); discriminate].
Qed.

Lemma stat_Dir (p : string) (w : world) :
  stat p w = Return Dir <-> p <> "" /\ node_at w (resolve p) = Some Dir.
Proof.
  unfold stat. destruct (String.eqb_spec p "") as [->|Hp].
  - split; [discriminate | intros [H _]; congruence].
  - destruct (node_at w (resolve p)) as [[d|]|].
    + destruct (proper_name _); split; try discriminate; intros [_ H]; discriminate.
    + split; auto.
    + split; [discriminate | intros [_ H]; discriminate].
Qed.

Lemma stat_Raise_name (p : string) (w : world) (e : exn) :
  stat p w = Raise e -> p <> "" -> proper_name (PosixPath.basename p) = true ->
  node_at w (resolve p) = None.
Proof.
  unfold stat. intros H Hp Hb. apply String.eqb_neq in Hp. rewrite Hp, Hb in H.
  destruct (node_at w (resolve p)) as [[d|]|]; (discriminate || reflexivity).
Qed.

Lemma stat_not_Dir (p : string) (w : world) :
  p <> "" -> stat p w <> Return Dir -> node_at w (resolve p) <> Some Dir.
Proof. intros Hp H Hn. apply H, stat_Dir. auto. Qed.

Lemma only_new_dirs_refl (w : world) : only_new_dirs w w.
Proof. intros k. now left. Qed.

Lemma only_new_dirs_trans (w1 w2 w3 : world) :
  only_new_dirs w1 w2 -> only_new_dirs w2 w3 -> only_new_dirs w1 w3.
Proof.
  intros H12 H23 k. destruct (H12 k) as [E|[E1 E2]], (H23 k) as [F|[F1 F2]].
  - left. congruence.
  - right. split; congruence.
  - right. split; congruence.
  - congruence.
Qed.

Lemma only_new_dirs_same_files (w w' : world) :
  only_new_dirs w w' -> same_files w w'.
Proof.
  intros H k data. destruct (H k) as [->|[E1 E2]]; [reflexivity|].
  rewrite E1, E2. split; discriminate.
Qed.

Lemma only_new_dirs_insert (w : world) (k : key) :
  w !! k = None -> only_new_dirs w (<[k := Dir]> w).
Proof.
  intros Hk j. destruct (decide (k = j)) as [<-|Hne].
  - right. split; [assumption | apply lookup_insert_eq].
  - left. now apply lookup_insert_ne.
Qed.

(** [mkdir] and [makedirs] add directories and touch nothing else,
    whether they return or raise. *)
Lemma mkdir_only_new_dirs (p : string) (w w' : world) (r : result unit) :
  mkdir p w = (w', r) -> only_new_dirs w w'.
Proof.
  unfold mkdir, create. destruct (String.eqb p "").
  { intros [= <- _]. apply only_new_dirs_refl. }
  destruct (node_at w (resolve p)) as [n|] eqn:Hn.
  { intros [= <- _]. apply only_new_dirs_refl. }
  apply node_at_None in Hn as [_ Hl].
  destruct (proper_name _); [|intros [= <- _]; apply only_new_dirs_refl].
  destruct (node_at w (parent (resolve p))) as [[d|]|]; intros [= <- _];
    (apply only_new_dirs_refl || now apply only_new_dirs_insert).
Qed.

Lemma makedirs_rec_only_new_dirs (depth : nat) (name : string) (w w' : world)
    (r : result unit) :
  makedirs_rec depth name w = (w', r) -> only_new_dirs w w'.
Proof.
  revert name w w' r. induction depth as [|depth IH]; intros name w w' r.
  { intros [= <- _]. apply only_new_dirs_refl. }
  cbn [makedirs_rec]. destruct (PosixPath.split name) as [head tail].
  destruct (if String.eqb tail "" then PosixPath.split head else (head, tail))
    as [head' tail'].
  unfold bind at 1.
  destruct (negb (String.eqb head' "") && negb (String.eqb tail' "")).
  - unfold bind at 1, path_exists, observe.
    destruct (stat head' w) as [n|e]; cbn [negb].
    + unfold ret. apply mkdir_only_new_dirs.
    + unfold bind at 1, try_except.
      destruct (makedirs_rec depth head' w) as [w1 r1] eqn:Hrec.
      apply IH in Hrec.
      assert (Hw1 : forall w2 r2,
                 (if String.eqb tail' PosixPath.curdir then ret tt else mkdir name) w1
                 = (w2, r2) -> only_new_dirs w w2).
      { intros w2 r2 H. apply (only_new_dirs_trans _ _ _ Hrec).
        destruct (String.eqb tail' PosixPath.curdir);
          [injection H as <- _; apply only_new_dirs_refl
          | now apply mkdir_only_new_dirs in H]. }
      destruct r1 as [[]|e1].
      * unfold ret at 1. apply Hw1.
      * destruct (is_FileExistsError e1).
        -- unfold ret at 1. apply Hw1.
        -- now intros [= <- _].
  - unfold ret. apply mkdir_only_new_dirs.
Qed.

(** The head of a path is shorter than the path unless the tail is
    empty, so the depth [makedirs] starts with is never used up. *)
Lemma split_length (p h t : string) :
  PosixPath.split p = (h, t) -> String.length h + String.length t <= String.length p.
Proof.
  unfold PosixPath.split. pose proof (rpartition_app PosixPath.sep p) as Hp.
  destruct (Str.rpartition PosixPath.sep p) as [h0 t0]. cbn [fst snd] in Hp.
  pose proof (rstrip_length PosixPath.sep h0) as Hr. intros [= <- <-].
  rewrite <- Hp, slength_app. destruct (Str.rstrip PosixPath.sep h0); simpl in *; lia.
Qed.

Lemma mkdir_no_RecursionError (p : string) (w w' : world) :
  mkdir p w <> (w', Raise RecursionError).
Proof. unfold mkdir, create. repeat case_match; discriminate. Qed.

Lemma makedirs_rec_no_RecursionError (depth : nat) (name : string) (w w' : world) :
  String.length name < depth ->
  makedirs_rec depth name w <> (w', Raise RecursionError).
Proof.
  revert name w w'. induction depth as [|depth IH]; intros name w w' Hlen; [lia|].
  cbn [makedirs_rec]. destruct (PosixPath.split name) as [head tail] eqn:Hsplit.
  apply split_length in Hsplit.
  destruct (if String.eqb tail "" then PosixPath.split head else (head, tail))
    as [head' tail'] eqn:Hsplit'.
  assert (Hlen' : String.length head' + String.length tail' <= String.length name).
  { destruct (String.eqb tail ""); [apply split_length in Hsplit'; lia|].
    injection Hsplit' as <- <-. lia. }
  unfold bind at 1.
  destruct (negb (String.eqb head' "") && negb (String.eqb tail' "")) eqn:Hcond.
  - apply andb_true_iff in Hcond as [_ Ht]. apply negb_true_iff, String.eqb_neq in Ht.
    assert (Hshort : String.length head' < depth)
      by (destruct tail'; simpl in *; [congruence | lia]).
    unfold bind at 1, path_exists, observe.
    destruct (stat head' w) as [n|e]; cbn [negb].
    + unfold ret. apply mkdir_no_RecursionError.
    + unfold bind at 1, try_except.
      destruct (makedirs_rec depth head' w) as [w1 [[]|e1]] eqn:Hrec.
      * unfold ret at 1. destruct (String.eqb tail' PosixPath.curdir);
          [discriminate | apply mkdir_no_RecursionError].
      * destruct (is_FileExistsError e1) eqn:He1.
        -- unfold ret at 1. destruct (String.eqb tail' PosixPath.curdir);
             [discriminate | apply mkdir_no_RecursionError].
        -- intros [= <- ->]. now apply (IH _ _ _ Hshort Hrec).
  - unfold ret. apply mkdir_no_RecursionError.
Qed.

Lemma makedirs_no_RecursionError (name : string) (w w' : world) :
  makedirs name w <> (w', Raise RecursionError).
Proof. apply makedirs_rec_no_RecursionError. lia. Qed.

(** [makedirs] for an entry of a directory that is there: one [mkdir]. *)
Lemma makedirs_entry (root cat : string) (w : world) :
  stat root w = Return Dir -> entry_name cat = true ->
  node_at w (resolve (PosixPath.join root cat)) = None ->
  makedirs (PosixPath.join root cat) w
  = (<[resolve (PosixPath.join root cat) := Dir]> w, Return tt).
Proof.
  intros Hroot Hcat Hnone. apply stat_Dir in Hroot as [Hr Hn].
  destruct (split_join root cat Hr Hcat) as (h & Hsplit & Hh & Hres).
  pose proof (entry_name_spec _ Hcat) as (_ & Hp & Hne & _).
  unfold makedirs. cbn [makedirs_rec]. rewrite Hsplit.
  assert (Hstat : stat h w = Return Dir).
  { apply stat_Dir. split; [assumption | now rewrite Hres]. }
  apply String.eqb_neq in Hne, Hh. rewrite Hne. cbv beta iota.
  rewrite Hne, Hh. cbn [negb andb].
  unfold bind at 1. unfold bind at 1.
  unfold path_exists, observe. rewrite Hstat. cbn [negb]. unfold ret.
  unfold mkdir, create.
  pose proof (join_nonempty root cat Hr) as Hj. apply String.eqb_neq in Hj.
  rewrite Hj, Hnone, (rstrip_join _ _ Hr Hcat), (basename_join _ _ Hr Hcat), Hp.
  rewrite (resolve_join _ _ Hr Hcat). unfold parent. cbn [fst snd tl].
  rewrite <- surjective_pairing, Hn. reflexivity.
Qed.

End OSFacts.

(** ** Moving a regular file *)

Section ShutilFacts.

Import OS Shutil.

(** A [rename] that raises has changed nothing. *)
Lemma rename_unchanged (src dst : string) (w w' : world) (e : exn) :
  rename src dst w = (w', Raise e) -> w' = w.
Proof.
  unfold rename, create. intros H.
  repeat case_match; simplify_eq; reflexivity.
Qed.

(** Renaming a regular file onto a path that is free, or taken by a
    regular file, inside a directory that is there. *)
Lemma rename_file (src dst : string) (w : world) (data : string) :
  stat src w = Return (File data) -> dst <> "" ->
  proper_name (PosixPath.basename dst) = true ->
  node_at w (parent (resolve dst)) = Some Dir ->
  node_at w (resolve dst) <> Some Dir ->
  rename src dst w
  = (<[resolve dst := File data]> (delete (resolve src) w), Return tt).
Proof.
  intros Hs Hd Hb Hpar Hnd. unfold rename, create. rewrite Hs.
  apply String.eqb_neq in Hd. rewrite Hd, Hb, Hpar.
  destruct (node_at w (resolve dst)) as [[d|]|] eqn:Hn; [reflexivity|congruence|].
  apply stat_File in Hs as (_ & Hsrc & _). apply node_at_File in Hsrc as [_ Hsrc].
  apply node_at_None in Hn as [_ Hn].
  rewrite delete_insert_ne by congruence. reflexivity.
Qed.

(** Where [rename] raises for a regular file, [open] for writing
    raises as well. *)
Lemma rename_Raise_opening (src dst : string) (w w1 : world) (data : string) (e : exn) :
  stat src w = Return (File data) -> rename src dst w = (w1, Raise e) ->
  exists e', opening dst w = Raise e'.
Proof.
  intros Hs. unfold rename, create, opening. rewrite Hs.
  destruct (String.eqb dst ""); [eauto|].
  repeat case_match; intros; simplify_eq; eauto.
Qed.

(** A [copyfile] whose destination cannot be opened raises and has
    written nothing. *)
Lemma write_file_Raise (src dst data : string) (w : world) (e : exn) :
  opening dst w = Raise e ->
  exists e',
    try_except (write_file dst data) is_IsADirectoryError
               (fun e =>
                  ex <- path_exists dst ;;
                  if negb ex then raise (DirectoryMissing dst) else raise e) w
    = (w, Raise e').
Proof.
  intros Ho. unfold try_except, write_file. rewrite Ho.
  destruct (is_IsADirectoryError e); [|eauto].
  unfold bind, path_exists, observe, raise. destruct (negb _); eauto.
Qed.

(** When [rename] raises for a regular file on the file system that
    refuses no call, the copy that [shutil.move] falls back on raises
    as well, before it has written anything. *)
Lemma copy2_after_rename (src dst : string) (w w1 : world) (data : string) (e : exn) :
  stat src w = Return (File data) -> stat dst w <> Return Dir ->
  rename src dst w = (w1, Raise e) ->
  exists e', (copy2 src dst ;;; unlink src) w = (w, Raise e').
Proof.
  intros Hs Hnd Hren.
  assert (Hisd : path_isdir dst w = (w, Return false)).
  { unfold path_isdir, observe. destruct (stat dst w) as [[d|]|]; congruence. }
  unfold bind at 1, copy2. unfold bind at 1. rewrite Hisd.
  unfold copyfile. unfold bind at 1, samefile, observe.
  destruct (match stat src w with Return _ => _ | Raise _ => _ end);
    [eexists; reflexivity|].
  unfold bind at 1, read_file, lift. rewrite Hs.
  destruct (rename_Raise_opening _ _ _ _ _ _ Hs Hren) as [e1 Ho].
  destruct (write_file_Raise src dst data w e1 Ho) as [e' ->]. eauto.
Qed.

(** [shutil.move] of a regular file either moves it or changes nothing. *)
Lemma move_file_unchanged (src dst : string) (w w' : world) (data : string) (e : exn) :
  stat src w = Return (File data) ->
  move src dst w = (w', Raise e) -> w' = w.
Proof.
  intros Hs. unfold move. unfold bind at 1, path_isdir, observe.
  assert (Hfall : forall d w2 e2,
             stat d w <> Return Dir ->
             (try_except (rename src d) is_OSError
                         (fun _ => copy2 src d ;;; unlink src) ;;; ret d) w
             = (w2, Raise e2) -> w2 = w).
  { intros d w2 e2 Hd. unfold bind at 1, try_except.
    destruct (rename src d w) as [w1 [[]|e1]] eqn:Hren; [discriminate|].
    pose proof (rename_unchanged _ _ _ _ _ Hren) as ->.
    destruct (is_OSError e1); [|now intros [= <- _]].
    destruct (copy2_after_rename _ _ _ _ _ _ Hs Hd Hren) as [e' ->].
    now intros [= <- _]. }
  destruct (stat dst w) as [[d|]|e0] eqn:Hd;
    try (apply Hfall; rewrite Hd; discriminate).
  unfold bind at 1, samefile, observe. rewrite Hs, Hd.
  destruct (bool_decide (resolve src = resolve dst)) eqn:Hsame.
  - apply bool_decide_eq_true in Hsame.
    apply stat_File in Hs as (_ & Hn & _). apply stat_Dir in Hd as (_ & Hn').
    congruence.
  - unfold bind at 1, path_exists, observe.
    destruct (stat (PosixPath.join dst (_basename src)) w) as [n|e1] eqn:Hreal.
    + now intros [= <- _].
    + apply Hfall. rewrite Hreal. discriminate.
Qed.

(** [shutil.move] of a regular file to a path that is not a directory. *)
Lemma move_file (src dst : string) (w : world) (data : string) :
  stat src w = Return (File data) -> dst <> "" ->
  proper_name (PosixPath.basename dst) = true ->
  node_at w (parent (resolve dst)) = Some Dir ->
  node_at w (resolve dst) <> Some Dir ->
  move src dst w
  = (<[resolve dst := File data]> (delete (resolve src) w), Return dst).
Proof.
  intros Hs Hd Hb Hpar Hnd. unfold move. unfold bind at 1, path_isdir, observe.
  assert (Hisd : match stat dst w with Return Dir => true | _ => false end = false).
  { destruct (stat dst w) as [[d|]|] eqn:E; try reflexivity.
    apply stat_Dir in E as [_ E]. congruence. }
  rewrite Hisd. unfold bind at 1, try_except.
  now rewrite (rename_file _ _ _ _ Hs Hd Hb Hpar Hnd).
Qed.

End ShutilFacts.

(** ** Relocating a file *)

Section RelocateFacts.

Import OS Shutil.

Lemma cons_neq {A} (x : A) (l : list A) : x :: l <> l.
Proof. intros H. apply (f_equal length) in H. simpl in H. lia. Qed.

Lemma node_at_insert_ne (w : world) (k k' : key) (n : node) :
  k <> k' -> node_at (<[k := n]> w) k' = node_at w k'.
Proof.
  intros H. unfold node_at. destruct (snd k'); [reflexivity | now apply lookup_insert_ne].
Qed.

Lemma node_at_insert_eq (w : world) (k : key) (n : node) :
  snd k <> [] -> node_at (<[k := n]> w) k = Some n.
Proof.
  intros H. rewrite node_at_lookup by (assumption || exact n). apply lookup_insert_eq.
Qed.

Lemma node_at_delete_ne (w : world) (k k' : key) :
  k <> k' -> node_at (delete k w) k' = node_at w k'.
Proof.
  intros H. unfold node_at. destruct (snd k'); [reflexivity | now apply lookup_delete_ne].
Qed.

(** [stat] only looks at the node of the path. *)
Lemma stat_node_at (p : string) (w w' : world) :
  node_at w' (resolve p) = node_at w (resolve p) -> stat p w' = stat p w.
Proof. unfold stat. now intros ->. Qed.

(** The paths [sposta_file] computes, and their keys. *)
Lemma sposta_file_paths (file_path folder_path categoria : string) (w : world)
    (data : string) :
  stat file_path w = Return (File data) -> folder_path <> "" ->
  entry_name categoria = true ->
  let dir := PosixPath.join folder_path categoria in
  let dst := PosixPath.join dir (PosixPath.basename file_path) in
  dir <> "" /\ dst <> "" /\
  entry_name (PosixPath.basename file_path) = true /\
  PosixPath.basename dir = categoria /\
  PosixPath.basename dst = PosixPath.basename file_path /\
  resolve dir = (fst (resolve folder_path), categoria :: snd (resolve folder_path)) /\
  resolve dst = (fst (resolve folder_path),
                 PosixPath.basename file_path :: categoria :: snd (resolve folder_path)).
Proof.
  intros Hs Hr Hcat dir dst. apply stat_File in Hs as (_ & _ & Hb).
  assert (Hname : entry_name (PosixPath.basename file_path) = true).
  { unfold entry_name. now rewrite basename_nosep, Hb. }
  pose proof (join_nonempty folder_path categoria Hr) as Hdir.
  split; [assumption|]. split; [now apply join_nonempty|]. split; [assumption|].
  split; [now apply basename_join|]. split; [now apply basename_join|].
  split; [now apply resolve_join|].
  subst dir dst. rewrite (resolve_join _ _ Hdir Hname).
  now rewrite (resolve_join _ _ Hr Hcat).
Qed.

(** [sposta_file] on a regular file, into a category directory that
    is there or can be made, onto a path that is not a directory. *)
Lemma sposta_file_moves (file_path folder_path categoria : string) (w : world)
    (data : string) :
  stat file_path w = Return (File data) ->
  stat folder_path w = Return Dir ->
  entry_name categoria = true ->
  let dir := PosixPath.join folder_path categoria in
  let dst := PosixPath.join dir (PosixPath.basename file_path) in
  node_at w (resolve dir) = None \/ node_at w (resolve dir) = Some Dir ->
  node_at w (resolve dst) <> Some Dir ->
  sposta_file file_path folder_path categoria w
  = (moved file_path dir dst data w, Return dst).
Proof.
  intros Hs Hroot Hcat dir dst Hdir Hdst.
  pose proof Hroot as Hroot'. apply stat_Dir in Hroot' as [Hr Hnr].
  destruct (sposta_file_paths _ _ _ _ _ Hs Hr Hcat)
    as (Hdne & Hdstne & Hname & Hbdir & Hbdst & Hkdir & Hkdst).
  fold dir dst in Hdne, Hdstne, Hbdir, Hbdst, Hkdir, Hkdst.
  pose proof (entry_name_spec _ Hcat) as (_ & Hpc & _).
  pose proof (entry_name_spec _ Hname) as (_ & Hpb & _).
  pose proof Hs as Hs'. apply stat_File in Hs' as (_ & Hnsrc & _).
  apply node_at_File in Hnsrc as [Hsrc1 Hsrc2].
  assert (Hkd : snd (resolve dir) <> []) by (rewrite Hkdir; discriminate).
  assert (Hne1 : resolve dst <> resolve dir).
  { rewrite Hkdst, Hkdir. intros E. apply (f_equal snd) in E.
    now apply cons_neq in E. }
  set (w1 := <[resolve dir := Dir]> w).
  assert (Hmk : exists ex,
             path_exists dir w = (w, Return ex) /\
             (if negb ex then makedirs dir else ret tt) w = (w1, Return tt)).
  { unfold path_exists, observe. destruct Hdir as [Hnone|Hdir].
    - assert (Hst : exists e, stat dir w = Raise e).
      { unfold stat. apply String.eqb_neq in Hdne. rewrite Hdne, Hnone. eauto. }
      destruct Hst as [e ->]. exists false. split; [reflexivity|].
      now apply makedirs_entry.
    - assert (Hst : stat dir w = Return Dir) by now apply stat_Dir.
      rewrite Hst. exists true. split; [reflexivity|]. unfold ret, w1. cbn [negb].
      rewrite insert_id; [reflexivity|].
      now rewrite <- (node_at_lookup w _ Dir Hkd). }
  destruct Hmk as (ex & Hex & Hmk).
  assert (Hsrc_ne : resolve file_path <> resolve dir).
  { intros E. rewrite <- E, (node_at_lookup w _ Dir Hsrc1), Hsrc2 in Hdir.
    destruct Hdir; discriminate. }
  assert (Hs1 : stat file_path w1 = Return (File data)).
  { rewrite <- Hs. apply stat_node_at. apply node_at_insert_ne. congruence. }
  unfold sposta_file. fold dir dst.
  unfold bind at 1. rewrite Hex. unfold bind at 1. rewrite Hmk.
  unfold bind at 1.
  rewrite (move_file file_path dst w1 data Hs1 Hdstne).
  - reflexivity.
  - now rewrite Hbdst.
  - replace (parent (resolve dst)) with (resolve dir)
      by (rewrite Hkdst, Hkdir; reflexivity).
    now apply node_at_insert_eq.
  - unfold w1. rewrite node_at_insert_ne by congruence. assumption.
Qed.

(** What the file system holds after the move. *)
Lemma moved_after (file_path folder_path categoria : string) (w : world)
    (data : string) :
  stat file_path w = Return (File data) ->
  stat folder_path w = Return Dir ->
  entry_name categoria = true ->
  let dir := PosixPath.join folder_path categoria in
  let dst := PosixPath.join dir (PosixPath.basename file_path) in
  node_at w (resolve dir) = None \/ node_at w (resolve dir) = Some Dir ->
  let w' := moved file_path dir dst data w in
  stat dst w' = Return (File data) /\
  stat dir w' = Return Dir /\
  (resolve file_path <> resolve dst ->
   stat file_path w' = Raise (FileNotFoundError file_path)) /\
  (forall k, k <> resolve dst -> k <> resolve file_path -> k <> resolve dir ->
             w' !! k = w !! k).
Proof.
  intros Hs Hroot Hcat dir dst Hdir w'.
  pose proof Hroot as Hroot'. apply stat_Dir in Hroot' as [Hr Hnr].
  destruct (sposta_file_paths _ _ _ _ _ Hs Hr Hcat)
    as (Hdne & Hdstne & Hname & Hbdir & Hbdst & Hkdir & Hkdst).
  fold dir dst in Hdne, Hdstne, Hbdir, Hbdst, Hkdir, Hkdst.
  pose proof (entry_name_spec _ Hname) as (_ & Hpb & _).
  pose proof Hs as Hs'. apply stat_File in Hs' as (Hfne & Hnsrc & _).
  apply node_at_File in Hnsrc as [Hsrc1 Hsrc2].
  assert (Hkd : snd (resolve dir) <> []) by (rewrite Hkdir; discriminate).
  assert (Hkdst' : snd (resolve dst) <> []) by (rewrite Hkdst; discriminate).
  assert (Hne1 : resolve dst <> resolve dir).
  { rewrite Hkdst, Hkdir. intros E. apply (f_equal snd) in E.
    now apply cons_neq in E. }
  assert (Hsrc_ne : resolve file_path <> resolve dir).
  { intros E. rewrite <- E, (node_at_lookup w _ Dir Hsrc1), Hsrc2 in Hdir.
    destruct Hdir; discriminate. }
  unfold w', moved. split; [|split; [|split]].
  - apply stat_File. split; [assumption|]. split; [|now rewrite Hbdst].
    now apply node_at_insert_eq.
  - apply stat_Dir. split; [assumption|].
    rewrite node_at_insert_ne, node_at_delete_ne by congruence.
    now apply node_at_insert_eq.
  - intros Hne. unfold stat. apply String.eqb_neq in Hfne. rewrite Hfne.
    rewrite node_at_insert_ne by congruence.
    rewrite (node_at_lookup _ _ Dir Hsrc1), lookup_delete_eq. reflexivity.
  - intros k H1 H2 H3.
    rewrite lookup_insert_ne, lookup_delete_ne, lookup_insert_ne by congruence.
    reflexivity.
Qed.

End RelocateFacts.

(** ** The ledger *)

Section LedgerFacts.

Import OS Csv.

Lemma dict_to_list_header :
  dict_to_list intestazioni (list_to_map (zip intestazioni (map PyStr intestazioni)))
  = Return (map PyStr intestazioni).
Proof. vm_compute. reflexivity. Qed.

Lemma writeheader_text (f : key) (w : world) :
  writeheader f intestazioni w = write f header_text w.
Proof.
  unfold writeheader, writerow, bind, lift. now rewrite dict_to_list_header.
Qed.

(** The header row is plain ASCII. *)
Lemma header_text_encodable : Utf8.surrogates header_text = None.
Proof. vm_compute. reflexivity. Qed.

Lemma write_File (f : key) (text data : string) (w : world) :
  Utf8.surrogates text = None ->
  w !! f = Some (File data) ->
  write f text w = (<[f := File (data ++ text)]> w, Return tt).
Proof. unfold write. now intros -> ->. Qed.

(** A [write] that returns has encoded its text ... *)
Lemma write_Return (f : key) (text data : string) (w w' : world) :
  w !! f = Some (File data) -> write f text w = (w', Return tt) ->
  Utf8.surrogates text = None /\ w' = <[f := File (data ++ text)]> w.
Proof.
  unfold write. intros ->. destruct (Utf8.surrogates text) as [[a b]|]; [discriminate|].
  now intros [= <-].
Qed.

(** ... and one that raises has met a lone surrogate and written
    nothing. *)
Lemma write_Raise (f : key) (text : string) (w w' : world) (e : exn) :
  write f text w = (w', Raise e) ->
  w' = w /\ exists a b, Utf8.surrogates text = Some (a, b)
                        /\ e = UnicodeEncodeError text a b.
Proof.
  unfold write. destruct (Utf8.surrogates text) as [[a b]|].
  - intros [= <- <-]. eauto.
  - destruct (w !! f) as [[?|]|]; discriminate.
Qed.

Lemma opening_File (p : string) (w : world) (old : string) :
  stat p w = Return (File old) -> opening p w = Return (Some old).
Proof.
  intros Hs. apply stat_File in Hs as (Hp & Hn & Hb).
  unfold opening. apply String.eqb_neq in Hp. now rewrite Hp, Hn, Hb.
Qed.

Lemma open_append_File (p : string) (w : world) (old : string) :
  stat p w = Return (File old) -> open_append p w = (w, Return (resolve p)).
Proof. intros Hs. unfold open_append. now rewrite (opening_File _ _ _ Hs). Qed.

Lemma open_append_new (p : string) (w w1 : world) (e : exn) (f : key) :
  stat p w = Raise e -> open_append p w = (w1, Return f) ->
  f = resolve p /\ w1 = <[f := File ""]> w /\ stat p w1 = Return (File "").
Proof.
  intros Hs Ho. unfold open_append, opening in Ho. unfold stat in Hs.
  destruct (String.eqb_spec p "") as [->|Hp]; [discriminate|].
  cbv zeta in Ho.
  destruct (node_at w (resolve p)) as [[d|]|] eqn:Hn.
  - destruct (proper_name (PosixPath.basename p)); [discriminate Hs|].
    destruct (proper_name (PosixPath.basename (Str.rstrip PosixPath.sep p)));
      discriminate Ho.
  - discriminate Hs.
  - apply node_at_None in Hn as [Hk Hl].
    destruct (node_at w (parent (resolve p))) as [[?|]|];
      [discriminate Ho| |destruct (beyond_file _ _ _); discriminate Ho].
    destruct (proper_name (PosixPath.basename p)) eqn:Hb;
      [|destruct (proper_name (PosixPath.basename (Str.rstrip PosixPath.sep p)));
        discriminate Ho].
    injection Ho as <- <-. split; [reflexivity|]. split; [reflexivity|].
    apply stat_File. split; [assumption|]. split; [|assumption].
    rewrite node_at_lookup by (assumption || exact Dir).
    now rewrite lookup_insert_eq.
Qed.

(** [scrivi_log_csv], one library call after the other. *)
Lemma scrivi_log_csv_steps (file_info : gmap string pyval) (csv_path : string)
    (w : world) :
  scrivi_log_csv file_info csv_path w =
    match open_append csv_path w with
    | (w1, Return f) =>
        let w2 := match stat csv_path w with
                  | Return _ => w1
                  | Raise _ => fst (write f header_text w1)
                  end in
        match dict_to_list intestazioni file_info with
        | Return row => write f (writerow_text row) w2
        | Raise e => (w2, Raise e)
        end
    | (w1, Raise e) => (w1, Raise e)
    end.
Proof.
  unfold scrivi_log_csv, bind, path_exists, observe.
  destruct (open_append csv_path w) as [w1 [f|e]]; [|reflexivity].
  destruct (stat csv_path w) as [n|e]; cbn [negb].
  - unfold ret, writerow, bind, lift. reflexivity.
  - rewrite writeheader_text.
    destruct (write f header_text w1) as [w2 r] eqn:Hw.
    assert (r = Return tt) as ->.
    { unfold write in Hw. rewrite header_text_encodable in Hw.
      destruct (w1 !! f) as [[?|]|]; now inversion Hw. }
    cbn [fst]. unfold writerow, bind, lift. reflexivity.
Qed.

(** Appending to a ledger that is there: the record, and no header. *)
Lemma scrivi_log_csv_existing (file_info : gmap string pyval) (csv_path : string)
    (w : world) (old : string) :
  stat csv_path w = Return (File old) ->
  scrivi_log_csv file_info csv_path w =
    match dict_to_list intestazioni file_info with
    | Return row => write (resolve csv_path) (writerow_text row) w
    | Raise e => (w, Raise e)
    end.
Proof.
  intros Hs. rewrite scrivi_log_csv_steps, (open_append_File _ _ _ Hs), Hs.
  reflexivity.
Qed.

(** ... and when the call returns, the record is at the end of the
    ledger. *)
Lemma scrivi_log_csv_appended (file_info : gmap string pyval) (csv_path : string)
    (w w' : world) (old : string) :
  stat csv_path w = Return (File old) ->
  scrivi_log_csv file_info csv_path w = (w', Return tt) ->
  exists row,
    dict_to_list intestazioni file_info = Return row /\
    Utf8.surrogates (writerow_text row) = None /\
    w' = <[resolve csv_path := File (old ++ writerow_text row)]> w.
Proof.
  intros Hs. rewrite (scrivi_log_csv_existing _ _ _ _ Hs).
  apply stat_File in Hs as (Hp & Hn & Hb). apply node_at_File in Hn as [_ Hl].
  destruct (dict_to_list intestazioni file_info) as [row|e]; [|discriminate].
  intros Hw. destruct (write_Return _ _ _ _ _ Hl Hw) as [He ->]. eauto.
Qed.

(** The first append to a ledger that is not there creates it with
    the header and the record. *)
Lemma scrivi_log_csv_new (file_info : gmap string pyval) (csv_path : string)
    (w w' : world) (e : exn) :
  stat csv_path w = Raise e ->
  scrivi_log_csv file_info csv_path w = (w', Return tt) ->
  exists row,
    dict_to_list intestazioni file_info = Return row /\
    w' = <[resolve csv_path := File (header_text ++ writerow_text row)]> w /\
    stat csv_path w' = Return (File (header_text ++ writerow_text row)).
Proof.
  intros Hs. rewrite scrivi_log_csv_steps, Hs.
  destruct (open_append csv_path w) as [w1 [f|e1]] eqn:Ho; [|discriminate].
  destruct (open_append_new _ _ _ _ _ Hs Ho) as (-> & -> & Hs1).
  rewrite (write_File _ _ "" _ header_text_encodable) by apply lookup_insert_eq.
  cbv zeta. cbn [fst].
  destruct (dict_to_list intestazioni file_info) as [row|e']; [|discriminate].
  intros Hw.
  destruct (write_Return _ _ ("" ++ header_text) _ _ (lookup_insert_eq _ _ _) Hw)
    as [_ ->].
  rewrite !insert_insert_eq. exists row.
  split; [reflexivity|]. split; [reflexivity|].
  apply stat_File in Hs1 as (Hp & Hn & Hb). apply node_at_File in Hn as [Hk _].
  apply stat_File. split; [assumption|]. split; [|assumption].
  rewrite node_at_lookup by (assumption || exact Dir). apply lookup_insert_eq.
Qed.

Lemma stat_insert_File (p : string) (w : world) (data data' : string) :
  stat p w = Return (File data) ->
  stat p (<[resolve p := File data']> w) = Return (File data').
Proof.
  intros Hs. apply stat_File in Hs as (Hp & Hn & Hb). apply node_at_File in Hn as [Hk _].
  apply stat_File. split; [assumption|]. split; [|assumption].
  rewrite node_at_lookup by (assumption || exact Dir). apply lookup_insert_eq.
Qed.

(** Successful appends to a ledger that is there add their records
    to its text and nothing else, and leave the other files alone. *)
Lemma scrivi_log_csv_each_existing (file_infos : list (gmap string pyval))
    (csv_path : string) (w w' : world) (old : string) :
  stat csv_path w = Return (File old) ->
  scrivi_log_csv_each file_infos csv_path w = (w', Return tt) ->
  exists rows,
    rows_of file_infos rows /\
    stat csv_path w' = Return (File (old ++ ledger_text rows)) /\
    forall k, k <> resolve csv_path -> w' !! k = w !! k.
Proof.
  revert w old; induction file_infos as [|file_info file_infos IH]; intros w old Hs.
  - intros [= <-]. exists []. split; [constructor|].
    change (ledger_text []) with "". rewrite sapp_nil_r. auto.
  - cbn [scrivi_log_csv_each]. unfold bind at 1.
    destruct (scrivi_log_csv file_info csv_path w) as [w1 [[]|e]] eqn:H1; [|discriminate].
    destruct (scrivi_log_csv_appended _ _ _ _ _ Hs H1) as (row & Hrow & _ & ->).
    intros Hrest.
    destruct (IH _ _ (stat_insert_File _ _ _ (old ++ writerow_text row) Hs) Hrest)
      as (rows & Hrows & Hs' & Hframe).
    exists (row :: rows). split; [now constructor|]. split.
    + change (ledger_text (row :: rows))
        with (writerow_text row ++ ledger_text rows).
      now rewrite <- sapp_assoc.
    + intros k Hk. rewrite (Hframe k Hk). now apply lookup_insert_ne.
Qed.

Lemma header_text_eq :
  header_text = "Nome,Tipo,Size Byte,Percorso" ++ lineterminator.
Proof. reflexivity. Qed.

Lemma reader_header_ledger (rows : list (list pyval)) :
  CsvReader.reader (header_text ++ ledger_text rows)
  = intestazioni :: map (map field_text) rows.
Proof.
  change (header_text ++ ledger_text rows)
    with (ledger_text (map PyStr intestazioni :: rows)).
  now rewrite reader_ledger_text.
Qed.

(** The row of the dictionary that [main] builds. *)
Lemma dict_to_list_file_info (filename mime_type : string) (size : Z)
    (nuovo_percorso : string) :
  dict_to_list intestazioni (file_info filename mime_type size nuovo_percorso)
  = Return [PyStr filename; PyStr mime_type; PyInt size; PyStr nuovo_percorso].
Proof. vm_compute. reflexivity. Qed.

(** The decimal text of a size is not a column name. *)
Lemma str_int_not_header (z : Z) : str_int z <> "Size Byte".
Proof.
  unfold str_int. destruct (Z.to_int z) as [d|d]; destruct d; discriminate.
Qed.

(** The row of a dictionary that is written: the values under the
    four column names, in their order. *)
Lemma dict_to_list_values (file_info : gmap string pyval) (row : list pyval) :
  dict_to_list intestazioni file_info = Return row ->
  row = map (fun k => default (PyStr "") (file_info !! k)) intestazioni.
Proof. unfold dict_to_list. destruct (filter _ _); [now intros [= <-] | discriminate]. Qed.

Lemma rows_of_values (file_infos : list (gmap string pyval)) (rows : list (list pyval)) :
  rows_of file_infos rows ->
  rows = map (fun file_info =>
                map (fun k => default (PyStr "") (file_info !! k)) intestazioni)
             file_infos.
Proof.
  induction 1 as [|file_info row file_infos rows Hrow _ IH]; [reflexivity|].
  cbn [map]. now rewrite <- IH, <- (dict_to_list_values _ _ Hrow).
Qed.

(** Calls one after the other: the later ones start where the
    earlier ones ended. *)
Lemma scrivi_log_csv_each_app (done rest : list (gmap string pyval))
    (csv_path : string) (w w' : world) :
  scrivi_log_csv_each (done ++ rest) csv_path w = (w', Return tt) ->
  exists w1,
    scrivi_log_csv_each done csv_path w = (w1, Return tt) /\
    scrivi_log_csv_each rest csv_path w1 = (w', Return tt).
Proof.
  revert w. induction done as [|file_info done IH]; intros w; [eauto|].
  cbn [app scrivi_log_csv_each]. unfold bind at 1 2.
  destruct (scrivi_log_csv file_info csv_path w) as [w0 [[]|e]]; [apply IH | discriminate].
Qed.

(** The calls on a ledger that is not there before the first. *)
Lemma scrivi_log_csv_each_new (file_infos : list (gmap string pyval))
    (csv_path : string) (w w' : world) (e : exn) :
  file_infos <> [] ->
  stat csv_path w = Raise e ->
  scrivi_log_csv_each file_infos csv_path w = (w', Return tt) ->
  exists rows,
    rows_of file_infos rows /\
    stat csv_path w' = Return (File (header_text ++ ledger_text rows)).
Proof.
  destruct file_infos as [|file_info file_infos]; [congruence|]. intros _ Hs.
  cbn [scrivi_log_csv_each]. unfold bind at 1.
  destruct (scrivi_log_csv file_info csv_path w) as [w1 [[]|e1]] eqn:H1; [|discriminate].
  destruct (scrivi_log_csv_new _ _ _ _ _ Hs H1) as (row & Hrow & _ & Hs1).
  intros Hrest.
  destruct (scrivi_log_csv_each_existing _ _ _ _ _ Hs1 Hrest) as (rows & Hrows & Hs' & _).
  exists (row :: rows). split; [now constructor|].
  change (ledger_text (row :: rows)) with (writerow_text row ++ ledger_text rows).
  now rewrite <- sapp_assoc.
Qed.

End LedgerFacts.

(** ** The ledger: header once, columns, round trip *)

Section Ledger.

Import OS Csv.

(** C2: after N >= 1 successful calls of [scrivi_log_csv] on one
    ledger path that did not exist before the first, the ledger is
    the header row followed by the N record rows, the values of the
    N dictionaries under the four column names, in the order of the
    calls.  This holds after every number n of the calls, from 1 to
    N: the first call creates the file with the header and its
    record, and each later call finds the file and adds its record
    to the end and nothing else, so the header is not written again.
    Read back, the ledger has 1 + N rows, the first of which is the
    header, and none of the records that [main] logs is read as the
    header row. *)
Theorem ledger_header_once (file_infos : list (gmap string pyval))
    (csv_path : string) (w w' : world) (e : exn) :
  file_infos <> [] ->
  stat csv_path w = Raise e ->
  scrivi_log_csv_each file_infos csv_path w = (w', Return tt) ->
  let row file_info :=
    map (fun k => default (PyStr "") (file_info !! k))
        ["Nome"; "Tipo"; "Size Byte"; "Percorso"] in
  let header := "Nome,Tipo,Size Byte,Percorso" ++ lineterminator in
  let text n := header ++ ledger_text (map row (take n file_infos)) in
  (forall n, 1 <= n <= length file_infos ->
     exists wn,
       scrivi_log_csv_each (take n file_infos) csv_path w = (wn, Return tt) /\
       stat csv_path wn = Return (File (text n)) /\
       scrivi_log_csv_each (drop n file_infos) csv_path wn = (w', Return tt) /\
       forall file_info, file_infos !! n = Some file_info ->
         scrivi_log_csv file_info csv_path wn
         = (<[resolve csv_path := File (text n ++ writerow_text (row file_info))]> wn,
            Return tt) /\
         text (S n) = text n ++ writerow_text (row file_info)) /\
  stat csv_path w' = Return (File (header ++ ledger_text (map row file_infos))) /\
  CsvReader.reader (header ++ ledger_text (map row file_infos))
  = ["Nome"; "Tipo"; "Size Byte"; "Percorso"]
    :: map (fun file_info => map field_text (row file_info)) file_infos /\
  length (CsvReader.reader (header ++ ledger_text (map row file_infos)))
  = S (length file_infos) /\
  (Forall (fun fi => exists f m s p, fi = file_info f m s p) file_infos ->
   ~ In ["Nome"; "Tipo"; "Size Byte"; "Percorso"]
        (map (fun file_info => map field_text (row file_info)) file_infos)).
Proof.
  intros Hne Hs Hrun row header text.
  change header with header_text in *.
  assert (Hprefix : forall n, 1 <= n <= length file_infos ->
            exists wn,
              scrivi_log_csv_each (take n file_infos) csv_path w = (wn, Return tt) /\
              stat csv_path wn = Return (File (text n)) /\
              scrivi_log_csv_each (drop n file_infos) csv_path wn = (w', Return tt)).
  { intros n Hn. rewrite <- (take_drop n file_infos) in Hrun.
    destruct (scrivi_log_csv_each_app _ _ _ _ _ Hrun) as (wn & Hdone & Hrest).
    exists wn. split; [assumption|]. split; [|assumption].
    assert (Htake : take n file_infos <> []).
    { intros E. apply (f_equal (@length _)) in E. rewrite length_take in E.
      cbn [length] in E. lia. }
    destruct (scrivi_log_csv_each_new _ _ _ _ _ Htake Hs Hdone) as (rows & Hrows & Hst).
    now rewrite (rows_of_values _ _ Hrows) in Hst. }
  split; [|split; [|split; [|split]]].
  - intros n Hn. destruct (Hprefix n Hn) as (wn & Hdone & Hst & Hrest).
    exists wn. split; [assumption|]. split; [assumption|]. split; [assumption|].
    intros file_info Hl.
    assert (Htext : text (S n) = text n ++ writerow_text (row file_info)).
    { unfold text. rewrite (take_S_r _ _ _ Hl), map_app, ledger_text_app.
      cbn [map]. now rewrite ledger_text_one, sapp_assoc. }
    split; [|exact Htext].
    rewrite (drop_S _ _ _ Hl) in Hrest. cbn [scrivi_log_csv_each] in Hrest.
    unfold bind at 1 in Hrest.
    destruct (scrivi_log_csv file_info csv_path wn) as [w1 [[]|e1]] eqn:H1;
      [|discriminate].
    destruct (scrivi_log_csv_appended _ _ _ _ _ Hst H1) as (r & Hr & _ & ->).
    now rewrite (dict_to_list_values _ _ Hr).
  - assert (Hlen : 1 <= length file_infos <= length file_infos)
      by (destruct file_infos; [congruence | cbn [length]; lia]).
    destruct (Hprefix _ Hlen) as (wn & _ & Hst & Hrest).
    rewrite drop_all in Hrest. injection Hrest as <-.
    unfold text in Hst. now rewrite firstn_all in Hst.
  - now rewrite reader_header_ledger, map_map.
  - rewrite reader_header_ledger. cbn [length]. now rewrite !length_map.
  - intros Hmain Hin. apply in_map_iff in Hin as (fi & Hrow & Hin).
    rewrite Forall_forall in Hmain.
    destruct (Hmain fi ltac:(now apply list_elem_of_In)) as (f & m & z & p & ->).
    injection Hrow as _ _ Hsize _. exact (str_int_not_header z Hsize).
Qed.

Lemma ledger_header_once_witness :
  let file_infos :=
    [file_info "song.mp3" "audio/mpeg" 9 "files/audio/song.mp3";
     file_info "a,b.txt" "text/plain" 5 "files/documenti/a,b.txt"] in
  let csv_path := "files/recap.csv" in
  let w1 := fst (scrivi_log_csv_each (take 1 file_infos) csv_path Sample.w0) in
  let w' := fst (scrivi_log_csv_each file_infos csv_path Sample.w0) in
  stat csv_path Sample.w0 = Raise (FileNotFoundError csv_path) /\
  stat csv_path w1
  = Return (File ("Nome,Tipo,Size Byte,Percorso" ++ lineterminator
                  ++ "song.mp3,audio/mpeg,9,files/audio/song.mp3" ++ lineterminator)) /\
  stat csv_path w'
  = Return (File ("Nome,Tipo,Size Byte,Percorso" ++ lineterminator
                  ++ "song.mp3,audio/mpeg,9,files/audio/song.mp3" ++ lineterminator
                  ++ String quotechar "a,b.txt"
                  ++ String quotechar ",text/plain,5,"
                  ++ String quotechar "files/documenti/a,b.txt"
                  ++ String quotechar lineterminator)) /\
  CsvReader.reader
    ("Nome,Tipo,Size Byte,Percorso" ++ lineterminator
     ++ "song.mp3,audio/mpeg,9,files/audio/song.mp3" ++ lineterminator
     ++ String quotechar "a,b.txt"
     ++ String quotechar ",text/plain,5,"
     ++ String quotechar "files/documenti/a,b.txt"
     ++ String quotechar lineterminator)
  = [["Nome"; "Tipo"; "Size Byte"; "Percorso"];
     ["song.mp3"; "audio/mpeg"; "9"; "files/audio/song.mp3"];
     ["a,b.txt"; "text/plain"; "5"; "files/documenti/a,b.txt"]].
Proof.
  intros file_infos csv_path w1 w'.
  assert (H1 : file_infos <> []) by discriminate.
  assert (H2 : stat csv_path Sample.w0 = Raise (FileNotFoundError csv_path))
    by (vm_compute; reflexivity).
  assert (H3 : scrivi_log_csv_each file_infos csv_path Sample.w0 = (w', Return tt))
    by evaluated.
  destruct (ledger_header_once file_infos csv_path Sample.w0 w' _ H1 H2 H3)
    as (Hcalls & Hfinal & Hread & _).
  destruct (Hcalls 1 ltac:(cbn; lia)) as (wn & Hdone & Hfirst & _).
  assert (E : wn = w1) by (unfold w1; now rewrite Hdone).
  rewrite E in Hfirst.
  split; [exact H2|]. split; [exact Hfirst|]. split; [exact Hfinal|]. exact Hread.
Defined.

(** The text of a record of four fields: the fields in their order,
    each quoted where it has to be, with the delimiter between them. *)
Lemma writerow_text_four (a b c d : pyval) :
  writerow_text [a; b; c; d]
  = join_append (field_text a) ++ "," ++ join_append (field_text b) ++ ","
    ++ join_append (field_text c) ++ "," ++ join_append (field_text d)
    ++ lineterminator.
Proof.
  unfold writerow_text. cbn [map Str.join].
  match goal with |- context [String.eqb ?r ""] => set (rec := r) end.
  assert (Hrec : String.eqb rec "" = false)
    by (subst rec; destruct (join_append (field_text a)); reflexivity).
  rewrite Hrec. subst rec. rewrite !sapp_assoc. reflexivity.
Qed.

(** C5, as the code has it: a ledger that [scrivi_log_csv] creates
    begins with the header row [Nome,Tipo,Size Byte,Percorso], and
    every record row, the first and the appended ones, is the values
    under these four keys in this order. *)
Theorem ledger_columns (file_info : gmap string pyval) (csv_path : string)
    (w w' : world) (before : result node) :
  stat csv_path w = before ->
  scrivi_log_csv file_info csv_path w = (w', Return tt) ->
  let value k := default (PyStr "") (file_info !! k) in
  let record :=
    join_append (field_text (value "Nome")) ++ ","
    ++ join_append (field_text (value "Tipo")) ++ ","
    ++ join_append (field_text (value "Size Byte")) ++ ","
    ++ join_append (field_text (value "Percorso")) ++ lineterminator in
  match before with
  | Raise _ =>
      stat csv_path w'
      = Return (File ("Nome,Tipo,Size Byte,Percorso" ++ lineterminator ++ record))
  | Return (File old) => stat csv_path w' = Return (File (old ++ record))
  | Return Dir => False
  end.
Proof.
  intros Hs Hrun value record.
  assert (Hrow : forall row, dict_to_list intestazioni file_info = Return row ->
                             writerow_text row = record).
  { unfold dict_to_list.
    destruct (filter _ _); [|discriminate]. intros row [= <-].
    cbn [map intestazioni]. apply writerow_text_four. }
  destruct before as [[old|]|e].
  - destruct (scrivi_log_csv_appended _ _ _ _ _ Hs Hrun) as (row & Hr & _ & ->).
    rewrite (stat_insert_File _ _ _ _ Hs). now rewrite (Hrow row Hr).
  - rewrite scrivi_log_csv_steps in Hrun. apply stat_Dir in Hs as [Hp Hn].
    unfold open_append, opening in Hrun. apply String.eqb_neq in Hp.
    rewrite Hp, Hn in Hrun. discriminate.
  - destruct (scrivi_log_csv_new _ _ _ _ _ Hs Hrun) as (row & Hr & _ & Hs').
    rewrite Hs', header_text_eq, (Hrow row Hr), sapp_assoc. reflexivity.
Qed.

Lemma ledger_columns_witness :
  let fi := file_info "a,b.txt" "text/plain" 5 "files/documenti/a,b.txt" in
  let w' := fst (scrivi_log_csv fi "files/recap.csv" Sample.w0) in
  stat "files/recap.csv" w'
  = Return (File ("Nome,Tipo,Size Byte,Percorso" ++ lineterminator
                  ++ String quotechar "a,b.txt"
                  ++ String quotechar ",text/plain,5,"
                  ++ String quotechar "files/documenti/a,b.txt"
                  ++ String quotechar lineterminator)).
Proof.
  intros fi w'.
  assert (H1 : stat "files/recap.csv" Sample.w0
               = Raise (FileNotFoundError "files/recap.csv"))
    by (vm_compute; reflexivity).
  assert (H2 : scrivi_log_csv fi "files/recap.csv" Sample.w0 = (w', Return tt))
    by evaluated.
  exact (ledger_columns fi "files/recap.csv" Sample.w0 w' _ H1 H2).
Defined.

(** C5 as stated fails: the header row of a ledger that the script
    creates does not hold the names [Name, Type, SizeBytes, Path]. *)
Lemma ledger_header_names :
  let fi := file_info "song.mp3" "audio/mpeg" 9 "files/audio/song.mp3" in
  let w' := fst (scrivi_log_csv fi "files/recap.csv" Sample.w0) in
  exists text,
    stat "files/recap.csv" w' = Return (File text) /\
    hd [] (CsvReader.reader text) = ["Nome"; "Tipo"; "Size Byte"; "Percorso"] /\
    hd [] (CsvReader.reader text) <> ["Name"; "Type"; "SizeBytes"; "Path"].
Proof.
  eexists. split; [vm_compute; reflexivity|].
  split; [vm_compute; reflexivity | vm_compute; discriminate].
Qed.

(** C9: a record that [scrivi_log_csv] appends is read back by the
    reader with exactly the strings it was given, whatever
    characters the name and the path contain (the delimiter, quotes,
    line breaks), after the rows the ledger already had. *)
Theorem ledger_round_trip (filename mime_type : string) (size : Z)
    (nuovo_percorso csv_path : string) (w w' : world) (before : result node) :
  stat csv_path w = before ->
  match before with
  | Return (File old) => exists rows, old = header_text ++ ledger_text rows
  | _ => True
  end ->
  scrivi_log_csv (file_info filename mime_type size nuovo_percorso) csv_path w
  = (w', Return tt) ->
  exists text,
    stat csv_path w' = Return (File text) /\
    CsvReader.reader text
    = (match before with
       | Return (File old) => CsvReader.reader old
       | _ => [intestazioni]
       end ++ [[filename; mime_type; str_int size; nuovo_percorso]])%list.
Proof.
  intros Hs Hold Hrun.
  set (row := [PyStr filename; PyStr mime_type; PyInt size; PyStr nuovo_percorso]).
  destruct before as [[old|]|e].
  - destruct Hold as [rows ->].
    destruct (scrivi_log_csv_appended _ _ _ _ _ Hs Hrun) as (row' & Hr & _ & ->).
    rewrite dict_to_list_file_info in Hr. injection Hr as <-.
    exists ((header_text ++ ledger_text rows) ++ writerow_text row).
    split; [apply (stat_insert_File _ _ _ _ Hs)|].
    rewrite <- (ledger_text_one row).
    rewrite sapp_assoc, <- ledger_text_app, !reader_header_ledger, map_app.
    reflexivity.
  - rewrite scrivi_log_csv_steps in Hrun. apply stat_Dir in Hs as [Hp Hn].
    unfold open_append, opening in Hrun. apply String.eqb_neq in Hp.
    rewrite Hp, Hn in Hrun. discriminate.
  - destruct (scrivi_log_csv_new _ _ _ _ _ Hs Hrun) as (row' & Hr & _ & Hs').
    rewrite dict_to_list_file_info in Hr. injection Hr as <-.
    exists (header_text ++ writerow_text row). split; [exact Hs'|].
    rewrite <- (ledger_text_one row). now rewrite reader_header_ledger.
Qed.

Lemma ledger_round_trip_witness :
  let name := "a,b" ++ String quotechar "c" ++ lineterminator ++ ".txt" in
  let path := "files/documenti/" ++ name in
  let w' := fst (scrivi_log_csv (file_info name "text/plain" 5 path)
                                "files/recap.csv" Sample.w0) in
  exists text,
    stat "files/recap.csv" w' = Return (File text) /\
    CsvReader.reader text
    = [intestazioni; [name; "text/plain"; "5"; path]].
Proof.
  intros name path w'.
  assert (H1 : stat "files/recap.csv" Sample.w0
               = Raise (FileNotFoundError "files/recap.csv"))
    by (vm_compute; reflexivity).
  assert (H2 : scrivi_log_csv (file_info name "text/plain" 5 path)
                              "files/recap.csv" Sample.w0 = (w', Return tt))
    by evaluated.
  exact (ledger_round_trip name "text/plain" 5 path "files/recap.csv"
                           Sample.w0 w' _ H1 I H2).
Defined.

(** C10: whether the header is written depends on the ledger path
    being there, not on what the file holds: appends to a ledger that
    is there as an empty file write their records and no header, so
    the ledger consists of record rows only, and read back none of
    the rows that [main] logs is the header row. *)
Theorem ledger_empty_file_no_header (file_infos : list (gmap string pyval))
    (csv_path : string) (w w' : world) :
  stat csv_path w = Return (File "") ->
  scrivi_log_csv_each file_infos csv_path w = (w', Return tt) ->
  exists rows,
    rows_of file_infos rows /\
    stat csv_path w' = Return (File (ledger_text rows)) /\
    CsvReader.reader (ledger_text rows) = map (map field_text) rows /\
    (Forall (fun fi => exists f m s p, fi = file_info f m s p) file_infos ->
     ~ In intestazioni (CsvReader.reader (ledger_text rows))).
Proof.
  intros Hs Hrun.
  destruct (scrivi_log_csv_each_existing _ _ _ _ _ Hs Hrun) as (rows & Hrows & Hs' & _).
  exists rows. split; [assumption|]. split; [assumption|].
  rewrite reader_ledger_text. split; [reflexivity|].
  intros Hmain Hin. apply in_map_iff in Hin as (row & Hrow & Hin).
  unfold rows_of in Hrows. clear Hs Hrun Hs'. revert Hmain Hin.
  induction Hrows as [|fi row' fis rows Hfi _ IH]; [intros _ []|].
  intros Hmain [->|Hin]; inversion Hmain as [|? ? (f & m & z & p & ->) Hrest]; subst.
  - rewrite dict_to_list_file_info in Hfi. injection Hfi as <-.
    injection Hrow as _ _ Hsize _. exact (str_int_not_header z Hsize).
  - exact (IH Hrest Hin).
Qed.

Lemma ledger_empty_file_no_header_witness :
  let csv_path := "files/recap.csv" in
  let w := <[resolve csv_path := File ""]> Sample.w0 in
  let file_infos := [file_info "song.mp3" "audio/mpeg" 9 "files/audio/song.mp3"] in
  let w' := fst (scrivi_log_csv_each file_infos csv_path w) in
  stat csv_path w = Return (File "") /\
  scrivi_log_csv_each file_infos csv_path w = (w', Return tt) /\
  exists rows,
    rows_of file_infos rows /\
    stat csv_path w' = Return (File (ledger_text rows)) /\
    CsvReader.reader (ledger_text rows) = map (map field_text) rows /\
    (Forall (fun fi => exists f m s p, fi = file_info f m s p) file_infos ->
     ~ In intestazioni (CsvReader.reader (ledger_text rows))).
Proof.
  intros csv_path w file_infos w'.
  assert (H1 : stat csv_path w = Return (File "")) by (vm_compute; reflexivity).
  assert (H2 : scrivi_log_csv_each file_infos csv_path w = (w', Return tt))
    by evaluated.
  exact (conj H1 (conj H2
           (ledger_empty_file_no_header file_infos csv_path w w' H1 H2))).
Defined.

End Ledger.

(** ** The orchestrator *)

Section Orchestrator.

Import OS.

Variable guess_type : string -> option string.
Variable isprintable : N -> bool.

(** The categories of the classifier are names of directory entries. *)
Lemma classifica_file_entry_name (mime : option string) (categoria : string) :
  classifica_file mime = Some categoria -> entry_name categoria = true.
Proof.
  unfold classifica_file. destruct mime as [m|]; [|discriminate].
  repeat case_match; intros [= <-]; reflexivity.
Qed.

(** [get_mime_type] reads the size and changes nothing. *)
Lemma get_mime_type_Return (file_path : string) (w w' : world) (mime_type : string)
    (size : Z) :
  get_mime_type guess_type file_path w = (w', Return (mime_type, size)) ->
  w' = w /\ exists n, stat file_path w = Return n.
Proof.
  unfold get_mime_type, bind, path_getsize, lift, ret.
  destruct (stat file_path w) as [n|e]; [|discriminate].
  destruct n; intros [= <- _ _]; eauto.
Qed.

Lemma get_mime_type_File (file_path : string) (w : world) (data : string) :
  stat file_path w = Return (File data) ->
  get_mime_type guess_type file_path w
  = (w, Return (match guess_type file_path with
                | None => tipo_sconosciuto
                | Some mime_type => mime_type
                end, Z.of_nat (String.length data))).
Proof.
  intros Hs. unfold get_mime_type, bind, path_getsize, lift, ret. now rewrite Hs.
Qed.

(** [scrivi_log_csv] touches the ledger and nothing else. *)
Lemma write_frame (f k : key) (text : string) (w w' : world) (r : result unit) :
  k <> f -> write f text w = (w', r) -> w' !! k = w !! k.
Proof.
  intros Hk. unfold write.
  repeat case_match; intros; simplify_eq;
    first [now apply lookup_insert_ne | reflexivity].
Qed.

Lemma open_append_frame (p : string) (k : key) (w w' : world) (r : result key) :
  k <> resolve p -> open_append p w = (w', r) ->
  w' !! k = w !! k /\ forall f, r = Return f -> f = resolve p.
Proof.
  intros Hk. unfold open_append.
  repeat case_match; intros; simplify_eq; split; try reflexivity;
    try (intros ? [= <-]; reflexivity); try discriminate.
  now apply lookup_insert_ne.
Qed.

Lemma scrivi_log_csv_frame (file_info : gmap string Csv.pyval) (csv_path : string)
    (w w' : world) (r : result unit) :
  scrivi_log_csv file_info csv_path w = (w', r) ->
  forall k, k <> resolve csv_path -> w' !! k = w !! k.
Proof.
  rewrite scrivi_log_csv_steps. intros H k Hk.
  destruct (open_append csv_path w) as [w1 [f|e1]] eqn:Ho.
  - destruct (open_append_frame _ _ _ _ _ Hk Ho) as [Hw1 Hf].
    specialize (Hf f eq_refl). subst f. cbv zeta in H.
    set (w2 := match stat csv_path w with
               | Return _ => w1
               | Raise _ => fst (write (resolve csv_path) header_text w1)
               end) in H.
    assert (Hw2 : w2 !! k = w1 !! k).
    { unfold w2. destruct (stat csv_path w); [reflexivity|].
      destruct (write (resolve csv_path) header_text w1) as [w3 r3] eqn:Hw.
      exact (write_frame _ _ _ _ _ _ Hk Hw). }
    destruct (Csv.dict_to_list intestazioni file_info) as [row|e2].
    + rewrite (write_frame _ _ _ _ _ _ Hk H). congruence.
    + injection H as <- _. congruence.
  - injection H as <- _. now destruct (open_append_frame _ _ _ _ _ Hk Ho).
Qed.

(** C6, as the code has it: [sposta_file] moves a regular file to
    [folder_path/categoria/basename(file_path)], after making the
    category directory when it is not there, and returns that path as
    [os.path.join] built it from its arguments; the destination must
    not be a directory. *)
Theorem sposta_file_destination (file_path folder_path categoria : string)
    (mime : option string) (w : world) (data : string) :
  classifica_file mime = Some categoria ->
  stat file_path w = Return (File data) ->
  stat folder_path w = Return Dir ->
  let dir := PosixPath.join folder_path categoria in
  let dst := PosixPath.join dir (PosixPath.basename file_path) in
  stat dir w = Return Dir \/ (exists e, stat dir w = Raise e) ->
  stat dst w <> Return Dir ->
  exists w',
    sposta_file file_path folder_path categoria w = (w', Return dst) /\
    stat dst w' = Return (File data) /\
    stat dir w' = Return Dir /\
    (resolve file_path <> resolve dst ->
     stat file_path w' = Raise (FileNotFoundError file_path)) /\
    resolve dst = (fst (resolve folder_path),
                   PosixPath.basename file_path :: categoria
                     :: snd (resolve folder_path)).
Proof.
  intros Hc Hs Hroot dir dst Hdir Hdst.
  pose proof (classifica_file_entry_name _ _ Hc) as Hcat.
  pose proof Hroot as Hroot'. apply stat_Dir in Hroot' as [Hr _].
  destruct (sposta_file_paths _ _ _ _ _ Hs Hr Hcat)
    as (Hdne & Hdstne & Hname & Hbdir & _ & _ & Hkdst).
  fold dir dst in Hdne, Hdstne, Hbdir, Hkdst.
  pose proof (entry_name_spec _ Hcat) as (_ & Hpc & _).
  assert (Hdir' : node_at w (resolve dir) = None \/ node_at w (resolve dir) = Some Dir).
  { destruct Hdir as [Hd|[e' Hd]]; [right; now apply stat_Dir in Hd|left].
    apply (stat_Raise_name _ _ _ Hd Hdne). now rewrite Hbdir. }
  pose proof (stat_not_Dir _ _ Hdstne Hdst) as Hdst'.
  exists (moved file_path dir dst data w).
  split; [now apply sposta_file_moves|].
  destruct (moved_after _ _ _ _ _ Hs Hroot Hcat Hdir') as (H1 & H2 & H3 & _).
  auto.
Qed.

(** The keys a run for the entry [filename] of [folder_path] works on. *)
Lemma main_keys (folder_path filename categoria : string) :
  folder_path <> "" -> entry_name filename = true -> entry_name categoria = true ->
  let i := fst (resolve folder_path) in
  let L := snd (resolve folder_path) in
  let dir := PosixPath.join folder_path categoria in
  resolve (PosixPath.join folder_path filename) = (i, filename :: L) /\
  resolve dir = (i, categoria :: L) /\
  resolve (PosixPath.join dir filename) = (i, filename :: categoria :: L) /\
  resolve (PosixPath.join folder_path "recap.csv") = (i, "recap.csv" :: L) /\
  PosixPath.basename (PosixPath.join folder_path filename) = filename /\
  dir <> "" /\ PosixPath.join dir filename <> "" /\
  PosixPath.basename dir = categoria /\
  PosixPath.basename (PosixPath.join dir filename) = filename.
Proof.
  intros Hr Hf Hc i L dir. subst i L dir.
  pose proof (join_nonempty folder_path categoria Hr) as Hdir.
  rewrite (resolve_join _ _ Hr Hf), (resolve_join _ _ Hdir Hf).
  rewrite (resolve_join _ _ Hr Hc), (resolve_join folder_path "recap.csv" Hr eq_refl).
  rewrite (basename_join _ _ Hr Hf), (basename_join _ _ Hdir Hf).
  rewrite (basename_join _ _ Hr Hc).
  repeat split; try reflexivity; try assumption. now apply join_nonempty.
Qed.

(** A run that relocates: how it ends and what it leaves. *)
Lemma main_relocates (folder_path filename categoria : string) (w : world)
    (data : string) :
  stat folder_path w = Return Dir ->
  entry_name filename = true ->
  stat (PosixPath.join folder_path filename) w = Return (File data) ->
  classifica_file (Some match guess_type (PosixPath.join folder_path filename) with
                        | None => tipo_sconosciuto
                        | Some mime_type => mime_type
                        end) = Some categoria ->
  let i := fst (resolve folder_path) in
  let L := snd (resolve folder_path) in
  node_at w (i, categoria :: L) = None \/ node_at w (i, categoria :: L) = Some Dir ->
  node_at w (i, filename :: categoria :: L) <> Some Dir ->
  let r := main guess_type isprintable folder_path filename w in
  run_end r = Returned /\
  run_fs r !! (i, filename :: categoria :: L) = Some (File data) /\
  run_fs r !! (i, categoria :: L) = Some Dir /\
  (forall k : key,
     k <> (i, filename :: categoria :: L) -> k <> (i, filename :: L) ->
     k <> (i, categoria :: L) -> k <> (i, "recap.csv" :: L) ->
     run_fs r !! k = w !! k).
Proof.
  intros Hroot Hf Hs Hc i L Hdir Hdst r.
  pose proof (classifica_file_entry_name _ _ Hc) as Hcat.
  pose proof Hroot as Hroot'. apply stat_Dir in Hroot' as [Hr _].
  destruct (main_keys folder_path filename categoria Hr Hf Hcat)
    as (Hks & Hkdir & Hkdst & Hkcsv & Hbase & _).
  fold i L in Hks, Hkdir, Hkdst, Hkcsv.
  set (dir := PosixPath.join folder_path categoria) in *.
  set (dst := PosixPath.join dir filename) in *.
  set (file_path := PosixPath.join folder_path filename) in *.
  assert (Hmv : sposta_file file_path folder_path categoria w
                = (moved file_path dir dst data w, Return dst)).
  { pose proof (sposta_file_moves file_path folder_path categoria w data Hs Hroot Hcat)
      as H. cbv zeta in H. fold dir in H. rewrite Hbase in H. fold dst in H.
    apply H; [now rewrite Hkdir | now rewrite Hkdst]. }
  destruct (scrivi_log_csv
              (file_info filename
                 match guess_type file_path with
                 | None => tipo_sconosciuto
                 | Some mime_type => mime_type
                 end (Z.of_nat (String.length data)) dst)
              (PosixPath.join folder_path "recap.csv")
              (moved file_path dir dst data w)) as [w2 logged] eqn:Hlog.
  assert (Hmain : run_end r = Returned /\ run_fs r = w2).
  { unfold r, main. fold file_path.
    rewrite (get_mime_type_File _ _ _ Hs), Hc, Hmv, Hlog. split; reflexivity. }
  destruct Hmain as [Hend Hfs]. rewrite Hfs.
  pose proof (scrivi_log_csv_frame _ _ _ _ _ Hlog) as Hframe. rewrite Hkcsv in Hframe.
  assert (Hne_src_dir : (i, filename :: L) <> (i, categoria :: L)).
  { intros E. apply stat_File in Hs as (_ & Hn & _). rewrite Hks, E in Hn.
    destruct Hdir as [Hd|Hd]; congruence. }
  split; [assumption|]. unfold moved in Hframe. rewrite Hkdst, Hks, Hkdir in Hframe.
  split; [|split].
  - rewrite Hframe by (intros E; apply (f_equal (fun k => length (snd k))) in E;
                       simpl in E; lia).
    apply lookup_insert_eq.
  - rewrite Hframe by (intros E; injection E as E; subst categoria; discriminate Hc
                       || (unfold classifica_file in Hc; repeat case_match; discriminate)).
    rewrite lookup_insert_ne
      by (intros E; apply (f_equal (fun k => length (snd k))) in E; simpl in E; lia).
    rewrite lookup_delete_ne by assumption. apply lookup_insert_eq.
  - intros k H1 H2 H3 H4. rewrite (Hframe k H4).
    rewrite lookup_insert_ne, lookup_delete_ne, lookup_insert_ne by congruence.
    reflexivity.
Qed.

(** C8: two runs of the script for two files of the folder that go
    to the same category both return normally, whether the category
    directory was there before the first run or not: the first run
    makes it when needed, the second finds it and moves its file into
    it, and both files are in it afterwards. *)
Theorem main_twice_same_category (folder_path f1 f2 categoria : string) (w : world)
    (d1 d2 : string) :
  stat folder_path w = Return Dir ->
  entry_name f1 = true -> entry_name f2 = true ->
  f1 <> f2 -> f2 <> "recap.csv" ->
  let p1 := PosixPath.join folder_path f1 in
  let p2 := PosixPath.join folder_path f2 in
  let mime_type p := match guess_type p with
                     | None => tipo_sconosciuto
                     | Some mime_type => mime_type
                     end in
  stat p1 w = Return (File d1) -> stat p2 w = Return (File d2) ->
  classifica_file (Some (mime_type p1)) = Some categoria ->
  classifica_file (Some (mime_type p2)) = Some categoria ->
  let dir := PosixPath.join folder_path categoria in
  stat dir w = Return Dir \/ (exists e, stat dir w = Raise e) ->
  stat (PosixPath.join dir f1) w <> Return Dir ->
  stat (PosixPath.join dir f2) w <> Return Dir ->
  let r1 := main guess_type isprintable folder_path f1 w in
  let r2 := main guess_type isprintable folder_path f2 (run_fs r1) in
  run_end r1 = Returned /\
  stat dir (run_fs r1) = Return Dir /\
  run_end r2 = Returned /\
  stat (PosixPath.join dir f1) (run_fs r2) = Return (File d1) /\
  stat (PosixPath.join dir f2) (run_fs r2) = Return (File d2).
Proof.
  intros Hroot Hf1 Hf2 Hne Hcsv p1 p2 mime_type Hs1 Hs2 Hc1 Hc2 dir Hdir Hd1 Hd2 r1 r2.
  pose proof (classifica_file_entry_name _ _ Hc1) as Hcat.
  pose proof Hroot as Hroot'. apply stat_Dir in Hroot' as [Hr Hnr].
  destruct (main_keys folder_path f1 categoria Hr Hf1 Hcat)
    as (Hk1 & Hkdir & Hkd1 & Hkcsv & _ & Hdne & Hd1ne & Hbdir & Hbd1).
  destruct (main_keys folder_path f2 categoria Hr Hf2 Hcat)
    as (Hk2 & _ & Hkd2 & _ & _ & _ & Hd2ne & _ & Hbd2).
  fold dir p1 p2 in Hk1, Hk2, Hkdir, Hkd1, Hkd2, Hdne, Hd1ne, Hd2ne, Hbdir, Hbd1, Hbd2.
  set (i := fst (resolve folder_path)) in *.
  set (L := snd (resolve folder_path)) in *.
  pose proof (entry_name_spec _ Hcat) as (_ & Hpc & _).
  pose proof (entry_name_spec _ Hf1) as (_ & Hp1 & _).
  pose proof (entry_name_spec _ Hf2) as (_ & Hp2 & _).
  assert (Hdir' : node_at w (i, categoria :: L) = None
                  \/ node_at w (i, categoria :: L) = Some Dir).
  { rewrite <- Hkdir. destruct Hdir as [Hd|[e' Hd]]; [right; now apply stat_Dir in Hd|left].
    apply (stat_Raise_name _ _ _ Hd Hdne). now rewrite Hbdir. }
  assert (Hd1' : node_at w (i, f1 :: categoria :: L) <> Some Dir)
    by (rewrite <- Hkd1; now apply stat_not_Dir).
  assert (Hd2' : node_at w (i, f2 :: categoria :: L) <> Some Dir)
    by (rewrite <- Hkd2; now apply stat_not_Dir).
  destruct (main_relocates folder_path f1 categoria w d1 Hroot Hf1 Hs1 Hc1 Hdir' Hd1')
    as (Hend1 & Hdst1 & Hdir1 & Hframe1).
  fold i L r1 in Hend1, Hdst1, Hdir1, Hframe1.
  (* the file system of the second run *)
  assert (Hs2n : w !! (i, f2 :: L) = Some (File d2)).
  { apply stat_File in Hs2 as (_ & Hn & _). rewrite Hk2 in Hn.
    now apply node_at_File in Hn as [_ Hn]. }
  assert (Hf2cat : f2 <> categoria).
  { intros ->. unfold node_at in Hdir'. cbn [snd] in Hdir'.
    destruct Hdir' as [H|H]; congruence. }
  assert (Hroot1 : stat folder_path (run_fs r1) = Return Dir).
  { rewrite <- Hroot. apply stat_node_at. unfold node_at.
    rewrite (surjective_pairing (resolve folder_path)). fold i L. cbn [snd].
    destruct L as [|x L'] eqn:EL; [reflexivity|].
    apply Hframe1; key_neq. }
  assert (Hs2' : stat p2 (run_fs r1) = Return (File d2)).
  { rewrite <- Hs2. apply stat_node_at. rewrite Hk2. unfold node_at. cbn [snd].
    apply Hframe1; key_neq. }
  assert (Hdir1' : node_at (run_fs r1) (i, categoria :: L) = None
                   \/ node_at (run_fs r1) (i, categoria :: L) = Some Dir)
    by (right; exact Hdir1).
  assert (Hd2'' : node_at (run_fs r1) (i, f2 :: categoria :: L) <> Some Dir).
  { unfold node_at in *. cbn [snd] in *. rewrite Hframe1; [assumption | key_neq..]. }
  destruct (main_relocates folder_path f2 categoria (run_fs r1) d2 Hroot1 Hf2 Hs2' Hc2
              Hdir1' Hd2'')
    as (Hend2 & Hdst2 & _ & Hframe2).
  fold i L r2 in Hend2, Hdst2, Hframe2.
  split; [assumption|]. split; [|split; [assumption|split]].
  - apply stat_Dir. split; [assumption|]. now rewrite Hkdir.
  - apply stat_File. split; [assumption|]. split; [|now rewrite Hbd1].
    rewrite Hkd1. unfold node_at. cbn [snd].
    rewrite Hframe2; [assumption | key_neq..].
  - apply stat_File. split; [assumption|]. split; [|now rewrite Hbd2].
    now rewrite Hkd2.
Qed.

End Orchestrator.

(** ** The orchestrator and the relocator on the sample file system *)

Section Runs.

Import OS.

Lemma sposta_file_destination_witness :
  exists w',
    sposta_file "./files/song.mp3" "./files/" "audio" Sample.w0
    = (w', Return "./files/audio/song.mp3") /\
    stat "./files/audio/song.mp3" w' = Return (File "ID3-bytes") /\
    stat "./files/audio" w' = Return Dir /\
    stat "./files/song.mp3" w' = Raise (FileNotFoundError "./files/song.mp3").
Proof.
  assert (H0 : classifica_file (Some "audio/mpeg") = Some "audio") by reflexivity.
  assert (H1 : stat "./files/song.mp3" Sample.w0 = Return (File "ID3-bytes"))
    by (vm_compute; reflexivity).
  assert (H2 : stat "./files/" Sample.w0 = Return Dir) by (vm_compute; reflexivity).
  assert (H3 : exists e, stat (PosixPath.join "./files/" "audio") Sample.w0 = Raise e)
    by (eexists; vm_compute; reflexivity).
  assert (H4 : stat (PosixPath.join (PosixPath.join "./files/" "audio")
                       (PosixPath.basename "./files/song.mp3")) Sample.w0
               <> Return Dir) by (vm_compute; discriminate).
  assert (H5 : OS.resolve "./files/song.mp3"
               <> OS.resolve (PosixPath.join (PosixPath.join "./files/" "audio")
                                (PosixPath.basename "./files/song.mp3")))
    by (vm_compute; discriminate).
  destruct (sposta_file_destination "./files/song.mp3" "./files/" "audio"
              (Some "audio/mpeg") Sample.w0 "ID3-bytes" H0 H1 H2 (or_intror H3) H4)
    as (w' & Hrun & Hdst & Hdir & Hsrc & _).
  exists w'. exact (conj Hrun (conj Hdst (conj Hdir (Hsrc H5)))).
Defined.

(** C6 as stated fails: the path [sposta_file] returns is the joined
    path, which for a relative root is not absolute and for a root
    written with [./] is not normalized. *)
Lemma sposta_file_returns_joined_path :
  snd (sposta_file "./files/song.mp3" "./files" "audio" Sample.w0)
  = Return "./files/audio/song.mp3" /\
  PosixPath.isabs "./files/audio/song.mp3" = false /\
  PosixPath.normpath "./files/audio/song.mp3" = "files/audio/song.mp3" /\
  PosixPath.normpath "./files/audio/song.mp3" <> "./files/audio/song.mp3".
Proof.
  split; [vm_compute; reflexivity|].
  split; [reflexivity|]. split; [reflexivity | discriminate].
Qed.

Lemma main_twice_same_category_witness :
  let r1 := main Sample.guess_type Sample.isprintable "files" "song.mp3" Sample.w0 in
  let r2 := main Sample.guess_type Sample.isprintable "files" "tune.mp3" (run_fs r1) in
  (exists e, stat "files/audio" Sample.w0 = Raise e) /\
  run_end r1 = Returned /\
  stat "files/audio" (run_fs r1) = Return Dir /\
  run_end r2 = Returned /\
  stat "files/audio/song.mp3" (run_fs r2) = Return (File "ID3-bytes") /\
  stat "files/audio/tune.mp3" (run_fs r2) = Return (File "RIFF").
Proof.
  intros r1 r2.
  assert (H1 : stat "files" Sample.w0 = Return Dir) by (vm_compute; reflexivity).
  assert (H2 : stat (PosixPath.join "files" "song.mp3") Sample.w0
               = Return (File "ID3-bytes")) by (vm_compute; reflexivity).
  assert (H3 : stat (PosixPath.join "files" "tune.mp3") Sample.w0
               = Return (File "RIFF")) by (vm_compute; reflexivity).
  assert (H4 : exists e, stat (PosixPath.join "files" "audio") Sample.w0 = Raise e)
    by (eexists; vm_compute; reflexivity).
  assert (H5 : stat (PosixPath.join (PosixPath.join "files" "audio") "song.mp3")
                    Sample.w0 <> Return Dir) by (vm_compute; discriminate).
  assert (H6 : stat (PosixPath.join (PosixPath.join "files" "audio") "tune.mp3")
                    Sample.w0 <> Return Dir) by (vm_compute; discriminate).
  assert (Hne : "song.mp3" <> "tune.mp3") by discriminate.
  assert (Hcsv : "tune.mp3" <> "recap.csv") by discriminate.
  exact (conj H4
           (main_twice_same_category Sample.guess_type Sample.isprintable "files" "song.mp3" "tune.mp3"
              "audio" Sample.w0 "ID3-bytes" "RIFF" H1 eq_refl eq_refl Hne Hcsv
              H2 H3 eq_refl eq_refl (or_intror H4) H5 H6)).
Defined.

(** The scenario of the specification: [report.pdf] is a document,
    ends up in [documenti] and gets its row in a ledger made for it. *)
Example main_report_pdf :
  let r := main Sample.guess_type Sample.isprintable "files" "report.pdf" Sample.w0 in
  outcome_of Sample.guess_type "files" "report.pdf" Sample.w0 = Success /\
  run_end r = Returned /\
  stat "files/documenti/report.pdf" (run_fs r) = Return (File "%PDF-1.7") /\
  stat "files/report.pdf" (run_fs r) = Raise (FileNotFoundError "files/report.pdf") /\
  exists text,
    stat "files/recap.csv" (run_fs r) = Return (File text) /\
    CsvReader.reader text
    = [["Nome"; "Tipo"; "Size Byte"; "Percorso"];
       ["report.pdf"; "application/pdf"; "8"; "files/documenti/report.pdf"]].
Proof.
  intros r. repeat split; try (vm_compute; reflexivity).
  eexists. split; vm_compute; reflexivity.
Qed.

End Runs.

(** ** The media type of a file *)

Section MediaType.

Import OS.

Variable guess_type : string -> option string.
Variable isprintable : N -> bool.

(** The first piece of a split: the text before the first separator. *)
Lemma split_hd_spec (c : ascii) (s word : string) :
  Str.contains word c = false ->
  hd "" (Str.split c s) = word <->
  s = word \/ exists rest, s = word ++ String c rest.
Proof.
  revert word. induction s as [|a s IH]; intros word Hw.
  - cbn. split.
    + intros <-. now left.
    + intros [<-|[rest E]]; [reflexivity|]. destruct word; discriminate E.
  - cbn [Str.split]. destruct (Ascii.eqb_spec a c) as [->|Hac].
    + cbn [hd]. split.
      * intros <-. right. now exists s.
      * intros [<-|[rest E]].
        -- cbn in Hw. now rewrite Ascii.eqb_refl in Hw.
        -- destruct word as [|b word']; [reflexivity|]. injection E as <- _.
           cbn in Hw. now rewrite Ascii.eqb_refl in Hw.
    + pose proof (split_not_nil c s) as Hne.
      destruct (Str.split c s) as [|p ps] eqn:Hsp; [congruence|]. cbn [hd] in IH |- *.
      split.
      * intros <-. cbn in Hw. apply orb_false_iff in Hw as [_ Hw].
        destruct (proj1 (IH p Hw) eq_refl) as [->|[rest ->]]; [now left|].
        right. now exists rest.
      * intros [<-|[rest E]].
        -- cbn in Hw. apply orb_false_iff in Hw as [_ Hw].
           f_equal. apply (IH s Hw). now left.
        -- destruct word as [|b word']; [injection E as E _; congruence|].
           injection E as <- ->. cbn in Hw. apply orb_false_iff in Hw as [_ Hw].
           f_equal. apply (IH word' Hw). right. now exists rest.
Qed.

(** X2: the listing of [main] takes a media type exactly when it is one
    of the four words of [tipi_validi], alone or followed by a slash
    and anything. *)
Theorem tipo_valido_spec (mime : string) :
  tipo_valido mime = true <->
  exists word,
    In word tipi_validi /\
    (mime = word \/ exists subtype, mime = word ++ "/" ++ subtype).
Proof.
  unfold tipo_valido. rewrite existsb_exists. split.
  - intros [word [Hin Heq]]. apply String.eqb_eq in Heq. exists word. split; [assumption|].
    apply (split_hd_spec "/" mime word); [|exact Heq].
    cbn in Hin. destruct Hin as [<-|[<-|[<-|[<-|[]]]]]; reflexivity.
  - intros [word [Hin Hm]]. exists word. split; [assumption|]. apply String.eqb_eq.
    apply (split_hd_spec "/" mime word); [|exact Hm].
    cbn in Hin. destruct Hin as [<-|[<-|[<-|[<-|[]]]]]; reflexivity.
Qed.

End MediaType.

(** ** More about the relocator *)

Section Relocator.

Import OS Shutil.

(** A path whose last component is a name has no trailing separator. *)
Lemma rstrip_proper_basename (p : string) :
  proper_name (PosixPath.basename p) = true -> Str.rstrip PosixPath.sep p = p.
Proof.
  intros Hb. pose proof (rpartition_app PosixPath.sep p) as Hp.
  pose proof (rpartition_snd_nosep PosixPath.sep p) as Hn.
  unfold PosixPath.basename in Hb. rewrite <- Hp.
  apply rstrip_app_nosep; [|assumption].
  intros E. rewrite E in Hb. discriminate Hb.
Qed.

Lemma proper_basename_entry_name (p : string) :
  proper_name (PosixPath.basename p) = true -> entry_name (PosixPath.basename p) = true.
Proof. intros Hb. unfold entry_name. now rewrite basename_nosep, Hb. Qed.

(** The entries a [rename] of a regular file leaves alone. *)
Lemma rename_frame (src dst : string) (w w' : world) (data : string) (r : result unit) :
  stat src w = Return (File data) -> rename src dst w = (w', r) ->
  forall k : key, k <> resolve src -> k <> resolve dst -> w' !! k = w !! k.
Proof.
  intros Hs. unfold rename, create. rewrite Hs. intros H k H1 H2.
  repeat case_match; simplify_eq; try reflexivity.
  - rewrite lookup_insert_ne, lookup_delete_ne by congruence. reflexivity.
  - rewrite lookup_delete_ne, lookup_insert_ne by congruence. reflexivity.
Qed.

(** The fallback of [shutil.move] after a [rename] that raised. *)
Lemma move_fallback (src d : string) (w w' : world) (data : string) (r : result string) :
  stat src w = Return (File data) -> stat d w <> Return Dir ->
  (try_except (rename src d) is_OSError (fun _ => copy2 src d ;;; unlink src) ;;; ret d) w
  = (w', r) ->
  forall k : key, k <> resolve src -> k <> resolve d -> w' !! k = w !! k.
Proof.
  intros Hs Hd. unfold bind at 1, try_except.
  destruct (rename src d w) as [w1 [[]|e1]] eqn:Hren.
  - intros [= <- _]. now apply (rename_frame _ _ _ _ _ _ Hs Hren).
  - pose proof (rename_unchanged _ _ _ _ _ Hren) as ->.
    destruct (is_OSError e1); [|now intros [= <- _]].
    destruct (copy2_after_rename _ _ _ _ _ _ Hs Hd Hren) as [e' ->].
    now intros [= <- _].
Qed.

(** [shutil.move] of a regular file touches its source, its
    destination and, when the destination is a directory, the entry
    of that directory named like the source. *)
Lemma move_frame (src dst : string) (w w' : world) (data : string) (r : result string) :
  stat src w = Return (File data) -> move src dst w = (w', r) ->
  forall k : key,
    k <> resolve src -> k <> resolve dst ->
    k <> resolve (PosixPath.join dst (_basename src)) -> w' !! k = w !! k.
Proof.
  intros Hs. unfold move. unfold bind at 1, path_isdir, observe.
  destruct (stat dst w) as [[d|]|e0] eqn:Hd;
    try (intros H k H1 H2 _; revert H k H1 H2; apply (move_fallback _ _ _ _ _ _ Hs);
         rewrite Hd; discriminate).
  unfold bind at 1, samefile, observe. rewrite Hs, Hd.
  destruct (bool_decide (resolve src = resolve dst)) eqn:Hsame.
  - apply bool_decide_eq_true in Hsame.
    apply stat_File in Hs as (_ & Hn & _). apply stat_Dir in Hd as (_ & Hn').
    congruence.
  - unfold bind at 1, path_exists, observe.
    destruct (stat (PosixPath.join dst (_basename src)) w) as [n|e1] eqn:Hreal.
    + now intros [= <- _].
    + intros H k H1 _ H3; revert H k H1 H3. apply (move_fallback _ _ _ _ _ _ Hs).
      rewrite Hreal. discriminate.
Qed.

(** [shutil.move] of a regular file onto a directory: the file goes
    inside, under its own name. *)
Lemma move_into_directory (src dst : string) (w : world) (data : string) (e : exn) :
  stat src w = Return (File data) -> stat dst w = Return Dir ->
  let real_dst := PosixPath.join dst (PosixPath.basename src) in
  stat real_dst w = Raise e ->
  move src dst w
  = (<[resolve real_dst := File data]> (delete (resolve src) w), Return real_dst).
Proof.
  intros Hs Hd real_dst Hreal. unfold move. unfold bind at 1, path_isdir, observe.
  rewrite Hd. unfold bind at 1, samefile, observe. rewrite Hs, Hd.
  pose proof Hs as Hs'. apply stat_File in Hs' as (_ & Hn & Hb).
  pose proof Hd as Hd'. apply stat_Dir in Hd' as (Hdne & Hn').
  rewrite bool_decide_eq_false_2 by congruence.
  unfold _basename. rewrite (rstrip_proper_basename _ Hb). fold real_dst.
  unfold bind at 1, path_exists, observe. rewrite Hreal.
  pose proof (proper_basename_entry_name _ Hb) as Hname.
  unfold bind at 1, try_except.
  rewrite (rename_file src real_dst w data Hs).
  - reflexivity.
  - now apply join_nonempty.
  - unfold real_dst. now rewrite (basename_join _ _ Hdne Hname).
  - unfold real_dst. rewrite (resolve_join _ _ Hdne Hname). unfold parent. cbn [fst snd tl].
    now rewrite <- surjective_pairing.
  - apply stat_not_Dir; [now apply join_nonempty | rewrite Hreal; discriminate].
Qed.

(** The head of the path of an entry, for a directory written
    without trailing separator. *)
Lemma split_join_stripped (a b : string) :
  a <> "" -> Str.rstrip PosixPath.sep a = a -> entry_name b = true ->
  PosixPath.split (PosixPath.join a b) = (a, b).
Proof.
  intros Ha Hst Hb. destruct (join_name a b Ha Hb) as (r & -> & Hr).
  pose proof (entry_name_spec _ Hb) as (Hc & _).
  unfold PosixPath.split. rewrite (rpartition_app_sep _ _ _ Hc), rstrip_app_sep.
  assert (Hra : Str.rstrip PosixPath.sep r = a).
  { destruct Hr as [[-> _]| ->]; [assumption | now rewrite rstrip_app_sep in Hst]. }
  rewrite Hra. destruct a; [congruence | reflexivity].
Qed.

(** [makedirs] at any depth for an entry of a directory that is
    there: one [mkdir]. *)
Lemma makedirs_rec_entry (depth : nat) (root cat : string) (w : world) :
  stat root w = Return Dir -> entry_name cat = true ->
  node_at w (resolve (PosixPath.join root cat)) = None ->
  makedirs_rec (S depth) (PosixPath.join root cat) w
  = (<[resolve (PosixPath.join root cat) := Dir]> w, Return tt).
Proof.
  intros Hroot Hcat Hnone. apply stat_Dir in Hroot as [Hr Hn].
  destruct (split_join root cat Hr Hcat) as (h & Hsplit & Hh & Hres).
  pose proof (entry_name_spec _ Hcat) as (_ & Hp & Hne & _).
  cbn [makedirs_rec]. rewrite Hsplit.
  assert (Hstat : stat h w = Return Dir).
  { apply stat_Dir. split; [assumption | now rewrite Hres]. }
  apply String.eqb_neq in Hne, Hh. rewrite Hne. cbv beta iota.
  rewrite Hne, Hh. cbn [negb andb].
  unfold bind at 1. unfold bind at 1.
  unfold path_exists, observe. rewrite Hstat. cbn [negb]. unfold ret.
  unfold mkdir, create.
  pose proof (join_nonempty root cat Hr) as Hj. apply String.eqb_neq in Hj.
  rewrite Hj, Hnone, (rstrip_join _ _ Hr Hcat), (basename_join _ _ Hr Hcat), Hp.
  rewrite (resolve_join _ _ Hr Hcat). unfold parent. cbn [fst snd tl].
  rewrite <- surjective_pairing, Hn. reflexivity.
Qed.

(** [makedirs] makes the directory above as well when it is missing. *)
Lemma makedirs_two (base name cat : string) (w : world) :
  stat base w = Return Dir -> entry_name name = true -> entry_name cat = true ->
  let root := PosixPath.join base name in
  let dir := PosixPath.join root cat in
  node_at w (resolve root) = None -> node_at w (resolve dir) = None ->
  makedirs dir w = (<[resolve dir := Dir]> (<[resolve root := Dir]> w), Return tt).
Proof.
  intros Hbase Hname Hcat root dir Hnroot Hndir.
  pose proof Hbase as Hbase'. apply stat_Dir in Hbase' as [Hb _].
  pose proof (join_nonempty base name Hb) as Hr. fold root in Hr.
  pose proof (join_nonempty root cat Hr) as Hd. fold dir in Hd.
  pose proof (rstrip_join _ _ Hb Hname) as Hst. fold root in Hst.
  pose proof (entry_name_spec _ Hcat) as (_ & Hp & Hne & _).
  pose proof (resolve_join _ _ Hr Hcat) as Hkdir. fold dir in Hkdir.
  unfold makedirs. destruct (String.length dir) as [|n] eqn:Hlen.
  { destruct dir; [congruence | discriminate Hlen]. }
  pose proof (makedirs_rec_entry n _ _ _ Hbase Hname Hnroot) as Hrec. fold root in Hrec.
  remember (S n) as depth eqn:Edepth. clear Edepth.
  cbn [makedirs_rec]. unfold dir at 1. rewrite (split_join_stripped _ _ Hr Hst Hcat).
  apply String.eqb_neq in Hne. rewrite Hne. cbv beta iota. rewrite Hne.
  pose proof Hr as Hr'. apply String.eqb_neq in Hr'. rewrite Hr'. cbn [negb andb].
  unfold bind at 1. unfold bind at 1. unfold path_exists at 1, observe.
  assert (Hs : exists e, stat root w = Raise e).
  { unfold stat. rewrite Hr', Hnroot. eauto. }
  destruct Hs as [e ->]. cbn [negb]. unfold bind at 1, try_except.
  rewrite Hrec. unfold ret at 1. unfold ret at 1.
  assert (Hcur : String.eqb cat PosixPath.curdir = false).
  { apply String.eqb_neq. intros ->. discriminate Hp. }
  rewrite Hcur. unfold mkdir, create.
  apply String.eqb_neq in Hd. rewrite Hd.
  assert (Hne_k : resolve root <> resolve dir).
  { rewrite Hkdir. rewrite (surjective_pairing (resolve root)) at 1.
    intros [= E]. symmetry in E. now apply cons_neq in E. }
  rewrite (node_at_insert_ne _ _ _ _ Hne_k), Hndir.
  unfold dir at 1 2. rewrite (rstrip_join _ _ Hr Hcat), (basename_join _ _ Hr Hcat), Hp.
  fold dir. rewrite Hkdir. unfold parent. cbn [fst snd tl].
  rewrite <- surjective_pairing.
  rewrite node_at_insert_eq; [reflexivity|].
  unfold root. rewrite (resolve_join _ _ Hb Hname). discriminate.
Qed.

End Relocator.

Section RelocatorEdges.

Import OS Shutil.

Variable guess_type : string -> option string.
Variable isprintable : N -> bool.

(** What [sposta_file] does before the move: nothing when the
    category path is taken, one [mkdir] when it is free. *)
Lemma sposta_file_steps (file_path folder_path categoria : string) (w : world) :
  stat folder_path w = Return Dir -> entry_name categoria = true ->
  let dir := PosixPath.join folder_path categoria in
  let dst := PosixPath.join dir (PosixPath.basename file_path) in
  let w1 := match node_at w (resolve dir) with
            | None => <[resolve dir := Dir]> w
            | Some _ => w
            end in
  sposta_file file_path folder_path categoria w
  = match move file_path dst w1 with
    | (w2, Return _) => (w2, Return dst)
    | (w2, Raise e) => (w2, Raise e)
    end.
Proof.
  intros Hroot Hcat dir dst w1.
  pose proof Hroot as Hroot'. apply stat_Dir in Hroot' as [Hr Hnr].
  pose proof (join_nonempty folder_path categoria Hr) as Hdne. fold dir in Hdne.
  pose proof (basename_join _ _ Hr Hcat) as Hbdir. fold dir in Hbdir.
  pose proof (entry_name_spec _ Hcat) as (_ & Hpc & _).
  unfold sposta_file. fold dir dst.
  unfold bind at 1, path_exists, observe. unfold bind at 1. unfold w1.
  destruct (node_at w (resolve dir)) as [n|] eqn:Hn.
  - assert (Hst : exists n', stat dir w = Return n').
    { unfold stat. apply String.eqb_neq in Hdne. rewrite Hdne, Hn, Hbdir, Hpc.
      destruct n; eauto. }
    destruct Hst as [n' ->]. cbn [negb]. unfold ret at 1. unfold bind at 1.
    destruct (move file_path dst w) as [w2 [d|e]]; reflexivity.
  - assert (Hst : exists e, stat dir w = Raise e).
    { unfold stat. apply String.eqb_neq in Hdne. rewrite Hdne, Hn. eauto. }
    destruct Hst as [e ->]. cbn [negb]. unfold dir at 1.
    rewrite (makedirs_entry _ _ _ Hroot Hcat Hn). fold dir. unfold bind at 1.
    destruct (move file_path dst _) as [w2 [d|e']]; reflexivity.
Qed.

(** A [sposta_file] that raises for a regular file has at most made
    directories. *)
Lemma sposta_file_Raise (file_path folder_path categoria : string) (w w' : world)
    (data : string) (e : exn) :
  stat file_path w = Return (File data) ->
  sposta_file file_path folder_path categoria w = (w', Raise e) ->
  only_new_dirs w w'.
Proof.
  intros Hs. unfold sposta_file. unfold bind at 1, path_exists, observe.
  unfold bind at 1.
  set (dir := PosixPath.join folder_path categoria).
  destruct ((if negb match stat dir w with Return _ => true | Raise _ => false end
             then makedirs dir else ret tt) w) as [w1 [[]|e1]] eqn:Hmk.
  - assert (H1 : only_new_dirs w w1).
    { destruct (negb _); [now apply makedirs_rec_only_new_dirs in Hmk|].
      injection Hmk as <-. apply only_new_dirs_refl. }
    assert (Hs1 : stat file_path w1 = Return (File data)).
    { rewrite <- Hs. apply stat_node_at.
      apply stat_File in Hs as (_ & Hn & _). apply node_at_File in Hn as [Hk Hl].
      rewrite !(node_at_lookup _ _ Dir Hk).
      destruct (H1 (resolve file_path)) as [E|[E _]]; congruence. }
    unfold bind at 1.
    destruct (Shutil.move file_path _ w1) as [w2 [d|e2]] eqn:Hmv; [discriminate|].
    intros [= <- _]. now rewrite (move_file_unchanged _ _ _ _ _ _ Hs1 Hmv).
  - intros [= <- _]. destruct (negb _); [now apply makedirs_rec_only_new_dirs in Hmk|].
    discriminate.
Qed.

(** The entries [sposta_file] may touch for a regular file: the file,
    the category directory, the destination and, when the destination
    is a directory, its entry named like the file. *)
Lemma sposta_file_frame (file_path folder_path categoria : string) (w w' : world)
    (data : string) (r : result string) :
  stat file_path w = Return (File data) ->
  stat folder_path w = Return Dir -> entry_name categoria = true ->
  sposta_file file_path folder_path categoria w = (w', r) ->
  let dir := PosixPath.join folder_path categoria in
  let dst := PosixPath.join dir (PosixPath.basename file_path) in
  forall k : key,
    k <> resolve file_path -> k <> resolve dir -> k <> resolve dst ->
    k <> resolve (PosixPath.join dst (PosixPath.basename file_path)) ->
    w' !! k = w !! k.
Proof.
  intros Hs Hroot Hcat Hrun dir dst k H1 H2 H3 H4.
  rewrite (sposta_file_steps _ _ _ _ Hroot Hcat) in Hrun. cbv zeta in Hrun.
  fold dir dst in Hrun.
  set (w1 := match node_at w (resolve dir) with
             | None => <[resolve dir := Dir]> w
             | Some _ => w
             end) in Hrun.
  assert (Hw1 : forall j : key, j <> resolve dir -> w1 !! j = w !! j).
  { intros j Hj. unfold w1. destruct (node_at w (resolve dir)); [reflexivity|].
    now apply lookup_insert_ne. }
  assert (Hs1 : stat file_path w1 = Return (File data)).
  { rewrite <- Hs. apply stat_node_at. unfold w1.
    destruct (node_at w (resolve dir)) eqn:Hn; [reflexivity|].
    apply node_at_insert_ne. intros E. rewrite E in Hn.
    apply stat_File in Hs as (_ & Hs & _). congruence. }
  destruct (move file_path dst w1) as [w2 r2] eqn:Hmv.
  assert (Hw2 : w2 !! k = w1 !! k).
  { apply (move_frame _ _ _ _ _ _ Hs1 Hmv); try assumption.
    apply stat_File in Hs as (_ & _ & Hb). unfold _basename.
    now rewrite (rstrip_proper_basename _ Hb). }
  rewrite <- (Hw1 k H2), <- Hw2. destruct r2; now injection Hrun as <- _.
Qed.

(** X3: a regular file that is already at the destination is replaced:
    [sposta_file] returns normally, the destination holds the contents of
    the moved file, the source is gone and nothing else has changed. *)
Theorem sposta_file_overwrites (file_path folder_path categoria : string) (w : world)
    (data old : string) :
  stat file_path w = Return (File data) ->
  stat folder_path w = Return Dir ->
  entry_name categoria = true ->
  let dir := PosixPath.join folder_path categoria in
  let dst := PosixPath.join dir (PosixPath.basename file_path) in
  stat dir w = Return Dir ->
  stat dst w = Return (File old) ->
  resolve file_path <> resolve dst ->
  exists w',
    sposta_file file_path folder_path categoria w = (w', Return dst) /\
    stat dst w' = Return (File data) /\
    stat file_path w' = Raise (FileNotFoundError file_path) /\
    forall k : key, k <> resolve file_path -> k <> resolve dst -> w' !! k = w !! k.
Proof.
  intros Hs Hroot Hcat dir dst Hdir Hdst Hne.
  pose proof Hdir as Hdir'. apply stat_Dir in Hdir' as [Hdne Hnd].
  assert (Hdst' : node_at w (resolve dst) <> Some Dir).
  { apply stat_File in Hdst as (_ & Hn & _). congruence. }
  exists (moved file_path dir dst data w).
  split; [apply sposta_file_moves; auto|].
  destruct (moved_after _ _ _ _ _ Hs Hroot Hcat (or_intror Hnd)) as (H1 & H2 & H3 & H4).
  fold dir dst in H1, H2, H3, H4.
  split; [assumption|]. split; [auto|].
  intros k Hk1 Hk2. destruct (decide (k = resolve dir)) as [->|Hk3]; [|now apply H4].
  apply stat_Dir in H2 as [_ H2].
  assert (Hkd : snd (resolve dir) <> []).
  { destruct (snd (resolve dir)) eqn:E; [|discriminate].
    apply stat_File in Hdst as (_ & Hn & _).
    pose proof Hroot as Hroot'. apply stat_Dir in Hroot' as [Hr _].
    destruct (sposta_file_paths _ _ _ _ _ Hs Hr Hcat) as (_ & _ & _ & _ & _ & Hkdir & _).
    fold dir in Hkdir. rewrite Hkdir in E. discriminate E. }
  rewrite <- !(node_at_lookup _ _ Dir Hkd). congruence.
Qed.

(** X4: when the destination is an existing directory, the file is
    moved inside it under its own name, and the path that
    [sposta_file] returns is that directory, not the file. *)
Theorem sposta_file_into_directory (file_path folder_path categoria : string)
    (w : world) (data : string) (e : exn) :
  stat file_path w = Return (File data) ->
  stat folder_path w = Return Dir ->
  entry_name categoria = true ->
  let dir := PosixPath.join folder_path categoria in
  let dst := PosixPath.join dir (PosixPath.basename file_path) in
  let real_dst := PosixPath.join dst (PosixPath.basename file_path) in
  stat dir w = Return Dir ->
  stat dst w = Return Dir ->
  stat real_dst w = Raise e ->
  exists w',
    sposta_file file_path folder_path categoria w = (w', Return dst) /\
    stat dst w' = Return Dir /\
    stat real_dst w' = Return (File data) /\
    stat file_path w' = Raise (FileNotFoundError file_path) /\
    forall k : key, k <> resolve file_path -> k <> resolve real_dst -> w' !! k = w !! k.
Proof.
  intros Hs Hroot Hcat dir dst real_dst Hdir Hdst Hreal.
  pose proof Hroot as Hroot'. apply stat_Dir in Hroot' as [Hr Hnr].
  destruct (sposta_file_paths _ _ _ _ _ Hs Hr Hcat)
    as (Hdne & Hdstne & Hname & _ & _ & _ & Hkdst).
  fold dir dst in Hdne, Hdstne, Hkdst.
  pose proof (entry_name_spec _ Hname) as (_ & Hpb & _).
  pose proof (resolve_join _ _ Hdstne Hname) as Hkreal. fold real_dst in Hkreal.
  pose proof (basename_join _ _ Hdstne Hname) as Hbreal. fold real_dst in Hbreal.
  pose proof (join_nonempty dst (PosixPath.basename file_path) Hdstne) as Hrne.
  fold real_dst in Hrne.
  pose proof Hs as Hs'. apply stat_File in Hs' as (Hfne & Hns & _).
  pose proof Hns as Hls. apply node_at_File in Hls as [Hks Hls].
  pose proof Hdst as Hdst'. apply stat_Dir in Hdst' as [_ Hnd].
  pose proof Hdir as Hdir'. apply stat_Dir in Hdir' as [_ Hndir].
  pose proof (stat_Raise_name _ _ _ Hreal Hrne) as Hnreal.
  rewrite Hbreal in Hnreal. specialize (Hnreal Hpb).
  assert (Hne_real : resolve file_path <> resolve real_dst) by congruence.
  assert (Hne_dst : resolve file_path <> resolve dst) by congruence.
  assert (Hne_dst_real : resolve dst <> resolve real_dst) by congruence.
  assert (Hkr : snd (resolve real_dst) <> []) by (rewrite Hkreal; discriminate).
  exists (<[resolve real_dst := File data]> (delete (resolve file_path) w)).
  split; [|split; [|split; [|split]]].
  - rewrite (sposta_file_steps _ _ _ _ Hroot Hcat). cbv zeta. fold dir dst.
    rewrite Hndir.
    now rewrite (move_into_directory file_path dst w data e Hs Hdst Hreal).
  - apply stat_Dir. split; [assumption|].
    rewrite node_at_insert_ne, node_at_delete_ne by congruence. assumption.
  - apply stat_File. split; [assumption|]. split; [|now rewrite Hbreal].
    now apply node_at_insert_eq.
  - unfold stat. apply String.eqb_neq in Hfne. rewrite Hfne.
    rewrite node_at_insert_ne by congruence.
    rewrite (node_at_lookup _ _ Dir Hks), lookup_delete_eq. reflexivity.
  - intros k H1 H2. rewrite lookup_insert_ne, lookup_delete_ne by congruence. reflexivity.
Qed.

(** X5: when the destination is a directory that already has an entry
    named like the file, [sposta_file] raises the error of
    [shutil.move] and the file system is what it was. *)
Theorem sposta_file_name_taken (file_path folder_path categoria : string)
    (w : world) (data : string) (n : node) :
  stat file_path w = Return (File data) ->
  stat folder_path w = Return Dir ->
  entry_name categoria = true ->
  let dir := PosixPath.join folder_path categoria in
  let dst := PosixPath.join dir (PosixPath.basename file_path) in
  let real_dst := PosixPath.join dst (PosixPath.basename file_path) in
  stat dir w = Return Dir ->
  stat dst w = Return Dir ->
  stat real_dst w = Return n ->
  sposta_file file_path folder_path categoria w = (w, Raise (ShutilError real_dst)) /\
  forall filename,
    file_path = PosixPath.join folder_path filename ->
    classifica_file (Some match guess_type file_path with
                          | None => tipo_sconosciuto
                          | Some mime_type => mime_type
                          end) = Some categoria ->
    main guess_type isprintable folder_path filename w
    = {| run_fs := w;
         run_stdout :=
           ["Errore durante lo spostamento del file " ++ quoted filename
              ++ ": Destination path " ++ quoted real_dst ++ " already exists"];
         run_end := SysExit 1 |}.
Proof.
  intros Hs Hroot Hcat dir dst real_dst Hdir Hdst Hreal.
  pose proof Hdir as Hdir'. apply stat_Dir in Hdir' as [_ Hndir].
  assert (Hrun : sposta_file file_path folder_path categoria w
                 = (w, Raise (ShutilError real_dst))).
  { rewrite (sposta_file_steps _ _ _ _ Hroot Hcat). cbv zeta. fold dir dst.
    rewrite Hndir. unfold move. unfold bind at 1, path_isdir, observe. rewrite Hdst.
    unfold bind at 1, samefile, observe. rewrite Hs, Hdst.
    pose proof Hs as Hs'. apply stat_File in Hs' as (_ & Hn & Hb).
    pose proof Hdst as Hd'. apply stat_Dir in Hd' as (_ & Hn').
    rewrite bool_decide_eq_false_2 by congruence.
    unfold _basename. rewrite (rstrip_proper_basename _ Hb). fold real_dst.
    unfold bind at 1, path_exists, observe. now rewrite Hreal. }
  split; [assumption|].
  intros filename -> Hc. unfold main.
  rewrite (get_mime_type_File _ _ _ _ Hs), Hc, Hrun. reflexivity.
Qed.

(** X6: a file that [sposta_file] has put in its place stays there:
    calling [sposta_file] again on the path it returned changes
    nothing and returns the same path. *)
Theorem sposta_file_again (file_path folder_path categoria : string) (w : world)
    (data : string) :
  stat file_path w = Return (File data) ->
  stat folder_path w = Return Dir ->
  entry_name categoria = true ->
  let dir := PosixPath.join folder_path categoria in
  let dst := PosixPath.join dir (PosixPath.basename file_path) in
  stat dir w = Return Dir \/ (exists e, stat dir w = Raise e) ->
  stat dst w <> Return Dir ->
  exists w',
    sposta_file file_path folder_path categoria w = (w', Return dst) /\
    sposta_file dst folder_path categoria w' = (w', Return dst).
Proof.
  intros Hs Hroot Hcat dir dst Hdir Hdst.
  pose proof Hroot as Hroot'. apply stat_Dir in Hroot' as [Hr Hnr].
  destruct (sposta_file_paths _ _ _ _ _ Hs Hr Hcat)
    as (Hdne & Hdstne & Hname & Hbdir & Hbdst & Hkdir & Hkdst).
  fold dir dst in Hdne, Hdstne, Hbdir, Hbdst, Hkdir, Hkdst.
  pose proof (entry_name_spec _ Hcat) as (_ & Hpc & _).
  assert (Hdir' : node_at w (resolve dir) = None \/ node_at w (resolve dir) = Some Dir).
  { destruct Hdir as [Hd|[e' Hd]]; [right; now apply stat_Dir in Hd|left].
    apply (stat_Raise_name _ _ _ Hd Hdne). now rewrite Hbdir. }
  pose proof (stat_not_Dir _ _ Hdstne Hdst) as Hdst'.
  set (w' := moved file_path dir dst data w).
  destruct (moved_after _ _ _ _ _ Hs Hroot Hcat Hdir') as (H1 & H2 & _ & _).
  fold dir dst w' in H1, H2.
  exists w'. split; [now apply sposta_file_moves|].
  assert (Hroot1 : stat folder_path w' = Return Dir).
  { rewrite <- Hroot. apply stat_node_at. unfold w', moved.
    pose proof Hs as Hs'. apply stat_File in Hs' as (_ & Hns & _).
    rewrite node_at_insert_ne, node_at_delete_ne, node_at_insert_ne;
      [reflexivity | | congruence |].
    - rewrite Hkdir. rewrite (surjective_pairing (resolve folder_path)) at 2.
      intros [= E]. now apply cons_neq in E.
    - rewrite Hkdst. rewrite (surjective_pairing (resolve folder_path)) at 2.
      key_neq. }
  pose proof (sposta_file_moves dst folder_path categoria w' data H1 Hroot1 Hcat) as Hag.
  cbv zeta in Hag. fold dir in Hag. rewrite Hbdst in Hag. fold dst in Hag.
  rewrite Hag.
  - f_equal. unfold moved at 1.
    apply stat_Dir in H2 as [_ H2]. apply stat_File in H1 as (_ & H1 & _).
    apply node_at_File in H1 as [_ H1].
    assert (Hkd : snd (resolve dir) <> []) by (rewrite Hkdir; discriminate).
    rewrite (node_at_lookup _ _ Dir Hkd) in H2.
    rewrite (insert_id w' _ _ H2). now apply insert_delete_id.
  - right. now apply stat_Dir in H2 as [_ H2].
  - apply stat_File in H1 as (_ & H1 & _). congruence.
Qed.

(** X7: for a source that is not there [sposta_file] raises
    [FileNotFoundError], and a category directory that was missing has
    been made all the same. *)
Theorem sposta_file_missing_source (file_path folder_path categoria : string)
    (w : world) (e : exn) :
  stat file_path w = Raise (FileNotFoundError file_path) ->
  entry_name (PosixPath.basename file_path) = true ->
  stat folder_path w = Return Dir ->
  entry_name categoria = true ->
  let dir := PosixPath.join folder_path categoria in
  let dst := PosixPath.join dir (PosixPath.basename file_path) in
  stat dir w = Raise e ->
  stat dst w <> Return Dir ->
  resolve file_path <> resolve dir ->
  exists w',
    sposta_file file_path folder_path categoria w
    = (w', Raise (FileNotFoundError file_path)) /\
    stat dir w' = Return Dir /\
    forall k : key, k <> resolve dir -> w' !! k = w !! k.
Proof.
  intros Hs Hname Hroot Hcat dir dst Hdir Hdst Hne.
  pose proof Hroot as Hroot'. apply stat_Dir in Hroot' as [Hr Hnr].
  pose proof (join_nonempty folder_path categoria Hr) as Hdne. fold dir in Hdne.
  pose proof (basename_join _ _ Hr Hcat) as Hbdir. fold dir in Hbdir.
  pose proof (resolve_join _ _ Hr Hcat) as Hkdir. fold dir in Hkdir.
  pose proof (entry_name_spec _ Hcat) as (_ & Hpc & _).
  pose proof (entry_name_spec _ Hname) as (_ & Hpb & _).
  assert (Hnd : node_at w (resolve dir) = None).
  { apply (stat_Raise_name _ _ _ Hdir Hdne). now rewrite Hbdir. }
  assert (Hkd : snd (resolve dir) <> []) by (rewrite Hkdir; discriminate).
  set (w1 := <[resolve dir := Dir]> w).
  pose proof (resolve_join _ _ Hdne Hname) as Hkdst. fold dst in Hkdst.
  assert (Hd1 : stat dst w1 = stat dst w).
  { apply stat_node_at. apply node_at_insert_ne. rewrite Hkdst. intros E.
    apply (f_equal snd) in E. cbn [snd] in E. symmetry in E. now apply cons_neq in E. }
  assert (Hs1 : stat file_path w1 = Raise (FileNotFoundError file_path)).
  { rewrite <- Hs. apply stat_node_at. apply node_at_insert_ne. congruence. }
  exists w1. split; [|split].
  - rewrite (sposta_file_steps _ _ _ _ Hroot Hcat). cbv zeta. fold dir dst.
    rewrite Hnd. fold w1.
    assert (Hfall : forall d,
               (try_except (rename file_path d) is_OSError
                           (fun _ => copy2 file_path d ;;; unlink file_path) ;;; ret d) w1
               = (w1, Raise (FileNotFoundError file_path))).
    { intros d. unfold bind at 1, try_except. unfold rename at 1. rewrite Hs1.
      cbn [is_OSError]. unfold bind at 1, copy2. unfold bind at 1, path_isdir, observe.
      unfold copyfile. unfold bind at 1, samefile, observe. rewrite Hs1.
      unfold bind at 1, read_file, lift. now rewrite Hs1. }
    unfold move. unfold bind at 1, path_isdir, observe.
    rewrite Hd1.
    destruct (stat dst w) as [[d|]|e0] eqn:Hd; try (now rewrite Hfall). congruence.
  - apply stat_Dir. split; [assumption | now apply node_at_insert_eq].
  - intros k Hk. now apply lookup_insert_ne.
Qed.

(** X8: a regular file in the place of the category directory stops
    the move: [sposta_file] raises [NotADirectoryError] for the
    destination, the file system is what it was, and [main] reports the
    error, with the [repr] of the destination as [str] of an [OSError]
    shows it, and exits with status 1. *)
Theorem sposta_file_category_is_file (file_path folder_path categoria : string)
    (w : world) (data other : string) (e : exn) :
  stat file_path w = Return (File data) ->
  stat folder_path w = Return Dir ->
  entry_name categoria = true ->
  let dir := PosixPath.join folder_path categoria in
  let dst := PosixPath.join dir (PosixPath.basename file_path) in
  stat dir w = Return (File other) ->
  stat dst w = Raise e ->
  sposta_file file_path folder_path categoria w = (w, Raise (NotADirectoryError dst)) /\
  forall filename,
    file_path = PosixPath.join folder_path filename ->
    classifica_file (Some match guess_type file_path with
                          | None => tipo_sconosciuto
                          | Some mime_type => mime_type
                          end) = Some categoria ->
    main guess_type isprintable folder_path filename w
    = {| run_fs := w;
         run_stdout :=
           ["Errore durante lo spostamento del file " ++ quoted filename
              ++ ": [Errno 20] Not a directory: " ++ repr isprintable dst];
         run_end := SysExit 1 |}.
Proof.
  intros Hs Hroot Hcat dir dst Hdir Hdst.
  pose proof Hroot as Hroot'. apply stat_Dir in Hroot' as [Hr Hnr].
  destruct (sposta_file_paths _ _ _ _ _ Hs Hr Hcat)
    as (Hdne & Hdstne & Hname & _ & Hbdst & Hkdir & Hkdst).
  fold dir dst in Hdne, Hdstne, Hbdst, Hkdir, Hkdst.
  pose proof (entry_name_spec _ Hname) as (_ & Hpb & _).
  pose proof Hdir as Hdir'. apply stat_File in Hdir' as (_ & Hndir & _).
  assert (Hnd : node_at w (resolve dst) = None).
  { apply (stat_Raise_name _ _ _ Hdst Hdstne). now rewrite Hbdst. }
  assert (Hpar : node_at w (parent (resolve dst)) = Some (File other)).
  { replace (parent (resolve dst)) with (resolve dir)
      by (rewrite Hkdst, Hkdir; reflexivity). assumption. }
  assert (Hrun : sposta_file file_path folder_path categoria w
                 = (w, Raise (NotADirectoryError dst))).
  { rewrite (sposta_file_steps _ _ _ _ Hroot Hcat). cbv zeta. fold dir dst.
    rewrite Hndir. unfold move. unfold bind at 1, path_isdir, observe. rewrite Hdst.
    unfold bind at 1, try_except. unfold rename at 1, create. rewrite Hs.
    apply String.eqb_neq in Hdstne. rewrite Hdstne, Hnd, Hbdst, Hpb, Hpar.
    cbn [is_OSError]. unfold bind at 1, copy2. unfold bind at 1, path_isdir, observe.
    rewrite Hdst. unfold copyfile. unfold bind at 1, samefile, observe.
    rewrite Hs, Hdst. unfold bind at 1, read_file, lift. rewrite Hs.
    unfold try_except, write_file, opening. now rewrite Hdstne, Hnd, Hpar. }
  split; [assumption|].
  intros filename -> Hc. unfold main.
  rewrite (get_mime_type_File _ _ _ _ Hs), Hc, Hrun. reflexivity.
Qed.

(** X9: [sposta_file] makes a missing [folder_path] as well: when the
    directory above it is there, both [folder_path] and the category
    directory are made, and the file is moved as usual. *)
Theorem sposta_file_makes_folder (file_path base name categoria : string) (w : world)
    (data : string) :
  stat file_path w = Return (File data) ->
  stat base w = Return Dir ->
  entry_name name = true -> entry_name categoria = true ->
  let folder_path := PosixPath.join base name in
  let dir := PosixPath.join folder_path categoria in
  let dst := PosixPath.join dir (PosixPath.basename file_path) in
  (exists e, stat folder_path w = Raise e) ->
  (exists e, stat dir w = Raise e) ->
  (exists e, stat dst w = Raise e) ->
  exists w',
    sposta_file file_path folder_path categoria w = (w', Return dst) /\
    stat folder_path w' = Return Dir /\
    stat dir w' = Return Dir /\
    stat dst w' = Return (File data) /\
    stat file_path w' = Raise (FileNotFoundError file_path).
Proof.
  intros Hs Hbase Hname Hcat folder_path dir dst [e1 Hroot] [e2 Hdir] [e3 Hdst].
  pose proof Hbase as Hbase'. apply stat_Dir in Hbase' as [Hb _].
  pose proof (join_nonempty base name Hb) as Hr. fold folder_path in Hr.
  destruct (sposta_file_paths _ _ _ _ _ Hs Hr Hcat)
    as (Hdne & Hdstne & Hbn & Hbdir & Hbdst & Hkdir & Hkdst).
  fold dir dst in Hdne, Hdstne, Hbdir, Hbdst, Hkdir, Hkdst.
  pose proof (entry_name_spec _ Hcat) as (_ & Hpc & _).
  pose proof (entry_name_spec _ Hname) as (_ & Hpn & _).
  pose proof (entry_name_spec _ Hbn) as (_ & Hpb & _).
  pose proof (resolve_join _ _ Hb Hname) as Hkroot. fold folder_path in Hkroot.
  pose proof (basename_join _ _ Hb Hname) as Hbroot. fold folder_path in Hbroot.
  assert (Hnroot : node_at w (resolve folder_path) = None).
  { apply (stat_Raise_name _ _ _ Hroot Hr). now rewrite Hbroot. }
  assert (Hndir : node_at w (resolve dir) = None).
  { apply (stat_Raise_name _ _ _ Hdir Hdne). now rewrite Hbdir. }
  assert (Hndst : node_at w (resolve dst) = None).
  { apply (stat_Raise_name _ _ _ Hdst Hdstne). now rewrite Hbdst. }
  pose proof Hs as Hs'. apply stat_File in Hs' as (Hfne & Hns & _).
  pose proof Hns as Hls. apply node_at_File in Hls as [Hks Hls].
  assert (Hkr : snd (resolve folder_path) <> []) by (rewrite Hkroot; discriminate).
  assert (Hkd : snd (resolve dir) <> []) by (rewrite Hkdir; discriminate).
  assert (Hkdst' : snd (resolve dst) <> []) by (rewrite Hkdst; discriminate).
  assert (Hne_rd : resolve folder_path <> resolve dir).
  { rewrite Hkdir. rewrite (surjective_pairing (resolve folder_path)) at 1.
    intros [= E]. symmetry in E. now apply cons_neq in E. }
  assert (Hne_dd : resolve dir <> resolve dst) by (rewrite Hkdst, Hkdir; key_neq).
  assert (Hne_rdst : resolve folder_path <> resolve dst).
  { rewrite Hkdst. rewrite (surjective_pairing (resolve folder_path)) at 1. key_neq. }
  set (w2 := <[resolve dir := Dir]> (<[resolve folder_path := Dir]> w)).
  assert (Hs2 : stat file_path w2 = Return (File data)).
  { rewrite <- Hs. apply stat_node_at. unfold w2.
    rewrite !node_at_insert_ne by congruence. reflexivity. }
  exists (<[resolve dst := File data]> (delete (resolve file_path) w2)).
  split; [|split; [|split; [|split]]].
  - unfold sposta_file. fold folder_path dir dst.
    unfold bind at 1, path_exists, observe. rewrite Hdir. cbn [negb].
    unfold bind at 1.
    pose proof (makedirs_two base name categoria w Hbase Hname Hcat) as Hmk.
    cbv zeta in Hmk. fold folder_path dir in Hmk. rewrite (Hmk Hnroot Hndir). fold w2.
    unfold bind at 1. rewrite (move_file file_path dst w2 data Hs2 Hdstne).
    + reflexivity.
    + now rewrite Hbdst.
    + replace (parent (resolve dst)) with (resolve dir)
        by (rewrite Hkdst, Hkdir; reflexivity).
      unfold w2. now apply node_at_insert_eq.
    + unfold w2. rewrite !node_at_insert_ne by congruence. congruence.
  - apply stat_Dir. split; [assumption|].
    rewrite node_at_insert_ne, node_at_delete_ne by congruence.
    unfold w2. rewrite node_at_insert_ne by congruence. now apply node_at_insert_eq.
  - apply stat_Dir. split; [assumption|].
    rewrite node_at_insert_ne, node_at_delete_ne by congruence.
    unfold w2. now apply node_at_insert_eq.
  - apply stat_File. split; [assumption|]. split; [|now rewrite Hbdst].
    now apply node_at_insert_eq.
  - unfold stat. apply String.eqb_neq in Hfne. rewrite Hfne.
    rewrite node_at_insert_ne by congruence.
    rewrite (node_at_lookup _ _ Dir Hks), lookup_delete_eq. reflexivity.
Qed.

End RelocatorEdges.

(** ** More about the ledger *)

Section LedgerEdges.

Import OS Csv.



(** The keys of a dictionary that are not column names. *)
Lemma wrong_fields_elem_of (fieldnames : list string) (rowdict : gmap string pyval)
    (x : string) :
  x ∈ filter (fun k => k ∉ fieldnames) (map fst (map_to_list rowdict)) <->
  is_Some (rowdict !! x) /\ x ∉ fieldnames.
Proof.
  rewrite list_elem_of_filter.
  change (map fst (map_to_list rowdict)) with ((map_to_list rowdict).*1).
  rewrite list_elem_of_fmap. split.
  - intros [Hx [[y v'] [-> Hin]]]. apply elem_of_map_to_list in Hin.
    split; [eauto | assumption].
  - intros [[v' Hx] Hn]. split; [assumption|]. exists (x, v').
    split; [reflexivity | now apply elem_of_map_to_list].
Qed.

Lemma dict_to_list_Raise (fieldnames : list string) (rowdict : gmap string pyval)
    (k : string) (v : pyval) :
  rowdict !! k = Some v -> k ∉ fieldnames ->
  exists wrong_fields,
    dict_to_list fieldnames rowdict = Raise (ValueError wrong_fields) /\
    forall x, x ∈ wrong_fields <-> is_Some (rowdict !! x) /\ x ∉ fieldnames.
Proof.
  intros Hk Hnot. unfold dict_to_list.
  pose proof (wrong_fields_elem_of fieldnames rowdict) as Hspec.
  set (wrong := filter (fun k => k ∉ fieldnames) (map fst (map_to_list rowdict))) in *.
  destruct wrong as [|x0 wrong'] eqn:E.
  - exfalso. assert (H : k ∈ @nil string) by (apply Hspec; eauto).
    now apply not_elem_of_nil in H.
  - eauto.
Qed.

(** X12: a dictionary with a key that is not one of the four column
    names makes [scrivi_log_csv] raise [ValueError] with exactly the
    keys that are not column names.  The file is open by then: a
    ledger that was there is left as it was, and a ledger that was not
    there is left behind holding the header row alone. *)
Theorem scrivi_log_csv_extra_key (file_info : gmap string pyval) (csv_path : string)
    (w w1 : world) (f : key) (k : string) (v : pyval) :
  file_info !! k = Some v -> k ∉ intestazioni ->
  open_append csv_path w = (w1, Return f) ->
  exists w' wrong_fields,
    scrivi_log_csv file_info csv_path w = (w', Raise (ValueError wrong_fields)) /\
    (forall x, x ∈ wrong_fields <-> is_Some (file_info !! x) /\ x ∉ intestazioni) /\
    match stat csv_path w with
    | Return _ => w' = w
    | Raise _ => stat csv_path w' = Return (File header_text)
    end.
Proof.
  intros Hk Hnot Hopen.
  destruct (dict_to_list_Raise _ _ _ _ Hk Hnot) as (ws & Hd & Hws).
  rewrite scrivi_log_csv_steps, Hopen, Hd. cbv zeta.
  eexists _, ws. split; [reflexivity|]. split; [assumption|].
  destruct (stat csv_path w) as [n|e] eqn:Hs.
  - unfold open_append, opening in Hopen. unfold stat in Hs.
    destruct (String.eqb csv_path ""); [discriminate Hs|].
    destruct (node_at w (resolve csv_path)) as [[d|]|]; try discriminate.
    destruct (proper_name (PosixPath.basename csv_path)); [|discriminate Hs].
    now injection Hopen as <- _.
  - destruct (open_append_new _ _ _ _ _ Hs Hopen) as (-> & -> & Hs1).
    apply stat_File in Hs1 as (Hp & Hn & Hb). apply node_at_File in Hn as [Hkk Hl].
    rewrite (write_File _ _ _ _ header_text_encodable Hl). cbn [fst]. apply stat_File.
    split; [assumption|]. split; [|assumption].
    rewrite (node_at_lookup _ _ Dir Hkk). now rewrite lookup_insert_eq.
Qed.

(** An [open] that raises has changed nothing and raises an
    [OSError]. *)
Lemma open_append_Raise (p : string) (w w1 : world) (e : exn) :
  open_append p w = (w1, Raise e) ->
  w1 = w /\ opening p w = Raise e /\ is_OSError e = true.
Proof.
  unfold open_append. destruct (opening p w) as [[old|]|e1] eqn:Ho; try discriminate.
  intros [= <- <-]. split; [reflexivity|]. split; [reflexivity|].
  unfold opening in Ho. repeat case_match; simplify_eq; reflexivity.
Qed.

(** X13: when the ledger cannot be opened for appending,
    [scrivi_log_csv] raises the error of [open], an [OSError], and
    nothing has been written or created.  The error is
    [IsADirectoryError] for a ledger path that is a directory, and
    also for a path that ends with a separator after the name of an
    entry that is or could be there.  For a ledger that is not there,
    named [name] in [dir], it is decided by [dir]:
    [NotADirectoryError] when [dir] is a regular file,
    [FileNotFoundError] when [dir] is not there, unless a regular file
    is on the way to it, which gives [NotADirectoryError] again; when
    [dir] is a directory the ledger is opened. *)
Theorem scrivi_log_csv_cannot_open (file_info : gmap string pyval) (csv_path : string)
    (w : world) :
  (forall w1 e,
     open_append csv_path w = (w1, Raise e) ->
     scrivi_log_csv file_info csv_path w = (w, Raise e) /\ is_OSError e = true) /\
  (stat csv_path w = Return Dir ->
   scrivi_log_csv file_info csv_path w = (w, Raise (IsADirectoryError csv_path))) /\
  (forall dir name,
     dir <> "" -> entry_name name = true ->
     (csv_path = PosixPath.join dir name ++ "/" ->
      stat dir w = Return Dir ->
      scrivi_log_csv file_info csv_path w = (w, Raise (IsADirectoryError csv_path))) /\
     (csv_path = PosixPath.join dir name ->
      (exists e, stat csv_path w = Raise e) ->
      match node_at w (resolve dir) with
      | Some Dir =>
          open_append csv_path w
          = (<[resolve csv_path := File ""]> w, Return (resolve csv_path))
      | Some (File _) =>
          scrivi_log_csv file_info csv_path w = (w, Raise (NotADirectoryError csv_path))
      | None =>
          scrivi_log_csv file_info csv_path w
          = (w, Raise (if beyond_file w (fst (resolve dir)) (snd (resolve dir))
                       then NotADirectoryError csv_path
                       else FileNotFoundError csv_path))
      end)).
Proof.
  assert (Hopen : forall e, opening csv_path w = Raise e ->
                            scrivi_log_csv file_info csv_path w = (w, Raise e)).
  { intros e Ho. rewrite scrivi_log_csv_steps. unfold open_append. now rewrite Ho. }
  split; [|split].
  - intros w1 e Ho. apply open_append_Raise in Ho as (_ & Ho & He). auto.
  - intros Hs. apply Hopen. apply stat_Dir in Hs as [Hp Hn].
    unfold opening. apply String.eqb_neq in Hp. now rewrite Hp, Hn.
  - intros dir name Hd Hname.
    pose proof (join_nonempty dir name Hd) as Hj.
    pose proof (resolve_join _ _ Hd Hname) as Hk.
    pose proof (basename_join _ _ Hd Hname) as Hb.
    pose proof (rstrip_join _ _ Hd Hname) as Hst.
    pose proof (entry_name_spec _ Hname) as (_ & Hp & _).
    split.
    + intros -> Hs. apply Hopen. apply stat_Dir in Hs as [_ Hn].
      set (p := PosixPath.join dir name) in *.
      assert (Hstrip : Str.rstrip PosixPath.sep (p ++ "/") = p).
      { change (p ++ "/") with (p ++ String PosixPath.sep "").
        now rewrite rstrip_app_sep. }
      assert (Hres : resolve (p ++ "/") = resolve p).
      { rewrite <- Hstrip at 2. symmetry. apply resolve_rstrip. now rewrite Hstrip. }
      assert (Hbase : PosixPath.basename (p ++ "/") = "").
      { unfold PosixPath.basename.
        change (p ++ "/") with (p ++ String PosixPath.sep "").
        now rewrite (rpartition_app_sep PosixPath.sep p "" eq_refl). }
      unfold opening. rewrite Hstrip, Hres, Hbase, Hb, Hp, Hk.
      unfold parent. cbn [fst snd tl]. rewrite <- surjective_pairing, Hn.
      assert (Hne : String.eqb (p ++ "/") "" = false).
      { apply String.eqb_neq. destruct p; discriminate. }
      rewrite Hne. change (proper_name "") with false.
      destruct (node_at w (fst (resolve dir), name :: snd (resolve dir)))
        as [[old|]|]; reflexivity.
    + intros -> [e Hs].
      pose proof (stat_Raise_name _ _ _ Hs Hj) as Hnone. rewrite Hb in Hnone.
      specialize (Hnone Hp).
      assert (Ho : opening (PosixPath.join dir name) w
                   = match node_at w (resolve dir) with
                     | Some Dir => Return None
                     | Some (File _) => Raise (NotADirectoryError (PosixPath.join dir name))
                     | None =>
                         Raise (if beyond_file w (fst (resolve dir)) (snd (resolve dir))
                                then NotADirectoryError (PosixPath.join dir name)
                                else FileNotFoundError (PosixPath.join dir name))
                     end).
      { unfold opening. apply String.eqb_neq in Hj. rewrite Hj, Hnone, Hb, Hp, Hk.
        unfold parent. cbn [fst snd tl]. rewrite <- surjective_pairing.
        destruct (node_at w (resolve dir)) as [[old|]|]; try reflexivity.
        now destruct (beyond_file _ _ _). }
      destruct (node_at w (resolve dir)) as [[old|]|].
      * now apply Hopen.
      * unfold open_append. now rewrite Ho.
      * now apply Hopen.
Qed.

End LedgerEdges.

(** ** More about the orchestrator *)

Section OrchestratorRuns.

Import OS Csv.

Variable guess_type : string -> option string.
Variable isprintable : N -> bool.

(** No category is the name of the ledger. *)
Lemma classifica_file_not_recap (mime : option string) (categoria : string) :
  classifica_file mime = Some categoria -> categoria <> "recap.csv".
Proof.
  unfold classifica_file. destruct mime as [m|]; [|discriminate].
  repeat case_match; intros [= <-]; discriminate.
Qed.

(** Opening a ledger that is not there, in a directory that is. *)
Lemma open_append_absent (p : string) (w : world) :
  p <> "" -> node_at w (resolve p) = None ->
  proper_name (PosixPath.basename p) = true ->
  node_at w (parent (resolve p)) = Some Dir ->
  open_append p w = (<[resolve p := File ""]> w, Return (resolve p)).
Proof.
  intros Hp Hn Hb Hpar. unfold open_append, opening.
  apply String.eqb_neq in Hp. now rewrite Hp, Hn, Hb, Hpar.
Qed.

(** The first call on a ledger that is not there yet: the header is
    written, then the record is. *)
Lemma scrivi_log_csv_absent (filename mime_type : string) (size : Z)
    (nuovo_percorso csv_path : string) (w : world) :
  csv_path <> "" -> node_at w (resolve csv_path) = None ->
  proper_name (PosixPath.basename csv_path) = true ->
  node_at w (parent (resolve csv_path)) = Some Dir ->
  scrivi_log_csv (file_info filename mime_type size nuovo_percorso) csv_path w
  = write (resolve csv_path)
          (writerow_text [PyStr filename; PyStr mime_type; PyInt size;
                          PyStr nuovo_percorso])
          (<[resolve csv_path := File header_text]> w).
Proof.
  intros Hp Hn Hb Hpar.
  rewrite scrivi_log_csv_steps, (open_append_absent _ _ Hp Hn Hb Hpar).
  rewrite dict_to_list_file_info. cbv zeta.
  assert (Hs : exists e, stat csv_path w = Raise e).
  { unfold stat. apply String.eqb_neq in Hp. rewrite Hp, Hn. eauto. }
  destruct Hs as [e ->].
  rewrite (write_File _ header_text "" _ header_text_encodable)
    by apply lookup_insert_eq.
  cbn [fst]. now rewrite insert_insert_eq.
Qed.

(** A run that relocates the file: what it leaves and how it ends,
    whether the ledger could be written or not. *)
Lemma main_moved_run (folder_path filename categoria : string) (w : world)
    (data : string) :
  stat folder_path w = Return Dir ->
  entry_name filename = true -> filename <> "recap.csv" ->
  let file_path := PosixPath.join folder_path filename in
  let csv_path := PosixPath.join folder_path "recap.csv" in
  let mime_type := match guess_type file_path with
                   | None => tipo_sconosciuto
                   | Some mime_type => mime_type
                   end in
  stat file_path w = Return (File data) ->
  classifica_file (Some mime_type) = Some categoria ->
  let dir := PosixPath.join folder_path categoria in
  let dst := PosixPath.join dir filename in
  stat dir w = Return Dir \/ (exists e, stat dir w = Raise e) ->
  stat dst w <> Return Dir ->
  let size := Z.of_nat (String.length data) in
  let wm := moved file_path dir dst data w in
  let logged := scrivi_log_csv (file_info filename mime_type size dst) csv_path wm in
  sposta_file file_path folder_path categoria w = (wm, Return dst) /\
  main guess_type isprintable folder_path filename w
  = {| run_fs := fst logged;
       run_stdout :=
         (match snd logged with
          | Raise e =>
              [("Errore durante la scrittura del log nel file "
                  ++ quoted csv_path ++ ": " ++ str_exn isprintable e)%string]
          | Return _ => []
          end ++ riepilogo filename mime_type size categoria dst csv_path)%list;
       run_end := Returned |} /\
  stat dst (fst logged) = Return (File data) /\
  stat file_path (fst logged) = Raise (FileNotFoundError file_path) /\
  stat folder_path (fst logged) = Return Dir /\
  stat csv_path wm = stat csv_path w /\
  node_at wm (parent (resolve csv_path)) = Some Dir.
Proof.
  intros Hroot Hf Hnr file_path csv_path mime_type Hs Hc dir dst Hdir Hdst size wm logged.
  pose proof (classifica_file_entry_name _ _ Hc) as Hcat.
  pose proof (classifica_file_not_recap _ _ Hc) as Hcr.
  pose proof Hroot as Hroot'. apply stat_Dir in Hroot' as [Hr Hnroot].
  destruct (main_keys folder_path filename categoria Hr Hf Hcat)
    as (Hks & Hkdir & Hkdst & Hkcsv & Hbase & Hdne & Hdstne & Hbdir & Hbdst).
  fold file_path csv_path dir in Hks, Hkdir, Hkdst, Hkcsv, Hbase, Hdne, Hdstne, Hbdir, Hbdst.
  fold dst in Hkdst, Hdstne, Hbdst.
  set (i := fst (resolve folder_path)) in *.
  set (L := snd (resolve folder_path)) in *.
  pose proof (entry_name_spec _ Hf) as (_ & Hpf & _).
  assert (Hdir' : node_at w (resolve dir) = None \/ node_at w (resolve dir) = Some Dir).
  { destruct Hdir as [Hd|[e' Hd]]; [right; now apply stat_Dir in Hd|left].
    apply (stat_Raise_name _ _ _ Hd Hdne). rewrite Hbdir.
    now apply entry_name_spec in Hcat as (_ & Hpc & _). }
  pose proof (stat_not_Dir _ _ Hdstne Hdst) as Hdst'.
  assert (Hmv : sposta_file file_path folder_path categoria w = (wm, Return dst)).
  { pose proof (sposta_file_moves file_path folder_path categoria w data Hs Hroot Hcat)
      as H. cbv zeta in H. fold dir in H. rewrite Hbase in H. fold dst in H.
    now apply H. }
  pose proof (moved_after _ _ _ _ _ Hs Hroot Hcat Hdir') as Hafter.
  cbv zeta in Hafter. fold dir in Hafter. rewrite Hbase in Hafter.
  fold dst wm in Hafter. destruct Hafter as (Hm1 & Hm2 & Hm3 & Hm4).
  assert (Hne_src : resolve csv_path <> resolve file_path)
    by (rewrite Hkcsv, Hks; congruence).
  assert (Hne_dir : resolve csv_path <> resolve dir)
    by (rewrite Hkcsv, Hkdir; congruence).
  assert (Hne_dst : resolve csv_path <> resolve dst)
    by (rewrite Hkcsv, Hkdst; key_neq).
  assert (Hne_sd : resolve file_path <> resolve dst)
    by (rewrite Hks, Hkdst; key_neq).
  assert (Hkc : snd (resolve csv_path) <> []) by (rewrite Hkcsv; discriminate).
  assert (Hcsv_m : node_at wm (resolve csv_path) = node_at w (resolve csv_path)).
  { rewrite !(node_at_lookup _ _ Dir Hkc). now apply Hm4. }
  assert (Hfolder : node_at wm (resolve folder_path) = Some Dir).
  { destruct L as [|x L'] eqn:EL; [unfold node_at; fold L; now rewrite EL|].
    assert (Hkl : snd (resolve folder_path) <> []) by (fold L; rewrite EL; discriminate).
    rewrite (node_at_lookup _ _ Dir Hkl), Hm4.
    - now rewrite <- (node_at_lookup _ _ Dir Hkl).
    - rewrite Hkdst, (surjective_pairing (resolve folder_path)). fold i L.
      rewrite EL. key_neq.
    - rewrite Hks, (surjective_pairing (resolve folder_path)). fold i L.
      rewrite EL. key_neq.
    - rewrite Hkdir, (surjective_pairing (resolve folder_path)). fold i L.
      rewrite EL. key_neq. }
  assert (Hframe : forall k, k <> resolve csv_path -> fst logged !! k = wm !! k).
  { intros k Hk. unfold logged.
    destruct (scrivi_log_csv _ csv_path wm) as [w2 r2] eqn:Hlog.
    exact (scrivi_log_csv_frame _ _ _ _ _ Hlog k Hk). }
  assert (Hnode : forall k, k <> resolve csv_path ->
                            node_at (fst logged) k = node_at wm k).
  { intros k Hk. unfold node_at. destruct (snd k); [reflexivity | now apply Hframe]. }
  split; [exact Hmv|]. split; [|split; [|split; [|split; [|split]]]].
  - unfold main. fold file_path csv_path.
    rewrite (get_mime_type_File _ _ _ _ Hs). fold mime_type size.
    rewrite Hc, Hmv. fold logged. destruct logged as [w2 [[]|e]]; reflexivity.
  - rewrite <- Hm1. apply stat_node_at. apply Hnode. congruence.
  - rewrite <- (Hm3 Hne_sd). apply stat_node_at. apply Hnode. congruence.
  - apply stat_Dir. split; [assumption|]. rewrite Hnode; [assumption|].
    rewrite Hkcsv, (surjective_pairing (resolve folder_path)). fold i L. key_neq.
  - now apply stat_node_at.
  - rewrite Hkcsv. unfold parent. cbn [fst snd tl].
    replace (i, L) with (resolve folder_path) by (symmetry; apply surjective_pairing).
    exact Hfolder.
Qed.


(** A run that succeeds, and what it leaves. *)
Lemma main_success_run (folder_path filename categoria : string) (w : world)
    (data : string) :
  stat folder_path w = Return Dir ->
  entry_name filename = true -> filename <> "recap.csv" ->
  let file_path := PosixPath.join folder_path filename in
  let csv_path := PosixPath.join folder_path "recap.csv" in
  let mime_type := match guess_type file_path with
                   | None => tipo_sconosciuto
                   | Some mime_type => mime_type
                   end in
  stat file_path w = Return (File data) ->
  classifica_file (Some mime_type) = Some categoria ->
  let dir := PosixPath.join folder_path categoria in
  let dst := PosixPath.join dir filename in
  stat dir w = Return Dir \/ (exists e, stat dir w = Raise e) ->
  stat dst w <> Return Dir ->
  stat csv_path w <> Return Dir ->
  Utf8.encodable folder_path = true -> Utf8.encodable filename = true ->
  Utf8.encodable mime_type = true ->
  let size := Z.of_nat (String.length data) in
  let r := main guess_type isprintable folder_path filename w in
  outcome_of guess_type folder_path filename w = Success /\
  run_stdout r = riepilogo filename mime_type size categoria dst csv_path /\
  run_end r = Returned /\
  stat dst (run_fs r) = Return (File data) /\
  stat file_path (run_fs r) = Raise (FileNotFoundError file_path) /\
  stat folder_path (run_fs r) = Return Dir /\
  stat csv_path (run_fs r)
  = Return (File (match stat csv_path w with
                  | Return (File old) => old
                  | _ => header_text
                  end
                  ++ writerow_text [PyStr filename; PyStr mime_type; PyInt size;
                                    PyStr dst])).
Proof.
  intros Hroot Hf Hnr file_path csv_path mime_type Hs Hc dir dst Hdir Hdst Hcsv
         Hufolder Hufile Humime size r.
  destruct (main_moved_run folder_path filename categoria w data Hroot Hf Hnr Hs Hc
              Hdir Hdst) as (Hmv & Hmain & H1 & H2 & H3 & Hcsv_m & Hpar).
  fold file_path csv_path mime_type dir dst size in Hmv, Hmain, H1, H2, H3, Hcsv_m, Hpar.
  set (wm := moved file_path dir dst data w) in *.
  pose proof Hroot as Hroot'. apply stat_Dir in Hroot' as [Hr _].
  assert (Hcne : csv_path <> "") by now apply join_nonempty.
  assert (Hbcsv : PosixPath.basename csv_path = "recap.csv")
    by now apply basename_join.
  set (record := writerow_text [PyStr filename; PyStr mime_type; PyInt size; PyStr dst]).
  assert (Hrec : Utf8.surrogates record = None).
  { apply writerow_text_encodable; try assumption.
    apply encodable_join; [apply encodable_join|]; try assumption.
    unfold classifica_file in Hc. repeat case_match; simplify_eq; reflexivity. }
  set (text := match stat csv_path w with
               | Return (File old) => old
               | _ => header_text
               end ++ record).
  assert (Hlog : scrivi_log_csv (file_info filename mime_type size dst) csv_path wm
                 = (<[resolve csv_path := File text]> wm, Return tt)).
  { unfold text. destruct (stat csv_path w) as [[old|]|e] eqn:Hst.
    - rewrite (scrivi_log_csv_existing _ _ _ _ Hcsv_m), dict_to_list_file_info.
      apply stat_File in Hcsv_m as (_ & Hn & _). apply node_at_File in Hn as [_ Hl].
      now apply write_File.
    - congruence.
    - rewrite scrivi_log_csv_absent; try assumption.
      + fold record. rewrite (write_File _ _ header_text _ Hrec)
          by apply lookup_insert_eq.
        now rewrite insert_insert_eq.
      + apply (stat_Raise_name _ _ _ Hcsv_m Hcne). now rewrite Hbcsv.
      + now rewrite Hbcsv. }
  rewrite Hlog in Hmain, H1, H2, H3. cbn [fst snd app] in Hmain, H1, H2, H3.
  split; [|unfold r; rewrite Hmain; cbn [run_fs run_stdout run_end];
           split; [reflexivity|]; split; [reflexivity|];
           split; [assumption|]; split; [assumption|]; split; [assumption|]].
  - unfold outcome_of. fold file_path csv_path.
    rewrite (get_mime_type_File _ _ _ _ Hs). fold mime_type size.
    now rewrite Hc, Hmv, Hlog.
  - apply stat_File. split; [assumption|]. split; [|now rewrite Hbcsv].
    apply node_at_insert_eq.
    pose proof (resolve_join folder_path "recap.csv" Hr eq_refl) as Hk.
    fold csv_path in Hk. rewrite Hk. discriminate.
Qed.

(** X15: when [folder_path] is a directory, the entry [filename] in
    it a regular file of a recognized type other than the ledger, the
    category path free or a directory, the destination not a
    directory, the ledger path not a directory, and the path of the
    directory, the name of the file and its media type are valid
    UTF-8, a run of [main] succeeds: it prints the summary alone and
    returns, the file is at [folder_path/categoria/filename] and no
    longer at its old path, and the ledger ends with the record of the
    name, the media type, the size in bytes of the contents and the
    new path, after the header when the run created the ledger. *)
Theorem main_succeeds (folder_path filename categoria : string) (w : world)
    (data : string) :
  stat folder_path w = Return Dir ->
  entry_name filename = true -> filename <> "recap.csv" ->
  let file_path := PosixPath.join folder_path filename in
  let csv_path := PosixPath.join folder_path "recap.csv" in
  let mime_type := match guess_type file_path with
                   | None => tipo_sconosciuto
                   | Some mime_type => mime_type
                   end in
  stat file_path w = Return (File data) ->
  classifica_file (Some mime_type) = Some categoria ->
  let dir := PosixPath.join folder_path categoria in
  let dst := PosixPath.join dir filename in
  stat dir w = Return Dir \/ (exists e, stat dir w = Raise e) ->
  stat dst w <> Return Dir ->
  stat csv_path w <> Return Dir ->
  Utf8.encodable folder_path = true -> Utf8.encodable filename = true ->
  Utf8.encodable mime_type = true ->
  let size := Z.of_nat (String.length data) in
  let r := main guess_type isprintable folder_path filename w in
  run_stdout r = riepilogo filename mime_type size categoria dst csv_path /\
  run_end r = Returned /\
  stat dst (run_fs r) = Return (File data) /\
  stat file_path (run_fs r) = Raise (FileNotFoundError file_path) /\
  stat csv_path (run_fs r)
  = Return (File (match stat csv_path w with
                  | Return (File old) => old
                  | _ => header_text
                  end
                  ++ writerow_text [PyStr filename; PyStr mime_type; PyInt size;
                                    PyStr dst])).
Proof.
  intros Hroot Hf Hnr file_path csv_path mime_type Hs Hc dir dst Hdir Hdst Hcsv
         Hu1 Hu2 Hu3 size r.
  destruct (main_success_run folder_path filename categoria w data Hroot Hf Hnr Hs Hc
              Hdir Hdst Hcsv Hu1 Hu2 Hu3) as (H1 & H2 & H3 & H4 & H5 & _ & H7).
  auto 10.
Qed.

(** X17: a run of [main] for an entry of [folder_path] that is a
    regular file, or is not there, touches at most five entries,
    whatever its outcome: the file, the ledger, the directory of the
    category of the file, the destination in it and, when the
    destination is a directory, its entry named like the file.  So no
    other category directory is made, and nothing outside
    [folder_path] changes, nor [folder_path] itself. *)
Theorem main_touches_only (folder_path filename : string) (w : world) :
  stat folder_path w = Return Dir ->
  entry_name filename = true ->
  let file_path := PosixPath.join folder_path filename in
  let csv_path := PosixPath.join folder_path "recap.csv" in
  let mime_type := match guess_type file_path with
                   | None => tipo_sconosciuto
                   | Some mime_type => mime_type
                   end in
  stat file_path w <> Return Dir ->
  let r := main guess_type isprintable folder_path filename w in
  (forall k : key,
     k <> resolve file_path -> k <> resolve csv_path ->
     (forall categoria,
        classifica_file (Some mime_type) = Some categoria ->
        let dir := PosixPath.join folder_path categoria in
        let dst := PosixPath.join dir filename in
        k <> resolve dir /\ k <> resolve dst /\ k <> resolve (PosixPath.join dst filename)) ->
     run_fs r !! k = w !! k) /\
  (forall k : key,
     (forall below, below <> [] ->
                    k <> (fst (resolve folder_path), below ++ snd (resolve folder_path))%list) ->
     run_fs r !! k = w !! k).
Proof.
  intros Hroot Hf file_path csv_path mime_type Hnd r.
  pose proof Hroot as Hroot'. apply stat_Dir in Hroot' as [Hr Hnroot].
  assert (Hfirst : forall k : key,
             k <> resolve file_path -> k <> resolve csv_path ->
             (forall categoria,
                classifica_file (Some mime_type) = Some categoria ->
                let dir := PosixPath.join folder_path categoria in
                let dst := PosixPath.join dir filename in
                k <> resolve dir /\ k <> resolve dst
                /\ k <> resolve (PosixPath.join dst filename)) ->
             run_fs r !! k = w !! k).
  { intros k Hk1 Hk2 Hk3. unfold r, main. fold file_path.
    destruct (stat file_path w) as [[data|]|e] eqn:Hs; [|congruence|].
    - rewrite (get_mime_type_File _ _ _ _ Hs). fold mime_type.
      destruct (classifica_file (Some mime_type)) as [c|] eqn:Hc; [|reflexivity].
      pose proof (classifica_file_entry_name _ _ Hc) as Hcat.
      destruct (Hk3 c eq_refl) as (Hk4 & Hk5 & Hk6).
      pose proof (basename_join _ _ Hr Hf) as Hbase. fold file_path in Hbase.
      destruct (sposta_file file_path folder_path c w) as [w1 r1] eqn:Hm.
      pose proof (sposta_file_frame _ _ _ _ _ _ _ Hs Hroot Hcat Hm) as Hframe.
      cbv zeta in Hframe. rewrite Hbase in Hframe.
      assert (Hw1 : w1 !! k = w !! k) by now apply Hframe.
      destruct r1 as [np|e]; [|exact Hw1].
      destruct (scrivi_log_csv _ _ w1) as [w2 logged] eqn:Hlog. cbn [run_fs].
      rewrite <- Hw1. now apply (scrivi_log_csv_frame _ _ _ _ _ Hlog).
    - assert (Hg : get_mime_type guess_type file_path w = (w, Raise e)).
      { unfold get_mime_type, bind, path_getsize, lift. now rewrite Hs. }
      now rewrite Hg. }
  split; [exact Hfirst|].
  intros k Hk.
  set (i := fst (resolve folder_path)) in *. set (L := snd (resolve folder_path)) in *.
  assert (Hcsv : resolve csv_path = (i, "recap.csv" :: L))
    by now apply (resolve_join folder_path "recap.csv").
  apply Hfirst.
  - unfold file_path. rewrite (resolve_join _ _ Hr Hf). apply (Hk [filename]). discriminate.
  - rewrite Hcsv. apply (Hk ["recap.csv"]). discriminate.
  - intros c Hc dir dst. pose proof (classifica_file_entry_name _ _ Hc) as Hcat.
    destruct (main_keys folder_path filename c Hr Hf Hcat)
      as (_ & Hkdir & Hkdst & _ & _ & _ & Hdstne & _).
    fold dir dst i L in Hkdir, Hkdst, Hdstne.
    rewrite (resolve_join _ _ Hdstne Hf), Hkdir, Hkdst. cbn [fst snd].
    split; [apply (Hk [c]); discriminate|].
    split; [apply (Hk [filename; c]); discriminate|].
    apply (Hk [filename; filename; c]). discriminate.
Qed.

(** X18: two runs of [main] in a directory without a ledger, for two
    files that each can be moved, the path of the directory, the two
    names and the two media types valid UTF-8, leave a ledger of
    three rows: the header, written once by the first run, then the
    record of the first file and the record of the second, each with
    the name, the media type, the size and the new path of its
    file. *)
Theorem main_twice_ledger (folder_path f1 f2 c1 c2 : string) (w : world)
    (d1 d2 : string) :
  stat folder_path w = Return Dir ->
  entry_name f1 = true -> entry_name f2 = true -> f1 <> f2 ->
  f1 <> "recap.csv" -> f2 <> "recap.csv" ->
  let csv_path := PosixPath.join folder_path "recap.csv" in
  let p1 := PosixPath.join folder_path f1 in
  let p2 := PosixPath.join folder_path f2 in
  let mime_type p := match guess_type p with
                     | None => tipo_sconosciuto
                     | Some mime_type => mime_type
                     end in
  stat p1 w = Return (File d1) -> stat p2 w = Return (File d2) ->
  classifica_file (Some (mime_type p1)) = Some c1 ->
  classifica_file (Some (mime_type p2)) = Some c2 ->
  let dir1 := PosixPath.join folder_path c1 in
  let dir2 := PosixPath.join folder_path c2 in
  stat dir1 w = Return Dir \/ (exists e, stat dir1 w = Raise e) ->
  stat dir2 w = Return Dir \/ (exists e, stat dir2 w = Raise e) ->
  stat (PosixPath.join dir1 f1) w <> Return Dir ->
  stat (PosixPath.join dir2 f2) w <> Return Dir ->
  (exists e, stat csv_path w = Raise e) ->
  Utf8.encodable folder_path = true ->
  Utf8.encodable f1 = true -> Utf8.encodable f2 = true ->
  Utf8.encodable (mime_type p1) = true -> Utf8.encodable (mime_type p2) = true ->
  let r1 := main guess_type isprintable folder_path f1 w in
  let r2 := main guess_type isprintable folder_path f2 (run_fs r1) in
  run_end r1 = Returned /\ run_end r2 = Returned /\
  exists text,
    stat csv_path (run_fs r2) = Return (File text) /\
    CsvReader.reader text
    = [intestazioni;
       [f1; mime_type p1; str_int (Z.of_nat (String.length d1)); PosixPath.join dir1 f1];
       [f2; mime_type p2; str_int (Z.of_nat (String.length d2)); PosixPath.join dir2 f2]].
Proof.
  intros Hroot Hf1 Hf2 Hne Hr1 Hr2 csv_path p1 p2 mime_type Hs1 Hs2 Hc1 Hc2 dir1 dir2
         Hdir1 Hdir2 Hd1 Hd2 [e0 Hcsv] Hu Hu1 Hu2 Hum1 Hum2 r1 r2.
  pose proof (classifica_file_entry_name _ _ Hc1) as Hcat1.
  pose proof (classifica_file_entry_name _ _ Hc2) as Hcat2.
  pose proof (classifica_file_not_recap _ _ Hc1) as Hcr1.
  pose proof (classifica_file_not_recap _ _ Hc2) as Hcr2.
  pose proof Hroot as Hroot'. apply stat_Dir in Hroot' as [Hr Hnr].
  destruct (main_keys folder_path f1 c1 Hr Hf1 Hcat1)
    as (Hk1 & Hkdir1 & Hkd1 & Hkcsv & _ & Hdne1 & Hd1ne & Hbdir1 & _).
  destruct (main_keys folder_path f2 c2 Hr Hf2 Hcat2)
    as (Hk2 & Hkdir2 & Hkd2 & _ & Hb2 & Hdne2 & Hd2ne & Hbdir2 & _).
  fold csv_path p1 p2 dir1 dir2 in Hk1, Hk2, Hkdir1, Hkdir2, Hkd1, Hkd2, Hkcsv, Hb2,
                                   Hdne1, Hdne2, Hd1ne, Hd2ne, Hbdir1, Hbdir2.
  set (i := fst (resolve folder_path)) in *.
  set (L := snd (resolve folder_path)) in *.
  pose proof (entry_name_spec _ Hcat1) as (_ & Hpc1 & _).
  pose proof (entry_name_spec _ Hcat2) as (_ & Hpc2 & _).
  pose proof (entry_name_spec _ Hf2) as (_ & Hpf2 & _).
  assert (Hnd : forall dir c, resolve dir = (i, c :: L) -> dir <> "" ->
                PosixPath.basename dir = c -> proper_name c = true ->
                stat dir w = Return Dir \/ (exists e, stat dir w = Raise e) ->
                node_at w (i, c :: L) = None \/ node_at w (i, c :: L) = Some Dir).
  { intros dir c Hk Hd Hb Hp [H|[e H]]; rewrite <- Hk.
    - right. now apply stat_Dir in H.
    - left. apply (stat_Raise_name _ _ _ H Hd). now rewrite Hb. }
  pose proof (Hnd _ _ Hkdir1 Hdne1 Hbdir1 Hpc1 Hdir1) as Hdir1'.
  pose proof (Hnd _ _ Hkdir2 Hdne2 Hbdir2 Hpc2 Hdir2) as Hdir2'.
  assert (Hd1' : node_at w (i, f1 :: c1 :: L) <> Some Dir)
    by (rewrite <- Hkd1; now apply stat_not_Dir).
  assert (Hd2' : node_at w (i, f2 :: c2 :: L) <> Some Dir)
    by (rewrite <- Hkd2; now apply stat_not_Dir).
  (* the first run *)
  assert (Hcsv1 : stat csv_path w <> Return Dir) by (rewrite Hcsv; discriminate).
  destruct (main_success_run folder_path f1 c1 w d1 Hroot Hf1 Hr1 Hs1 Hc1 Hdir1 Hd1 Hcsv1
              Hu Hu1 Hum1)
    as (_ & _ & Hend1 & _ & _ & Hroot1 & Hledger1).
  fold csv_path p1 dir1 r1 in Hend1, Hroot1, Hledger1. rewrite Hcsv in Hledger1.
  destruct (main_relocates guess_type isprintable folder_path f1 c1 w d1 Hroot Hf1 Hs1 Hc1
              Hdir1' Hd1') as (_ & _ & Hdirn & Hframe).
  fold i L r1 in Hdirn, Hframe.
  (* the file system of the second run *)
  assert (Hs2n : w !! (i, f2 :: L) = Some (File d2)).
  { apply stat_File in Hs2 as (_ & Hn & _). rewrite Hk2 in Hn.
    now apply node_at_File in Hn as [_ Hn]. }
  assert (Hs1n : w !! (i, f1 :: L) = Some (File d1)).
  { apply stat_File in Hs1 as (_ & Hn & _). rewrite Hk1 in Hn.
    now apply node_at_File in Hn as [_ Hn]. }
  assert (Hf2c1 : f2 <> c1).
  { intros ->. unfold node_at in Hdir1'. cbn [snd] in Hdir1'.
    destruct Hdir1' as [H|H]; congruence. }
  assert (Hc2f1 : c2 <> f1).
  { intros ->. unfold node_at in Hdir2'. cbn [snd] in Hdir2'.
    destruct Hdir2' as [H|H]; congruence. }
  assert (Hs2' : stat p2 (run_fs r1) = Return (File d2)).
  { rewrite <- Hs2. apply stat_node_at. rewrite Hk2. unfold node_at. cbn [snd].
    apply Hframe; key_neq. }
  assert (Hdir2'' : stat dir2 (run_fs r1) = Return Dir
                    \/ (exists e, stat dir2 (run_fs r1) = Raise e)).
  { destruct (string_dec c2 c1) as [->|Hcc].
    - left. apply stat_Dir. split; [assumption|]. rewrite Hkdir2. exact Hdirn.
    - assert (E : stat dir2 (run_fs r1) = stat dir2 w).
      { apply stat_node_at. rewrite Hkdir2. unfold node_at. cbn [snd].
        apply Hframe; key_neq. }
      rewrite E. exact Hdir2. }
  assert (Hd2'' : stat (PosixPath.join dir2 f2) (run_fs r1) <> Return Dir).
  { assert (E : stat (PosixPath.join dir2 f2) (run_fs r1)
                = stat (PosixPath.join dir2 f2) w).
    { apply stat_node_at. rewrite Hkd2. unfold node_at. cbn [snd].
      apply Hframe; key_neq. }
    now rewrite E. }
  assert (Hcsv2 : stat csv_path (run_fs r1) <> Return Dir)
    by (rewrite Hledger1; discriminate).
  destruct (main_success_run folder_path f2 c2 (run_fs r1) d2 Hroot1 Hf2 Hr2 Hs2' Hc2
              Hdir2'' Hd2'' Hcsv2 Hu Hu2 Hum2)
    as (_ & _ & Hend2 & _ & _ & _ & Hledger2).
  fold csv_path p2 dir2 r2 in Hend2, Hledger2. rewrite Hledger1 in Hledger2.
  cbv beta iota in Hledger2.
  split; [assumption|]. split; [assumption|].
  eexists. split; [exact Hledger2|].
  set (row1 := [PyStr f1; PyStr (mime_type p1); PyInt (Z.of_nat (String.length d1));
                PyStr (PosixPath.join dir1 f1)]).
  set (row2 := [PyStr f2; PyStr (mime_type p2); PyInt (Z.of_nat (String.length d2));
                PyStr (PosixPath.join dir2 f2)]).
  transitivity (CsvReader.reader (header_text ++ ledger_text [row1; row2])).
  - f_equal. unfold ledger_text. cbn [fold_right]. rewrite sapp_nil_r, <- sapp_assoc.
    reflexivity.
  - rewrite reader_header_ledger. reflexivity.
Qed.

End OrchestratorRuns.

(** ** The relocation when the operating system refuses a call *)

Section Refusals.

Import OS Shutil.

Variable env : Faulty.environment.

(** A call is refused, with the error of the environment and nothing
    changed, or it is made. *)
Lemma guarded_cases {A : Type} (c : Faulty.call) (op : io A) (w : world) :
  Faulty.guarded env c op w = op w \/
  exists errno strerror,
    Faulty.guarded env c op w = (w, Raise (OSError errno strerror (Faulty.paths c))).
Proof.
  unfold Faulty.guarded. destruct (Faulty.refuses env c) as [[errno strerror]|];
    [right; eauto | now left].
Qed.

(** What fits is a beginning of the text. *)
Lemma substring_prefix (n : nat) (s : string) :
  exists rest, s = String.substring 0 n s ++ rest.
Proof.
  revert n. induction s as [|c s IH]; intros [|n]; cbn [String.substring].
  - now exists "".
  - now exists "".
  - now exists (String c s).
  - destruct (IH n) as [rest Hrest]. exists rest. cbn [append]. now rewrite <- Hrest.
Qed.

Lemma fits_prefix (size : nat) (text : string) :
  exists rest, text = Faulty.fits env size text ++ rest.
Proof.
  unfold Faulty.fits. destruct (Faulty.fsize env); [apply substring_prefix|].
  exists "". now rewrite sapp_nil_r.
Qed.

(** A [rename] that raises has changed nothing, refused or not. *)
Lemma rename_env_unchanged (src dst : string) (w w' : world) (e : exn) :
  Faulty.rename env src dst w = (w', Raise e) -> w' = w.
Proof.
  unfold Faulty.rename.
  destruct (stat src w) as [[data|]|e0];
    try apply rename_unchanged;
    (destruct (guarded_cases (Faulty.Rename src dst) (rename src dst) w)
       as [->|(errno & strerror & ->)];
     [apply rename_unchanged | now intros [= <- _]]).
Qed.

(** An [unlink] that raises has removed nothing. *)
Lemma unlink_env_unchanged (p : string) (w w' : world) (e : exn) :
  Faulty.unlink env p w = (w', Raise e) -> w' = w.
Proof.
  unfold Faulty.unlink.
  destruct (guarded_cases (Faulty.Unlink p) (unlink p) w)
    as [->|(errno & strerror & ->)]; [|now intros [= <- _]].
  unfold unlink. repeat case_match; intros; simplify_eq; reflexivity.
Qed.

(** [shutil.copyfile] of a regular file writes to its destination
    only, never to its source, and what it leaves there when it
    raises is a beginning of the contents of the source. *)
Lemma copyfile_env (src dst : string) (w w' : world) (r : result unit) (data : string) :
  stat src w = Return (File data) ->
  Faulty.copyfile env src dst w = (w', r) ->
  (r = Return tt -> w' = <[resolve dst := File data]> w /\ resolve dst <> resolve src) /\
  (w' = w \/
   (resolve dst <> resolve src /\
    exists written rest,
      data = written ++ rest /\ w' = <[resolve dst := File written]> w)).
Proof.
  intros Hs. unfold Faulty.copyfile. unfold bind at 1, samefile, observe. rewrite Hs.
  destruct (match stat dst w with
            | Return _ => bool_decide (resolve src = resolve dst)
            | Raise _ => false
            end) eqn:Hsame.
  { intros [= <- <-]. split; [discriminate | now left]. }
  unfold bind at 1.
  destruct (guarded_cases (Faulty.OpenRead src) (read_file src) w)
    as [->|(errno & strerror & ->)];
    [|intros [= <- <-]; split; [discriminate | now left]].
  unfold read_file at 1, lift. rewrite Hs.
  assert (Hhandler : forall e w2 r2,
             (ex <- path_exists dst ;;
              if negb ex then raise (DirectoryMissing dst) else raise e) w = (w2, r2) ->
             w2 = w /\ r2 <> Return tt).
  { intros e w2 r2. unfold bind, path_exists, observe, raise.
    destruct (negb _); intros [= <- <-]; split; (reflexivity || discriminate). }
  unfold try_except. unfold bind at 1.
  destruct (guarded_cases (Faulty.OpenWrite dst) (write_file dst "") w)
    as [->|(errno & strerror & ->)].
  2: { destruct (is_IsADirectoryError _).
       - intros H. apply Hhandler in H as [-> H]. split; [congruence | now left].
       - intros [= <- <-]. split; [discriminate | now left]. }
  unfold write_file. destruct (opening dst w) as [old|e1] eqn:Ho.
  2: { destruct (is_IsADirectoryError e1).
       - intros H. apply Hhandler in H as [-> H]. split; [congruence | now left].
       - intros [= <- <-]. split; [discriminate | now left]. }
  assert (Hne : resolve dst <> resolve src).
  { intros E. pose proof Hs as Hs'. apply stat_File in Hs' as (_ & Hn & _).
    assert (Hd : stat dst w = Return (File data)).
    { unfold opening in Ho. unfold stat. rewrite E, Hn in *.
      destruct (String.eqb dst ""); [discriminate Ho|]. cbv zeta in Ho.
      destruct (proper_name (PosixPath.basename dst)); [reflexivity|].
      destruct (proper_name (PosixPath.basename (Str.rstrip PosixPath.sep dst)));
        discriminate Ho. }
    rewrite Hd in Hsame. now rewrite bool_decide_eq_true_2 in Hsame. }
  unfold Faulty.fill. rewrite insert_insert_eq.
  destruct (fits_prefix 0 data) as [rest Hrest].
  destruct (String.eqb_spec (Faulty.fits env 0 data) data) as [E|E].
  - intros [= <- <-]. rewrite E. split; [auto|].
    right. split; [assumption|]. exists data, "". now rewrite sapp_nil_r.
  - cbn [is_IsADirectoryError]. change (27 =? 21)%Z with false. cbv iota.
    intros [= <- <-]. split; [discriminate|].
    right. split; [assumption|]. eauto.
Qed.

(** [shutil.copy2] onto a path that is not a directory: the same,
    whether the copy of the times and of the mode is refused or not. *)
Lemma copy2_env (src dst : string) (w w' : world) (r : result unit) (data : string) :
  stat src w = Return (File data) -> stat dst w <> Return Dir ->
  Faulty.copy2 env src dst w = (w', r) ->
  (r = Return tt -> w' = <[resolve dst := File data]> w /\ resolve dst <> resolve src) /\
  (w' = w \/
   (resolve dst <> resolve src /\
    exists written rest,
      data = written ++ rest /\ w' = <[resolve dst := File written]> w)).
Proof.
  intros Hs Hd. unfold Faulty.copy2. unfold bind at 1, path_isdir, observe.
  assert (Hisd : match stat dst w with Return Dir => true | _ => false end = false)
    by (destruct (stat dst w) as [[d|]|]; congruence).
  rewrite Hisd. unfold bind at 1.
  destruct (Faulty.copyfile env src dst w) as [w1 r1] eqn:Hcopy.
  destruct (copyfile_env _ _ _ _ _ _ Hs Hcopy) as [Hret Hfoot].
  destruct r1 as [[]|e1]; [|intros [= <- <-]; split; [discriminate | assumption]].
  destruct (Hret eq_refl) as [-> Hne].
  unfold Faulty.copystat. unfold bind at 1.
  destruct (guarded_cases (Faulty.Utime dst) (ret tt) (<[resolve dst := File data]> w))
    as [->|(errno & strerror & ->)];
    [|intros [= <- <-]; split; [discriminate | assumption]].
  unfold ret at 1.
  destruct (guarded_cases (Faulty.Chmod dst) (ret tt) (<[resolve dst := File data]> w))
    as [->|(errno & strerror & ->)];
    intros [= <- <-]; split; auto; discriminate.
Qed.

(** The two ways of [shutil.move] to put a regular file at [d]: when
    they raise, the source is as it was, and [d] is as it was or
    holds a beginning of the contents of the source. *)
Lemma move_env_fallback (src d : string) (w w' : world) (data : string) (e : exn) :
  stat src w = Return (File data) -> stat d w <> Return Dir ->
  (try_except (Faulty.rename env src d) is_OSError
              (fun _ => Faulty.copy2 env src d ;;; Faulty.unlink env src) ;;; ret d) w
  = (w', Raise e) ->
  w' = w \/
  (resolve d <> resolve src /\
   exists written rest, data = written ++ rest /\ w' = <[resolve d := File written]> w).
Proof.
  intros Hs Hd. unfold bind at 1, try_except.
  destruct (Faulty.rename env src d w) as [w1 [[]|e1]] eqn:Hren; [discriminate|].
  pose proof (rename_env_unchanged _ _ _ _ _ Hren) as ->.
  destruct (is_OSError e1); [|intros [= <- _]; now left].
  unfold bind at 1.
  destruct (Faulty.copy2 env src d w) as [w1 r1] eqn:Hcopy.
  destruct (copy2_env _ _ _ _ _ _ Hs Hd Hcopy) as [Hret Hfoot].
  destruct r1 as [[]|e2]; [|now intros [= <- _]].
  destruct (Faulty.unlink env src w1) as [w2 [[]|e2]] eqn:Hun; [discriminate|].
  apply unlink_env_unchanged in Hun as ->. now intros [= <- _].
Qed.

(** [shutil.move] of a regular file that raises. *)
Lemma move_env_Raise (src dst : string) (w w' : world) (data : string) (e : exn) :
  stat src w = Return (File data) ->
  Faulty.move env src dst w = (w', Raise e) ->
  exists target,
    (target = dst \/ target = PosixPath.join dst (PosixPath.basename src)) /\
    (w' = w \/
     (resolve target <> resolve src /\
      exists written rest,
        data = written ++ rest /\ w' = <[resolve target := File written]> w)).
Proof.
  intros Hs. unfold Faulty.move. unfold bind at 1, path_isdir, observe.
  destruct (stat dst w) as [[d|]|e0] eqn:Hd;
    try (intros H; exists dst; split; [now left|]; revert H;
         apply (move_env_fallback _ _ _ _ _ _ Hs); rewrite Hd; discriminate).
  unfold bind at 1, samefile, observe. rewrite Hs, Hd.
  destruct (bool_decide (resolve src = resolve dst)) eqn:Hsame.
  { apply bool_decide_eq_true in Hsame.
    apply stat_File in Hs as (_ & Hn & _). apply stat_Dir in Hd as (_ & Hn').
    congruence. }
  pose proof Hs as Hs'. apply stat_File in Hs' as (_ & _ & Hb).
  unfold _basename. rewrite (rstrip_proper_basename _ Hb).
  unfold bind at 1, path_exists, observe.
  destruct (stat (PosixPath.join dst (PosixPath.basename src)) w) as [n|e1] eqn:Hreal.
  - intros [= <- _]. exists dst. split; now left.
  - intros H. exists (PosixPath.join dst (PosixPath.basename src)).
    split; [now right|]. revert H. apply (move_env_fallback _ _ _ _ _ _ Hs).
    rewrite Hreal. discriminate.
Qed.

(** [os.makedirs] for an entry of a directory that is there: one
    [mkdir], which the environment may refuse. *)
Lemma makedirs_env_entry (root cat : string) (w : world) :
  stat root w = Return Dir -> entry_name cat = true ->
  node_at w (resolve (PosixPath.join root cat)) = None ->
  Faulty.makedirs env (PosixPath.join root cat) w
  = Faulty.guarded env (Faulty.Mkdir (PosixPath.join root cat))
      (fun w => (<[resolve (PosixPath.join root cat) := Dir]> w, Return tt)) w.
Proof.
  intros Hroot Hcat Hnone. apply stat_Dir in Hroot as [Hr Hn].
  destruct (split_join root cat Hr Hcat) as (h & Hsplit & Hh & Hres).
  pose proof (entry_name_spec _ Hcat) as (_ & Hp & Hne & _).
  unfold Faulty.makedirs. cbn [Faulty.makedirs_rec]. rewrite Hsplit.
  assert (Hstat : stat h w = Return Dir).
  { apply stat_Dir. split; [assumption | now rewrite Hres]. }
  apply String.eqb_neq in Hne, Hh. rewrite Hne. cbv beta iota.
  rewrite Hne, Hh. cbn [negb andb].
  unfold bind at 1. unfold bind at 1.
  unfold path_exists, observe. rewrite Hstat. cbn [negb]. unfold ret.
  unfold Faulty.mkdir, Faulty.guarded.
  destruct (Faulty.refuses env _) as [[errno strerror]|]; [reflexivity|].
  unfold mkdir, create.
  pose proof (join_nonempty root cat Hr) as Hj. apply String.eqb_neq in Hj.
  rewrite Hj, Hnone, (rstrip_join _ _ Hr Hcat), (basename_join _ _ Hr Hcat), Hp.
  rewrite (resolve_join _ _ Hr Hcat). unfold parent. cbn [fst snd tl].
  rewrite <- surjective_pairing, Hn. reflexivity.
Qed.

(** [sposta_file] that raises: the category directory may have been
    made, and the destination may hold a beginning of the file. *)
Lemma sposta_file_env_Raise (file_path folder_path categoria : string)
    (w w' : world) (data : string) (e : exn) :
  stat file_path w = Return (File data) ->
  stat folder_path w = Return Dir ->
  entry_name categoria = true ->
  let dir := PosixPath.join folder_path categoria in
  let dst := PosixPath.join dir (PosixPath.basename file_path) in
  let real_dst := PosixPath.join dst (PosixPath.basename file_path) in
  Faulty.sposta_file env file_path folder_path categoria w = (w', Raise e) ->
  exists w1 target,
    (w1 = w \/ (w !! resolve dir = None /\ w1 = <[resolve dir := Dir]> w)) /\
    (target = dst \/ target = real_dst) /\
    (w' = w1 \/
     (resolve target <> resolve file_path /\
      exists written rest,
        data = written ++ rest /\ w' = <[resolve target := File written]> w1)).
Proof.
  intros Hs Hroot Hcat dir dst real_dst.
  pose proof Hroot as Hroot'. apply stat_Dir in Hroot' as [Hr Hnr].
  destruct (sposta_file_paths _ _ _ _ _ Hs Hr Hcat)
    as (Hdne & Hdstne & Hname & Hbdir & Hbdst & Hkdir & Hkdst).
  fold dir dst in Hdne, Hdstne, Hbdir, Hbdst, Hkdir, Hkdst.
  pose proof (entry_name_spec _ Hcat) as (_ & Hpc & _).
  pose proof Hs as Hs'. apply stat_File in Hs' as (_ & Hnsrc & _).
  apply node_at_File in Hnsrc as [Hsrc1 Hsrc2].
  unfold Faulty.sposta_file. fold dir dst.
  unfold bind at 1, path_exists, observe.
  assert (Hmove : forall w1,
             stat file_path w1 = Return (File data) ->
             (w1 = w \/ (w !! resolve dir = None /\ w1 = <[resolve dir := Dir]> w)) ->
             (Faulty.move env file_path dst ;;; ret dst) w1 = (w', Raise e) ->
             exists w1 target,
               (w1 = w \/ (w !! resolve dir = None /\ w1 = <[resolve dir := Dir]> w)) /\
               (target = dst \/ target = real_dst) /\
               (w' = w1 \/
                (resolve target <> resolve file_path /\
                 exists written rest,
                   data = written ++ rest /\ w' = <[resolve target := File written]> w1))).
  { intros w1 Hs1 Hw1. unfold bind at 1.
    destruct (Faulty.move env file_path dst w1) as [w2 [np|e2]] eqn:Hm; [discriminate|].
    intros [= <- <-].
    destruct (move_env_Raise _ _ _ _ _ _ Hs1 Hm) as (target & Ht & Hfoot).
    exists w1, target. auto. }
  destruct (stat dir w) as [n|e0] eqn:Hd; cbn [negb].
  - unfold bind at 1, ret at 1. apply Hmove; [assumption | now left].
  - assert (Hnone : node_at w (resolve dir) = None).
    { apply (stat_Raise_name _ _ _ Hd Hdne). now rewrite Hbdir. }
    unfold bind at 1. unfold dir at 1.
    rewrite (makedirs_env_entry _ _ _ Hroot Hcat Hnone). fold dir.
    unfold Faulty.guarded.
    destruct (Faulty.refuses env _) as [[errno strerror]|].
    + intros [= <- _]. exists w, dst. auto.
    + apply node_at_None in Hnone as [_ Hl].
      apply Hmove; [|now right].
      rewrite <- Hs. apply stat_node_at. apply node_at_insert_ne. congruence.
Qed.

End Refusals.

(** ** The environment that refuses nothing *)

Section Calm.

Import OS Shutil.

Lemma bind_ext {A B : Type} (c c' : io A) (k k' : A -> io B) (w : world) :
  c w = c' w -> (forall a w1, k a w1 = k' a w1) -> bind c k w = bind c' k' w.
Proof. intros Hc Hk. unfold bind. rewrite Hc. destruct (c' w) as [w1 [a|e]]; auto. Qed.

Lemma try_except_ext {A : Type} (c c' : io A) (catches : exn -> bool)
    (h h' : exn -> io A) (w : world) :
  c w = c' w -> (forall e w1, h e w1 = h' e w1) ->
  try_except c catches h w = try_except c' catches h' w.
Proof.
  intros Hc Hh. unfold try_except. rewrite Hc.
  destruct (c' w) as [w1 [a|e]]; [reflexivity|]. destruct (catches e); auto.
Qed.

Lemma makedirs_rec_calm (depth : nat) (name : string) (w : world) :
  Faulty.makedirs_rec Faulty.calm depth name w = makedirs_rec depth name w.
Proof.
  revert name w. induction depth as [|depth IH]; intros name w; [reflexivity|].
  cbn [Faulty.makedirs_rec makedirs_rec].
  destruct (PosixPath.split name) as [head tail].
  destruct (if String.eqb tail "" then PosixPath.split head else (head, tail))
    as [head' tail'].
  apply bind_ext; [|reflexivity].
  destruct (negb (String.eqb head' "") && negb (String.eqb tail' "")); [|reflexivity].
  apply bind_ext; [reflexivity|]. intros [|] w1; [reflexivity|]. cbn [negb].
  apply bind_ext; [|reflexivity]. apply try_except_ext; [apply IH | reflexivity].
Qed.

Lemma rename_calm (src dst : string) (w : world) :
  Faulty.rename Faulty.calm src dst w = rename src dst w.
Proof. unfold Faulty.rename. now destruct (stat src w) as [[data|]|e]. Qed.

Lemma copyfile_calm (src dst : string) (w : world) :
  Faulty.copyfile Faulty.calm src dst w = copyfile src dst w.
Proof.
  unfold Faulty.copyfile, copyfile. apply bind_ext; [reflexivity|].
  intros [|] w1; [reflexivity|]. apply bind_ext; [reflexivity|]. intros data w2.
  apply try_except_ext; [|reflexivity].
  unfold bind, Faulty.guarded, Faulty.fill, write_file. cbn [Faulty.refuses Faulty.calm].
  destruct (opening dst w2) as [old|e]; [|reflexivity].
  unfold Faulty.fits. cbn [Faulty.fsize Faulty.calm].
  now rewrite String.eqb_refl, insert_insert_eq.
Qed.

Lemma copy2_calm (src dst : string) (w : world) :
  Faulty.copy2 Faulty.calm src dst w = copy2 src dst w.
Proof.
  unfold Faulty.copy2, copy2. apply bind_ext; [reflexivity|]. intros isd w1.
  unfold bind. rewrite copyfile_calm.
  now destruct (copyfile src _ w1) as [w2 [[]|e]].
Qed.

Lemma move_fallback_calm (src d : string) (w : world) :
  try_except (Faulty.rename Faulty.calm src d) is_OSError
             (fun _ => Faulty.copy2 Faulty.calm src d ;;; Faulty.unlink Faulty.calm src) w
  = try_except (rename src d) is_OSError (fun _ => copy2 src d ;;; unlink src) w.
Proof.
  apply try_except_ext; [apply rename_calm|]. intros _ w1.
  apply bind_ext; [apply copy2_calm | reflexivity].
Qed.

Lemma move_calm (src dst : string) (w : world) :
  Faulty.move Faulty.calm src dst w = move src dst w.
Proof.
  unfold Faulty.move, move. apply bind_ext; [reflexivity|]. intros [|] w1.
  - apply bind_ext; [reflexivity|]. intros [|] w2.
    + apply bind_ext; [apply rename_calm | reflexivity].
    + apply bind_ext; [reflexivity|]. intros [|] w3; [reflexivity|].
      apply bind_ext; [apply move_fallback_calm | reflexivity].
  - apply bind_ext; [apply move_fallback_calm | reflexivity].
Qed.

Lemma sposta_file_calm (file_path folder_path categoria : string) (w : world) :
  Faulty.sposta_file Faulty.calm file_path folder_path categoria w
  = sposta_file file_path folder_path categoria w.
Proof.
  unfold Faulty.sposta_file, sposta_file. apply bind_ext; [reflexivity|].
  intros ex w1. apply bind_ext.
  - destruct (negb ex); [apply makedirs_rec_calm | reflexivity].
  - intros _ w2. apply bind_ext; [apply move_calm | reflexivity].
Qed.

Lemma write_calm (f : key) (text : string) (w : world) :
  Faulty.write Faulty.calm f text w = write f text w.
Proof.
  unfold Faulty.write, write, Faulty.fits. cbn [Faulty.fsize Faulty.calm].
  now rewrite String.eqb_refl.
Qed.

Lemma writerow_calm (f : key) (fieldnames : list string)
    (rowdict : gmap string Csv.pyval) (w : world) :
  Faulty.writerow Faulty.calm f fieldnames rowdict w
  = Csv.writerow f fieldnames rowdict w.
Proof.
  unfold Faulty.writerow, Csv.writerow. apply bind_ext; [reflexivity|].
  intros row w1. apply write_calm.
Qed.

Lemma scrivi_log_csv_calm (file_info : gmap string Csv.pyval) (csv_path : string)
    (w : world) :
  Faulty.scrivi_log_csv Faulty.calm file_info csv_path w
  = scrivi_log_csv file_info csv_path w.
Proof.
  unfold Faulty.scrivi_log_csv, scrivi_log_csv. apply bind_ext; [reflexivity|].
  intros ex w1. apply bind_ext; [reflexivity|]. intros f w2. apply bind_ext.
  - destruct (negb ex); [apply writerow_calm | reflexivity].
  - intros _ w3. apply writerow_calm.
Qed.

(** With the environment that refuses nothing and sets no limit, the
    script is the script of the sections above. *)
Lemma main_calm (guess_type : string -> option string) (isprintable : N -> bool)
    (folder_path filename : string) (w : world) :
  Faulty.main Faulty.calm guess_type isprintable folder_path filename w
  = main guess_type isprintable folder_path filename w.
Proof.
  unfold Faulty.main, main.
  destruct (get_mime_type guess_type _ w) as [w1 [[mime_type size]|e]]; [|reflexivity].
  destruct (classifica_file (Some mime_type)) as [categoria|]; [|reflexivity].
  rewrite sposta_file_calm.
  destruct (sposta_file _ folder_path categoria w1) as [w2 [nuovo_percorso|e]];
    [|reflexivity].
  now rewrite scrivi_log_csv_calm.
Qed.

End Calm.

(** ** A relocation that fails *)

Section RelocationFailure.

Import OS.

Variable env : Faulty.environment.
Variable guess_type : string -> option string.
Variable isprintable : N -> bool.

(** C7, as the code has it: when [sposta_file] raises for a regular
    file, whatever the operating system refused, the file is still
    at its old path with its contents.  What the call may leave
    behind is the category directory, made before the move, and at
    the destination (or, when the destination is a directory, at
    its entry named like the file) a copy of the file or of a
    beginning of it, written by the copy that [shutil.move] falls
    back on when [os.rename] raises; nothing else is touched.  The
    error is not wrapped: [main] prints the message of the exception
    that was raised and exits with status 1, leaving the file system
    as [sposta_file] left it. *)
Theorem sposta_file_failure (file_path folder_path categoria : string)
    (w w' : world) (data : string) (e : exn) :
  stat file_path w = Return (File data) ->
  stat folder_path w = Return Dir ->
  entry_name categoria = true ->
  let dir := PosixPath.join folder_path categoria in
  let dst := PosixPath.join dir (PosixPath.basename file_path) in
  let real_dst := PosixPath.join dst (PosixPath.basename file_path) in
  Faulty.sposta_file env file_path folder_path categoria w = (w', Raise e) ->
  stat file_path w' = Return (File data) /\
  (forall k, k <> resolve dir -> k <> resolve dst -> k <> resolve real_dst ->
             w' !! k = w !! k) /\
  (w' !! resolve dir = w !! resolve dir \/
   (w !! resolve dir = None /\ w' !! resolve dir = Some Dir)) /\
  (forall target, target = dst \/ target = real_dst ->
     w' !! resolve target = w !! resolve target \/
     exists written rest,
       data = written ++ rest /\ w' !! resolve target = Some (File written)) /\
  forall filename,
    file_path = PosixPath.join folder_path filename ->
    classifica_file (Some match guess_type file_path with
                          | None => tipo_sconosciuto
                          | Some mime_type => mime_type
                          end) = Some categoria ->
    Faulty.main env guess_type isprintable folder_path filename w
    = {| run_fs := w';
         run_stdout :=
           ["Errore durante lo spostamento del file " ++ quoted filename
              ++ ": " ++ str_exn isprintable e];
         run_end := SysExit 1 |}.
Proof.
  intros Hs Hroot Hcat dir dst real_dst Hrun.
  pose proof Hroot as Hroot'. apply stat_Dir in Hroot' as [Hr Hnr].
  destruct (sposta_file_paths _ _ _ _ _ Hs Hr Hcat)
    as (Hdne & Hdstne & Hname & Hbdir & Hbdst & Hkdir & Hkdst).
  fold dir dst in Hdne, Hdstne, Hbdir, Hbdst, Hkdir, Hkdst.
  pose proof (resolve_join _ _ Hdstne Hname) as Hkreal. fold dst real_dst in Hkreal.
  rewrite Hkdst in Hkreal. cbn [fst snd] in Hkreal.
  assert (Hdd : resolve dst <> resolve dir) by (rewrite Hkdst, Hkdir; key_neq).
  assert (Hrd : resolve real_dst <> resolve dir) by (rewrite Hkreal, Hkdir; key_neq).
  assert (Hrr : resolve real_dst <> resolve dst) by (rewrite Hkreal, Hkdst; key_neq).
  pose proof Hs as Hs'. apply stat_File in Hs' as (_ & Hnsrc & _).
  apply node_at_File in Hnsrc as [Hsrc1 Hsrc2].
  destruct (sposta_file_env_Raise env _ _ _ _ _ _ _ Hs Hroot Hcat Hrun)
    as (w1 & target & Hw1 & Ht & Hw').
  fold dir dst real_dst in Hw1, Ht, Hw'.
  assert (Hsd : w !! resolve dir = None -> resolve file_path <> resolve dir)
    by (intros Hn E; rewrite <- E in Hn; congruence).
  assert (Htd : resolve target <> resolve dir) by (destruct Ht as [->| ->]; assumption).
  assert (H1 : forall k, k <> resolve dir -> w1 !! k = w !! k).
  { intros k Hk. destruct Hw1 as [->|[_ ->]]; [reflexivity | now apply lookup_insert_ne]. }
  assert (H2 : forall k, k <> resolve target -> w' !! k = w1 !! k).
  { intros k Hk. destruct Hw' as [->|(_ & written & rest & _ & ->)];
      [reflexivity | now apply lookup_insert_ne]. }
  split; [|split; [|split; [|split]]].
  - rewrite <- Hs. apply stat_node_at. rewrite !(node_at_lookup _ _ Dir Hsrc1).
    destruct Hw' as [->|(Hne & written & rest & _ & ->)].
    + destruct Hw1 as [->|[Hn ->]]; [reflexivity|].
      apply lookup_insert_ne. intros E. now apply (Hsd Hn).
    + rewrite lookup_insert_ne by assumption.
      destruct Hw1 as [->|[Hn ->]]; [reflexivity|].
      apply lookup_insert_ne. intros E. now apply (Hsd Hn).
  - intros k Hk1 Hk2 Hk3. rewrite H2, H1; [reflexivity | assumption|].
    destruct Ht as [->| ->]; assumption.
  - rewrite (H2 _ (not_eq_sym Htd)).
    destruct Hw1 as [->|[Hn ->]]; [now left|]. right. split; [assumption|].
    apply lookup_insert_eq.
  - intros t Htarget.
    assert (Htdir : resolve t <> resolve dir) by (destruct Htarget as [->| ->]; assumption).
    destruct (decide (resolve t = resolve target)) as [E|E].
    + rewrite E. destruct Hw' as [->|(_ & written & rest & Hdata & ->)].
      * left. now apply H1.
      * right. exists written, rest. split; [assumption | apply lookup_insert_eq].
    + left. rewrite H2, H1; [reflexivity | assumption | assumption].
  - intros filename -> Hc. unfold Faulty.main.
    rewrite (get_mime_type_File guess_type _ _ _ Hs), Hc, Hrun. reflexivity.
Qed.

End RelocationFailure.

(** ** The command line *)

Section CommandLine.

Import OS.

Variable guess_type : string -> option string.
Variable isprintable : N -> bool.

(** The names [os.listdir] gives are the names of the entries. *)
Lemma elem_of_entries (w : world) (d : key) (f : string) :
  f ∈ entries w d <-> entry_name f = true /\ is_Some (w !! (fst d, f :: snd d)).
Proof.
  unfold entries. rewrite list_elem_of_omap. split.
  - intros [[[i comps] n] [Hin Hf]]. apply elem_of_map_to_list in Hin.
    cbn [fst snd] in Hf. destruct comps as [|name rest]; [discriminate|].
    destruct (bool_decide _) eqn:Hb; [|discriminate].
    destruct (entry_name name) eqn:He; [|discriminate].
    apply bool_decide_eq_true in Hb as [-> ->]. injection Hf as <-.
    split; [assumption | eauto].
  - intros [He [n Hn]]. exists ((fst d, f :: snd d), n).
    split; [now apply elem_of_map_to_list|]. cbn [fst snd].
    rewrite bool_decide_eq_true_2 by auto. now rewrite He.
Qed.


(** The loop keeps the names that pass the test, in their order, and
    leaves the file system alone. *)
Lemma scan_filter (folder_path : string) (names available_files : list string)
    (w : world) :
  Cli.scan guess_type folder_path names available_files w
  = (w, Return (available_files
                ++ filter (fun f => Cli.spostabile guess_type folder_path w f = true)
                          names)%list).
Proof.
  revert available_files. induction names as [|f names IH]; intros acc.
  - cbn [Cli.scan]. unfold ret. now rewrite filter_nil, app_nil_r.
  - cbn [Cli.scan]. unfold bind at 1, path_isfile, observe.
    rewrite filter_cons.
    destruct (decide (Cli.spostabile guess_type folder_path w f = true)) as [Hsp|Hsp];
      unfold Cli.spostabile in Hsp; cbv zeta in Hsp.
    + apply andb_true_iff in Hsp as [Hsp Hg]. rewrite Hsp.
      destruct (guess_type (PosixPath.join folder_path f)) as [mime|]; [|discriminate].
      rewrite Hg, IH. now rewrite <- app_assoc.
    + apply not_true_is_false in Hsp.
      destruct (_ && negb (String.eqb f "recap.csv")); [|apply IH].
      destruct (guess_type (PosixPath.join folder_path f)) as [mime|]; [|apply IH].
      cbn [andb] in Hsp. rewrite Hsp. apply IH.
Qed.

Lemma contains_elem_of (x : string) (l : list string) :
  PyList.contains x l = true <-> x ∈ l.
Proof.
  unfold PyList.contains. rewrite existsb_exists. split.
  - intros [y [Hin Hy]]. apply String.eqb_eq in Hy as <-. now apply list_elem_of_In.
  - intros Hin. exists x. split; [now apply list_elem_of_In | apply String.eqb_refl].
Qed.

Lemma tipo_valido_nonempty (mime : string) : tipo_valido mime = true -> mime <> "".
Proof. intros H ->. discriminate H. Qed.

(** The files that [main] offers to move: the entries of
    [folder_path] that are regular files, other than the ledger, with
    a media type whose top-level token is one of [tipi_validi]. *)
Lemma available_files_elem_of (folder_path : string) (w : world) (f : string) :
  folder_path <> "" ->
  f ∈ Cli.available_files guess_type folder_path w <->
  entry_name f = true /\
  (exists data, stat (PosixPath.join folder_path f) w = Return (File data)) /\
  f <> "recap.csv" /\
  (exists mime, guess_type (PosixPath.join folder_path f) = Some mime /\
                tipo_valido mime = true).
Proof.
  intros Hr. unfold Cli.available_files, PyList.sort.
  rewrite merge_sort_Permutation, list_elem_of_filter, elem_of_entries.
  unfold Cli.spostabile. cbv zeta. rewrite !andb_true_iff, negb_true_iff, String.eqb_neq.
  split.
  - intros [[[Hst Hne] Hg] [He _]]. split; [assumption|]. split; [|split; [assumption|]].
    + destruct (stat _ w) as [[data|]|]; try discriminate. eauto.
    + destruct (guess_type _) as [mime|]; [|discriminate].
      apply andb_true_iff in Hg as [_ Hg]. eauto.
  - intros (He & [data Hst] & Hne & [mime [Hg Hv]]). rewrite Hst, Hg, Hv.
    pose proof (tipo_valido_nonempty _ Hv) as Hm. apply String.eqb_neq in Hm. rewrite Hm.
    split; [auto|]. split; [assumption|].
    apply stat_File in Hst as (_ & Hn & _). rewrite (resolve_join _ _ Hr He) in Hn.
    apply node_at_File in Hn as [_ Hn]. rewrite Hn. eauto.
Qed.


(** [main] in a directory: the listing, the refusal of a name that is
    not in the list, or the pipeline. *)
Lemma organizza_Dir (folder_path : string) (filename : option string) (w : world) :
  stat folder_path w = Return Dir ->
  Cli.organizza guess_type isprintable folder_path filename w
  = let available_files := Cli.available_files guess_type folder_path w in
    match filename with
    | Some (String _ _ as filename) =>
        if negb (PyList.contains filename available_files) then
          Cli.Finished
            {| run_fs := w;
               run_stdout :=
                 ("Errore: Il file " ++ quoted filename
                    ++ " non è valido o non è presente nella cartella "
                    ++ quoted folder_path ++ " o il suo tipo non è supportato.")
                 :: match available_files with
                    | _ :: _ => "File disponibili:" :: Cli.elenco available_files
                    | [] => []
                    end;
               run_end := SysExit 1 |}
        else Cli.Finished (main guess_type isprintable folder_path filename w)
    | _ =>
        Cli.Finished
          {| run_fs := w;
             run_stdout :=
               match available_files with
               | _ :: _ =>
                   ("File disponibili nella cartella " ++ quoted folder_path
                      ++ " da spostare:") :: Cli.elenco available_files
               | [] =>
                   ["Nessun file valido da spostare trovato nella cartella "
                      ++ quoted folder_path ++ "."]
               end;
             run_end := SysExit 0 |}
    end.
Proof.
  intros Hroot. unfold Cli.organizza, path_isdir, observe. rewrite Hroot.
  unfold bind, listdir, lift. rewrite Hroot, scan_filter. cbn [app].
  fold (Cli.available_files guess_type folder_path w).
  destruct filename as [[|c f]|]; reflexivity.
Qed.

Lemma organizza_not_Dir (folder_path : string) (filename : option string) (w : world) :
  stat folder_path w <> Return Dir ->
  Cli.organizza guess_type isprintable folder_path filename w
  = Cli.Finished
      {| run_fs := w;
         run_stdout :=
           ["Errore: la cartella " ++ quoted folder_path
              ++ " non esiste o non è accessibile."];
         run_end := SysExit 1 |}.
Proof.
  intros Hroot. unfold Cli.organizza, path_isdir, observe.
  destruct (stat folder_path w) as [[d|]|e]; congruence.
Qed.

Lemma main_directory (filename : option string) (folder_path : string)
    (stdin : list string) (w : world) :
  folder_path <> "" ->
  Cli.main guess_type isprintable {| Cli.filename := filename; Cli.directory := Some folder_path |}
           stdin w
  = {| Cli.prompted := false;
       Cli.session_end := Cli.organizza guess_type isprintable folder_path filename w |}.
Proof. intros Hr. destruct folder_path; [congruence | reflexivity]. Qed.

(** For a file of the list the pipeline reads its size, finds a
    category and goes on to the move. *)
Lemma available_pipeline (folder_path filename : string) (w : world) :
  folder_path <> "" ->
  filename ∈ Cli.available_files guess_type folder_path w ->
  exists data mime categoria,
    entry_name filename = true /\ filename <> "recap.csv" /\
    stat (PosixPath.join folder_path filename) w = Return (File data) /\
    guess_type (PosixPath.join folder_path filename) = Some mime /\
    tipo_valido mime = true /\
    get_mime_type guess_type (PosixPath.join folder_path filename) w
    = (w, Return (mime, Z.of_nat (String.length data))) /\
    classifica_file (Some mime) = Some categoria /\
    outcome_of guess_type folder_path filename w <> Skipped.
Proof.
  intros Hr Hin. apply (available_files_elem_of _ _ _ Hr) in Hin
    as (He & [data Hs] & Hne & [mime [Hg Hv]]).
  pose proof (tipo_valido_classified _ Hv) as Hc.
  destruct (classifica_file (Some mime)) as [c|] eqn:Hcl; [|congruence].
  assert (Hget : get_mime_type guess_type (PosixPath.join folder_path filename) w
                 = (w, Return (mime, Z.of_nat (String.length data)))).
  { rewrite (get_mime_type_File _ _ _ _ Hs). now rewrite Hg. }
  exists data, mime, c. repeat (split; [assumption|]).
  unfold outcome_of. rewrite Hget, Hcl.
  destruct (sposta_file _ _ c w) as [w1 [np|e]]; [|discriminate].
  destruct (scrivi_log_csv _ _ w1) as [w2 [[]|e]]; discriminate.
Qed.


(** X20: a file name that is not the name of an entry of the directory,
    or names something that is not a regular file, or is the ledger
    [recap.csv], or has no media type among [tipi_validi], is refused:
    the script prints the error, exits with status 1 and leaves the
    file system as it was. *)
Theorem main_refuses (stdin : list string) (w : world) (folder_path filename : string) :
  stat folder_path w = Return Dir ->
  filename <> "" ->
  entry_name filename = false
  \/ (forall data, stat (PosixPath.join folder_path filename) w <> Return (File data))
  \/ filename = "recap.csv"
  \/ (forall mime, guess_type (PosixPath.join folder_path filename) = Some mime ->
                   tipo_valido mime = false) ->
  Cli.main guess_type isprintable
           {| Cli.filename := Some filename; Cli.directory := Some folder_path |}
           stdin w
  = {| Cli.prompted := false;
       Cli.session_end :=
         Cli.Finished
           {| run_fs := w;
              run_stdout :=
                ("Errore: Il file " ++ quoted filename
                   ++ " non è valido o non è presente nella cartella "
                   ++ quoted folder_path ++ " o il suo tipo non è supportato.")
                :: match Cli.available_files guess_type folder_path w with
                   | _ :: _ =>
                       "File disponibili:"
                       :: map (fun f => "  - " ++ f)
                              (Cli.available_files guess_type folder_path w)
                   | [] => []
                   end;
              run_end := SysExit 1 |} |}.
Proof.
  intros Hroot Hne Hbad.
  pose proof Hroot as Hroot'. apply stat_Dir in Hroot' as [Hr _].
  assert (Hnot : PyList.contains filename (Cli.available_files guess_type folder_path w)
                 = false).
  { apply not_true_is_false. rewrite contains_elem_of.
    rewrite (available_files_elem_of _ _ _ Hr).
    intros (He & [data Hs] & Hn & [mime [Hg Hv]]).
    destruct Hbad as [H|[H|[H|H]]];
      [congruence | now apply (H data) | congruence
      | specialize (H mime Hg); congruence]. }
  rewrite (main_directory _ _ _ _ Hr), (organizza_Dir _ _ _ Hroot). cbv zeta.
  destruct filename as [|c' f]; [congruence|]. now rewrite Hnot.
Qed.

(** X21: a file name of the list is handed to the pipeline, and the
    pipeline never finds it unrecognized: its size can be read, its
    media type has a category, and the run does not end as skipped. *)
Theorem main_accepts (stdin : list string) (w : world) (folder_path filename : string)
    (data mime : string) :
  stat folder_path w = Return Dir ->
  entry_name filename = true ->
  filename <> "recap.csv" ->
  stat (PosixPath.join folder_path filename) w = Return (File data) ->
  guess_type (PosixPath.join folder_path filename) = Some mime ->
  tipo_valido mime = true ->
  Cli.main guess_type isprintable
           {| Cli.filename := Some filename; Cli.directory := Some folder_path |}
           stdin w
  = {| Cli.prompted := false;
       Cli.session_end := Cli.Finished (main guess_type isprintable folder_path filename w) |} /\
  get_mime_type guess_type (PosixPath.join folder_path filename) w
  = (w, Return (mime, Z.of_nat (String.length data))) /\
  classifica_file (Some mime) <> None /\
  outcome_of guess_type folder_path filename w <> Skipped.
Proof.
  intros Hroot He Hn Hs Hg Hv.
  pose proof Hroot as Hroot'. apply stat_Dir in Hroot' as [Hr _].
  assert (Hin : filename ∈ Cli.available_files guess_type folder_path w).
  { apply (available_files_elem_of _ _ _ Hr). eauto 10. }
  destruct (available_pipeline _ _ _ Hr Hin)
    as (data' & mime' & c & _ & _ & Hs' & Hg' & _ & Hget & Hc & Hout).
  assert (Ed : data' = data) by congruence. assert (Em : mime' = mime) by congruence.
  subst data' mime'.
  split; [|split; [assumption|split; [congruence|assumption]]].
  unfold Cli.main. cbn [Cli.directory Cli.filename].
  destruct folder_path as [|c0 p]; [congruence|].
  rewrite (organizza_Dir _ _ _ Hroot). cbv zeta.
  apply contains_elem_of in Hin. rewrite Hin. cbn [negb].
  destruct filename as [|c' f]; [discriminate He | reflexivity].
Qed.

(** C4, as the code has it: a file whose media type has no category
    is not skipped by the script, it is refused.  The check of the
    name against the list of the files that can be moved comes
    first, and that list holds no such file: the script prints the
    error of the check and exits with status 1.  Nothing is changed:
    no directory is made, the file stays where it is and the ledger
    is not written.  The branch of [main] that answers an
    unrecognized type with status 0 is reached only when the check
    is left out; it too changes nothing. *)
Theorem main_unrecognized_refused (stdin : list string) (w : world)
    (folder_path filename : string) :
  stat folder_path w = Return Dir ->
  filename <> "" ->
  let file_path := PosixPath.join folder_path filename in
  let mime_type := match guess_type file_path with
                   | None => tipo_sconosciuto
                   | Some mime_type => mime_type
                   end in
  classifica_file (Some mime_type) = None ->
  Cli.main guess_type isprintable
           {| Cli.filename := Some filename; Cli.directory := Some folder_path |}
           stdin w
  = {| Cli.prompted := false;
       Cli.session_end :=
         Cli.Finished
           {| run_fs := w;
              run_stdout :=
                ("Errore: Il file " ++ quoted filename
                   ++ " non è valido o non è presente nella cartella "
                   ++ quoted folder_path ++ " o il suo tipo non è supportato.")
                :: match Cli.available_files guess_type folder_path w with
                   | _ :: _ =>
                       "File disponibili:"
                       :: map (fun f => "  - " ++ f)
                              (Cli.available_files guess_type folder_path w)
                   | [] => []
                   end;
              run_end := SysExit 1 |} |} /\
  ~ filename ∈ Cli.available_files guess_type folder_path w /\
  forall n,
    stat file_path w = Return n ->
    main guess_type isprintable folder_path filename w
    = {| run_fs := w;
         run_stdout :=
           ["File " ++ quoted filename ++ " di tipo " ++ quoted mime_type
              ++ " non riconosciuto, nessuna azione eseguita."];
         run_end := SysExit 0 |}.
Proof.
  intros Hroot Hne file_path mime_type Hc.
  pose proof Hroot as Hroot'. apply stat_Dir in Hroot' as [Hr _].
  assert (Hout : ~ filename ∈ Cli.available_files guess_type folder_path w).
  { rewrite (available_files_elem_of _ _ _ Hr).
    intros (_ & _ & _ & [mime [Hg Hv]]). fold file_path in Hg.
    apply tipo_valido_classified in Hv. unfold mime_type in Hc. rewrite Hg in Hc.
    congruence. }
  split; [|split; [exact Hout|]].
  - rewrite <- contains_elem_of in Hout. apply not_true_is_false in Hout.
    rewrite (main_directory _ _ _ _ Hr), (organizza_Dir _ _ _ Hroot). cbv zeta.
    destruct filename as [|c' f]; [congruence|]. now rewrite Hout.
  - intros n Hs. unfold main. fold file_path.
    unfold get_mime_type, bind, path_getsize, lift, ret. rewrite Hs. fold mime_type.
    destruct n; now rewrite Hc.
Qed.

Lemma stat_Dir_or_not (p : string) (w : world) :
  stat p w = Return Dir \/ stat p w <> Return Dir.
Proof. destruct (stat p w) as [[d|]|e]; auto; right; discriminate. Qed.

(** X23: the script never takes anything away from a ledger.  When
    [recap.csv] in the directory is a regular file before the run, it
    is one after the run, whatever the file name on the command line,
    and its old text is the beginning of its new text. *)
Theorem main_ledger_append_only (filename : option string) (stdin : list string)
    (w : world) (folder_path old : string) :
  folder_path <> "" ->
  let csv_path := PosixPath.join folder_path "recap.csv" in
  stat csv_path w = Return (File old) ->
  exists r added,
    Cli.main guess_type isprintable {| Cli.filename := filename; Cli.directory := Some folder_path |}
             stdin w
    = {| Cli.prompted := false; Cli.session_end := Cli.Finished r |} /\
    stat csv_path (run_fs r) = Return (File (old ++ added)).
Proof.
  intros Hr csv_path Hcsv.
  assert (Hsame : forall r,
             run_fs r = w -> exists added,
               stat csv_path (run_fs r) = Return (File (old ++ added))).
  { intros r ->. exists "". now rewrite sapp_nil_r. }
  rewrite (main_directory _ _ _ _ Hr).
  destruct (stat_Dir_or_not folder_path w) as [Hroot|Hroot].
  2: { rewrite (organizza_not_Dir _ _ _ Hroot).
       eexists; destruct (Hsame {| run_fs := w; run_stdout := []; run_end := Returned |}
                            eq_refl) as [added Ha].
       exists added. split; [reflexivity | exact Ha]. }
  rewrite (organizza_Dir _ _ _ Hroot). cbv zeta.
  destruct filename as [[|c f]|];
    try (eexists; exists ""; split; [reflexivity | now rewrite sapp_nil_r]).
  destruct (PyList.contains _ _) eqn:Hin; cbn [negb];
    [|eexists; exists ""; split; [reflexivity | now rewrite sapp_nil_r]].
  apply contains_elem_of in Hin. set (filename := String c f) in *.
  destruct (available_pipeline _ _ _ Hr Hin)
    as (data & mime & cat & He & Hne & Hs & Hg & _ & Hget & Hc & _).
  pose proof (classifica_file_entry_name _ _ Hc) as Hcat.
  pose proof (classifica_file_not_recap _ _ Hc) as Hcr.
  destruct (main_keys folder_path filename cat Hr He Hcat)
    as (Hks & Hkdir & Hkdst & Hkcsv & Hbase & Hdne & Hdstne & _).
  fold csv_path in Hkcsv.
  set (file_path := PosixPath.join folder_path filename) in *.
  set (dir := PosixPath.join folder_path cat) in *.
  set (dst := PosixPath.join dir filename) in *.
  pose proof (resolve_join _ _ Hdstne He) as Hkreal. rewrite Hkdst in Hkreal.
  cbn [fst snd] in Hkreal.
  exists (main guess_type isprintable folder_path filename w). 
  assert (Hgoal : exists added,
             stat csv_path (run_fs (main guess_type isprintable folder_path filename w))
             = Return (File (old ++ added))); [|destruct Hgoal as [added Ha]; eauto].
  unfold main. fold file_path. rewrite Hget, Hc.
  destruct (sposta_file file_path folder_path cat w) as [w1 r1] eqn:Hm.
  pose proof (sposta_file_frame _ _ _ _ _ _ _ Hs Hroot Hcat Hm) as Hframe.
  cbv zeta in Hframe. fold dir in Hframe. rewrite Hbase in Hframe. fold dst in Hframe.
  rewrite Hks, Hkdir, Hkdst, Hkreal in Hframe.
  assert (Hcsv1 : stat csv_path w1 = Return (File old)).
  { rewrite <- Hcsv. apply stat_node_at. rewrite Hkcsv. unfold node_at. cbn [snd].
    apply Hframe; [congruence | congruence | key_neq | key_neq]. }
  destruct r1 as [np|e]; [|exists ""; cbn [run_fs]; now rewrite sapp_nil_r].
  fold csv_path. rewrite (scrivi_log_csv_existing _ _ _ _ Hcsv1), dict_to_list_file_info.
  destruct (write _ _ w1) as [w2 [[]|e]] eqn:Hw.
  - pose proof Hcsv1 as Hl. apply stat_File in Hl as (_ & Hl & _).
    apply node_at_File in Hl as [_ Hl].
    destruct (write_Return _ _ _ _ _ Hl Hw) as [_ ->].
    cbn [run_fs]. eexists. apply (stat_insert_File _ _ _ _ Hcsv1).
  - apply write_Raise in Hw as [-> _]. exists "". cbn [run_fs]. now rewrite sapp_nil_r.
Qed.

(** X24: the script does not move a file twice.  After a run that
    moved and logged a file of the list, the same command line is
    refused: the second run exits with status 1 and leaves the file
    system as the first run left it. *)
Theorem main_second_run_refused (stdin stdin' : list string) (w : world)
    (folder_path filename categoria data mime : string) :
  stat folder_path w = Return Dir ->
  entry_name filename = true -> filename <> "recap.csv" ->
  let file_path := PosixPath.join folder_path filename in
  let csv_path := PosixPath.join folder_path "recap.csv" in
  stat file_path w = Return (File data) ->
  guess_type file_path = Some mime -> tipo_valido mime = true ->
  classifica_file (Some mime) = Some categoria ->
  let dir := PosixPath.join folder_path categoria in
  let dst := PosixPath.join dir filename in
  stat dir w = Return Dir \/ (exists e, stat dir w = Raise e) ->
  stat dst w <> Return Dir ->
  stat csv_path w <> Return Dir ->
  let args := {| Cli.filename := Some filename; Cli.directory := Some folder_path |} in
  exists r1 r2,
    Cli.main guess_type isprintable args stdin w
    = {| Cli.prompted := false; Cli.session_end := Cli.Finished r1 |} /\
    run_end r1 = Returned /\
    stat dst (run_fs r1) = Return (File data) /\
    Cli.main guess_type isprintable args stdin' (run_fs r1)
    = {| Cli.prompted := false; Cli.session_end := Cli.Finished r2 |} /\
    run_end r2 = SysExit 1 /\
    run_fs r2 = run_fs r1.
Proof.
  intros Hroot He Hn file_path csv_path Hs Hg Hv Hc dir dst Hdir Hdst Hcsv args.
  pose proof Hroot as Hroot'. apply stat_Dir in Hroot' as [Hr _].
  assert (Hc' : classifica_file (Some match guess_type file_path with
                                      | None => tipo_sconosciuto
                                      | Some mime_type => mime_type
                                      end) = Some categoria) by now rewrite Hg.
  destruct (main_moved_run guess_type isprintable folder_path filename categoria w data
              Hroot He Hn Hs Hc' Hdir Hdst)
    as (_ & Hmain & Hdst1 & Hsrc1 & Hroot1 & _).
  fold file_path dir dst csv_path in Hmain, Hdst1, Hsrc1, Hroot1.
  set (r1 := main guess_type isprintable folder_path filename w) in *.
  assert (Hend : run_end r1 = Returned) by now rewrite Hmain.
  assert (Hfs : run_fs r1 = fst (scrivi_log_csv
                  (file_info filename
                     match guess_type file_path with
                     | None => tipo_sconosciuto
                     | Some mime_type => mime_type
                     end (Z.of_nat (String.length data)) dst) csv_path
                  (moved file_path dir dst data w))) by now rewrite Hmain.
  rewrite <- Hfs in Hdst1, Hsrc1, Hroot1. clear Hmain Hfs.
  assert (Hne : filename <> "") by (intros ->; discriminate He).
  assert (Hin : filename ∈ Cli.available_files guess_type folder_path w).
  { apply (available_files_elem_of _ _ _ Hr). eauto 10. }
  assert (Hout : ~ filename ∈ Cli.available_files guess_type folder_path (run_fs r1)).
  { rewrite (available_files_elem_of _ _ _ Hr). intros (_ & [d Hd] & _).
    fold file_path in Hd. congruence. }
  apply contains_elem_of in Hin.
  rewrite <- contains_elem_of in Hout. apply not_true_is_false in Hout.
  exists r1. eexists. unfold args. rewrite !(main_directory _ _ _ _ Hr).
  rewrite (organizza_Dir _ _ _ Hroot), (organizza_Dir _ _ _ Hroot1). cbv zeta.
  destruct filename as [|c f]; [congruence|]. rewrite Hin, Hout. cbn [negb].
  split; [reflexivity|]. split; [assumption|]. split; [assumption|].
  split; [reflexivity|]. split; reflexivity.
Qed.

End CommandLine.

(** ** The edge cases on the sample file systems *)

Section SampleRuns.

Import OS.

Lemma sposta_file_overwrites_witness :
  exists w',
    sposta_file "files/song.mp3" "files" "audio" Sample.w_taken
    = (w', Return "files/audio/song.mp3") /\
    stat "files/audio/song.mp3" Sample.w_taken = Return (File "old song") /\
    stat "files/audio/song.mp3" w' = Return (File "ID3-bytes") /\
    stat "files/song.mp3" w' = Raise (FileNotFoundError "files/song.mp3").
Proof.
  assert (H1 : stat "files/song.mp3" Sample.w_taken = Return (File "ID3-bytes"))
    by (vm_compute; reflexivity).
  assert (H2 : stat "files" Sample.w_taken = Return Dir) by (vm_compute; reflexivity).
  assert (H3 : stat (PosixPath.join "files" "audio") Sample.w_taken = Return Dir)
    by (vm_compute; reflexivity).
  assert (H4 : stat (PosixPath.join (PosixPath.join "files" "audio")
                       (PosixPath.basename "files/song.mp3")) Sample.w_taken
               = Return (File "old song")) by (vm_compute; reflexivity).
  assert (H5 : resolve "files/song.mp3"
               <> resolve (PosixPath.join (PosixPath.join "files" "audio")
                             (PosixPath.basename "files/song.mp3")))
    by (vm_compute; discriminate).
  destruct (sposta_file_overwrites "files/song.mp3" "files" "audio" Sample.w_taken
              "ID3-bytes" "old song" H1 H2 eq_refl H3 H4 H5)
    as (w' & Hrun & Hdst & Hsrc & _).
  exists w'. exact (conj Hrun (conj H4 (conj Hdst Hsrc))).
Defined.

Lemma sposta_file_into_directory_witness :
  exists w',
    sposta_file "files/song.mp3" "files" "audio" Sample.w_dst_dir
    = (w', Return "files/audio/song.mp3") /\
    stat "files/audio/song.mp3" w' = Return Dir /\
    stat "files/audio/song.mp3/song.mp3" w' = Return (File "ID3-bytes") /\
    stat "files/song.mp3" w' = Raise (FileNotFoundError "files/song.mp3").
Proof.
  assert (H1 : stat "files/song.mp3" Sample.w_dst_dir = Return (File "ID3-bytes"))
    by (vm_compute; reflexivity).
  assert (H2 : stat "files" Sample.w_dst_dir = Return Dir) by (vm_compute; reflexivity).
  assert (H3 : stat (PosixPath.join "files" "audio") Sample.w_dst_dir = Return Dir)
    by (vm_compute; reflexivity).
  assert (H4 : stat (PosixPath.join (PosixPath.join "files" "audio")
                       (PosixPath.basename "files/song.mp3")) Sample.w_dst_dir
               = Return Dir) by (vm_compute; reflexivity).
  assert (H5 : stat (PosixPath.join
                       (PosixPath.join (PosixPath.join "files" "audio")
                          (PosixPath.basename "files/song.mp3"))
                       (PosixPath.basename "files/song.mp3")) Sample.w_dst_dir
               = Raise (FileNotFoundError "files/audio/song.mp3/song.mp3"))
    by (vm_compute; reflexivity).
  destruct (sposta_file_into_directory "files/song.mp3" "files" "audio"
              Sample.w_dst_dir "ID3-bytes" _ H1 H2 eq_refl H3 H4 H5)
    as (w' & Hrun & Hdst & Hreal & Hsrc & _).
  exists w'. exact (conj Hrun (conj Hdst (conj Hreal Hsrc))).
Defined.

Lemma sposta_file_name_taken_witness :
  sposta_file "files/song.mp3" "files" "audio" Sample.w_dst_full
  = (Sample.w_dst_full, Raise (ShutilError "files/audio/song.mp3/song.mp3")) /\
  main Sample.guess_type Sample.isprintable "files" "song.mp3" Sample.w_dst_full
  = {| run_fs := Sample.w_dst_full;
       run_stdout :=
         ["Errore durante lo spostamento del file 'song.mp3': "
            ++ "Destination path 'files/audio/song.mp3/song.mp3' already exists"];
       run_end := SysExit 1 |}.
Proof.
  assert (H1 : stat "files/song.mp3" Sample.w_dst_full = Return (File "ID3-bytes"))
    by (vm_compute; reflexivity).
  assert (H2 : stat "files" Sample.w_dst_full = Return Dir) by (vm_compute; reflexivity).
  assert (H3 : stat (PosixPath.join "files" "audio") Sample.w_dst_full = Return Dir)
    by (vm_compute; reflexivity).
  assert (H4 : stat (PosixPath.join (PosixPath.join "files" "audio")
                       (PosixPath.basename "files/song.mp3")) Sample.w_dst_full
               = Return Dir) by (vm_compute; reflexivity).
  assert (H5 : stat (PosixPath.join
                       (PosixPath.join (PosixPath.join "files" "audio")
                          (PosixPath.basename "files/song.mp3"))
                       (PosixPath.basename "files/song.mp3")) Sample.w_dst_full
               = Return (File "in the way"))
    by (vm_compute; reflexivity).
  destruct (sposta_file_name_taken Sample.guess_type Sample.isprintable "files/song.mp3" "files" "audio"
              Sample.w_dst_full "ID3-bytes" _ H1 H2 eq_refl H3 H4 H5)
    as (Hrun & Hmain).
  exact (conj Hrun (Hmain "song.mp3" eq_refl eq_refl)).
Defined.

Lemma sposta_file_again_witness :
  exists w',
    sposta_file "files/song.mp3" "files" "audio" Sample.w0
    = (w', Return "files/audio/song.mp3") /\
    sposta_file "files/audio/song.mp3" "files" "audio" w'
    = (w', Return "files/audio/song.mp3").
Proof.
  assert (H1 : stat "files/song.mp3" Sample.w0 = Return (File "ID3-bytes"))
    by (vm_compute; reflexivity).
  assert (H2 : stat "files" Sample.w0 = Return Dir) by (vm_compute; reflexivity).
  assert (H3 : exists e, stat (PosixPath.join "files" "audio") Sample.w0 = Raise e)
    by (eexists; vm_compute; reflexivity).
  assert (H4 : stat (PosixPath.join (PosixPath.join "files" "audio")
                       (PosixPath.basename "files/song.mp3")) Sample.w0
               <> Return Dir) by (vm_compute; discriminate).
  exact (sposta_file_again "files/song.mp3" "files" "audio" Sample.w0 "ID3-bytes"
           H1 H2 eq_refl (or_intror H3) H4).
Defined.

Lemma sposta_file_missing_source_witness :
  exists w',
    stat "files/audio" Sample.w0 = Raise (FileNotFoundError "files/audio") /\
    sposta_file "files/ghost.mp3" "files" "audio" Sample.w0
    = (w', Raise (FileNotFoundError "files/ghost.mp3")) /\
    stat "files/audio" w' = Return Dir.
Proof.
  assert (H1 : stat "files/ghost.mp3" Sample.w0
               = Raise (FileNotFoundError "files/ghost.mp3")) by (vm_compute; reflexivity).
  assert (H2 : stat "files" Sample.w0 = Return Dir) by (vm_compute; reflexivity).
  assert (H3 : stat (PosixPath.join "files" "audio") Sample.w0
               = Raise (FileNotFoundError "files/audio")) by (vm_compute; reflexivity).
  assert (H4 : stat (PosixPath.join (PosixPath.join "files" "audio")
                       (PosixPath.basename "files/ghost.mp3")) Sample.w0
               <> Return Dir) by (vm_compute; discriminate).
  assert (H5 : resolve "files/ghost.mp3" <> resolve (PosixPath.join "files" "audio"))
    by (vm_compute; discriminate).
  destruct (sposta_file_missing_source "files/ghost.mp3" "files" "audio" Sample.w0 _
              H1 eq_refl H2 eq_refl H3 H4 H5) as (w' & Hrun & Hdir & _).
  exists w'. exact (conj H3 (conj Hrun Hdir)).
Defined.

Lemma sposta_file_category_is_file_witness :
  sposta_file "files/it's.mp3" "files" "audio" Sample.w_apostrophe
  = (Sample.w_apostrophe, Raise (NotADirectoryError "files/audio/it's.mp3")) /\
  main Sample.guess_type Sample.isprintable "files" "it's.mp3" Sample.w_apostrophe
  = {| run_fs := Sample.w_apostrophe;
       run_stdout :=
         ["Errore durante lo spostamento del file 'it's.mp3': "
            ++ "[Errno 20] Not a directory: "
            ++ String "034" ("files/audio/it's.mp3" ++ String "034" "")];
       run_end := SysExit 1 |}.
Proof.
  assert (H1 : stat "files/it's.mp3" Sample.w_apostrophe = Return (File "ID3-bytes"))
    by (vm_compute; reflexivity).
  assert (H2 : stat "files" Sample.w_apostrophe = Return Dir) by (vm_compute; reflexivity).
  assert (H3 : stat (PosixPath.join "files" "audio") Sample.w_apostrophe
               = Return (File "not a directory")) by (vm_compute; reflexivity).
  assert (H4 : stat (PosixPath.join (PosixPath.join "files" "audio")
                       (PosixPath.basename "files/it's.mp3")) Sample.w_apostrophe
               = Raise (FileNotFoundError "files/audio/it's.mp3"))
    by (vm_compute; reflexivity).
  destruct (sposta_file_category_is_file Sample.guess_type Sample.isprintable
              "files/it's.mp3" "files" "audio" Sample.w_apostrophe "ID3-bytes" _ _
              H1 H2 eq_refl H3 H4)
    as (Hrun & Hmain).
  split; [exact Hrun|]. exact (Hmain "it's.mp3" eq_refl eq_refl).
Defined.

Lemma sposta_file_failure_witness :
  let w' := fst (Faulty.sposta_file Sample.other_device "files/song.mp3" "files"
                   "audio" Sample.w0) in
  stat "files/song.mp3" w' = Return (File "ID3-bytes") /\
  w' !! (false, ["tune.mp3"; "files"]) = Some (File "RIFF") /\
  Faulty.main Sample.other_device Sample.guess_type Sample.isprintable
              "files" "song.mp3" Sample.w0
  = {| run_fs := w';
       run_stdout :=
         ["Errore durante lo spostamento del file 'song.mp3': "
            ++ "[Errno 27] File too large: "
            ++ "'files/song.mp3' -> 'files/audio/song.mp3'"];
       run_end := SysExit 1 |}.
Proof.
  intros w'.
  assert (H1 : stat "files/song.mp3" Sample.w0 = Return (File "ID3-bytes"))
    by (vm_compute; reflexivity).
  assert (H2 : stat "files" Sample.w0 = Return Dir) by (vm_compute; reflexivity).
  assert (H3 : Faulty.sposta_file Sample.other_device "files/song.mp3" "files" "audio"
                 Sample.w0
               = (w', Raise (OSError 27 "File too large"
                               ["files/song.mp3"; "files/audio/song.mp3"])))
    by evaluated.
  destruct (sposta_file_failure Sample.other_device Sample.guess_type Sample.isprintable
              "files/song.mp3" "files" "audio" Sample.w0 w' "ID3-bytes" _
              H1 H2 eq_refl H3) as (Hsrc & Hframe & _ & _ & Hmain).
  split; [exact Hsrc|]. split.
  - rewrite Hframe; [vm_compute; reflexivity | vm_compute; discriminate..].
  - rewrite (Hmain "song.mp3" eq_refl eq_refl). f_equal.
Defined.

(** C7 as stated fails: with the category directory on another
    device and files that may not grow beyond four bytes,
    [sposta_file] raises after it has made the directory and begun
    the copy.  The destination is left with the first four bytes of
    the file, and the error is the [OSError] of the copy. *)
Lemma sposta_file_partial_copy :
  let w' := fst (Faulty.sposta_file Sample.other_device "files/song.mp3" "files"
                   "audio" Sample.w0) in
  Faulty.sposta_file Sample.other_device "files/song.mp3" "files" "audio" Sample.w0
  = (w', Raise (OSError 27 "File too large"
                  ["files/song.mp3"; "files/audio/song.mp3"])) /\
  stat "files/audio" Sample.w0 = Raise (FileNotFoundError "files/audio") /\
  stat "files/audio/song.mp3" Sample.w0
  = Raise (FileNotFoundError "files/audio/song.mp3") /\
  stat "files/audio" w' = Return Dir /\
  stat "files/audio/song.mp3" w' = Return (File "ID3-") /\
  stat "files/song.mp3" w' = Return (File "ID3-bytes").
Proof.
  intros w'. split; [evaluated|]. repeat split; vm_compute; reflexivity.
Qed.

Lemma sposta_file_makes_folder_witness :
  exists w',
    stat "files/sorted" Sample.w0 = Raise (FileNotFoundError "files/sorted") /\
    sposta_file "files/song.mp3" "files/sorted" "audio" Sample.w0
    = (w', Return "files/sorted/audio/song.mp3") /\
    stat "files/sorted" w' = Return Dir /\
    stat "files/sorted/audio" w' = Return Dir /\
    stat "files/sorted/audio/song.mp3" w' = Return (File "ID3-bytes") /\
    stat "files/song.mp3" w' = Raise (FileNotFoundError "files/song.mp3").
Proof.
  assert (H1 : stat "files/song.mp3" Sample.w0 = Return (File "ID3-bytes"))
    by (vm_compute; reflexivity).
  assert (H2 : stat "files" Sample.w0 = Return Dir) by (vm_compute; reflexivity).
  assert (H3 : stat (PosixPath.join "files" "sorted") Sample.w0
               = Raise (FileNotFoundError "files/sorted")) by (vm_compute; reflexivity).
  assert (H4 : exists e, stat (PosixPath.join (PosixPath.join "files" "sorted") "audio")
                              Sample.w0 = Raise e) by (eexists; vm_compute; reflexivity).
  assert (H5 : exists e, stat (PosixPath.join
                                 (PosixPath.join (PosixPath.join "files" "sorted") "audio")
                                 (PosixPath.basename "files/song.mp3"))
                              Sample.w0 = Raise e) by (eexists; vm_compute; reflexivity).
  destruct (sposta_file_makes_folder "files/song.mp3" "files" "sorted" "audio" Sample.w0
              "ID3-bytes" H1 H2 eq_refl eq_refl (ex_intro _ _ H3) H4 H5)
    as (w' & Hrun & Hroot & Hdir & Hdst & Hsrc).
  exists w'. exact (conj H3 (conj Hrun (conj Hroot (conj Hdir (conj Hdst Hsrc))))).
Defined.


Lemma scrivi_log_csv_extra_key_witness :
  exists w' wrong_fields,
    scrivi_log_csv Sample.docstring_info "files/recap.csv" Sample.w0
    = (w', Raise (ValueError wrong_fields)) /\
    (forall x, x ∈ wrong_fields <-> x = "Size") /\
    stat "files/recap.csv" Sample.w0 = Raise (FileNotFoundError "files/recap.csv") /\
    stat "files/recap.csv" w' = Return (File header_text).
Proof.
  assert (H1 : Sample.docstring_info !! "Size" = Some (Csv.PyInt 9))
    by (vm_compute; reflexivity).
  assert (H2 : "Size" ∉ intestazioni).
  { intros H. apply list_elem_of_In in H. cbn in H.
    destruct H as [H|[H|[H|[H|[]]]]]; discriminate H. }
  assert (H3 : OS.open_append "files/recap.csv" Sample.w0
               = (fst (OS.open_append "files/recap.csv" Sample.w0),
                  Return (false, ["recap.csv"; "files"]))) by evaluated.
  assert (H4 : stat "files/recap.csv" Sample.w0
               = Raise (FileNotFoundError "files/recap.csv")) by (vm_compute; reflexivity).
  destruct (scrivi_log_csv_extra_key _ _ _ _ _ _ _ H1 H2 H3)
    as (w' & ws & Hrun & Hws & Hst).
  rewrite H4 in Hst. exists w', ws. split; [exact Hrun|]. split; [|exact (conj H4 Hst)].
  intros x. rewrite Hws. split.
  - intros [[v Hx] Hn]. unfold Sample.docstring_info in Hx.
    apply lookup_insert_Some in Hx as [[<- _]|[_ Hx]]; [reflexivity|].
    apply lookup_insert_Some in Hx as [[<- _]|[_ Hx]].
    { exfalso. apply Hn. apply list_elem_of_In. cbn. auto. }
    apply lookup_insert_Some in Hx as [[<- _]|[_ Hx]].
    { exfalso. apply Hn. apply list_elem_of_In. cbn. auto. }
    now rewrite lookup_empty in Hx.
  - intros ->. split; [eauto | exact H2].
Defined.

Lemma scrivi_log_csv_cannot_open_witness :
  let file_info := file_info "song.mp3" "audio/mpeg" 9 "files/audio/song.mp3" in
  scrivi_log_csv file_info "files/recap.csv" Sample.w_recap_dir
  = (Sample.w_recap_dir, Raise (IsADirectoryError "files/recap.csv")) /\
  scrivi_log_csv file_info "files/recap.csv/" Sample.w0
  = (Sample.w0, Raise (IsADirectoryError "files/recap.csv/")) /\
  scrivi_log_csv file_info "files/song.mp3/recap.csv" Sample.w0
  = (Sample.w0, Raise (NotADirectoryError "files/song.mp3/recap.csv")) /\
  scrivi_log_csv file_info "files/song.mp3/logs/recap.csv" Sample.w0
  = (Sample.w0, Raise (NotADirectoryError "files/song.mp3/logs/recap.csv")) /\
  scrivi_log_csv file_info "nowhere/recap.csv" Sample.w0
  = (Sample.w0, Raise (FileNotFoundError "nowhere/recap.csv")).
Proof.
  intros file_info.
  assert (H1 : stat "files/recap.csv" Sample.w_recap_dir = Return Dir)
    by (vm_compute; reflexivity).
  assert (H2 : stat "files" Sample.w0 = Return Dir) by (vm_compute; reflexivity).
  assert (Hm : exists e, stat (PosixPath.join "files/song.mp3" "recap.csv") Sample.w0
                         = Raise e) by (eexists; vm_compute; reflexivity).
  assert (Hl : exists e, stat (PosixPath.join "files/song.mp3/logs" "recap.csv") Sample.w0
                         = Raise e) by (eexists; vm_compute; reflexivity).
  assert (Hw : exists e, stat (PosixPath.join "nowhere" "recap.csv") Sample.w0
                         = Raise e) by (eexists; vm_compute; reflexivity).
  split; [exact (proj1 (proj2 (scrivi_log_csv_cannot_open file_info "files/recap.csv"
                                 Sample.w_recap_dir)) H1)|].
  split; [exact (proj1 (proj2 (proj2 (scrivi_log_csv_cannot_open file_info
                                        "files/recap.csv/" Sample.w0))
                          "files" "recap.csv" ltac:(discriminate) eq_refl)
                   eq_refl H2)|].
  split; [exact (proj2 (proj2 (proj2 (scrivi_log_csv_cannot_open file_info
                                        "files/song.mp3/recap.csv" Sample.w0))
                          "files/song.mp3" "recap.csv" ltac:(discriminate) eq_refl)
                   eq_refl Hm)|].
  split; [exact (proj2 (proj2 (proj2 (scrivi_log_csv_cannot_open file_info
                                        "files/song.mp3/logs/recap.csv" Sample.w0))
                          "files/song.mp3/logs" "recap.csv" ltac:(discriminate) eq_refl)
                   eq_refl Hl)|].
  exact (proj2 (proj2 (proj2 (scrivi_log_csv_cannot_open file_info
                                "nowhere/recap.csv" Sample.w0))
                  "nowhere" "recap.csv" ltac:(discriminate) eq_refl)
           eq_refl Hw).
Defined.



Lemma main_succeeds_witness :
  let r := main Sample.guess_type Sample.isprintable "files" "a,b.txt" Sample.w_ledger in
  run_stdout r
  = [String Csv.LF "--- Riepilogo Operazione ---"; "Nome: a,b.txt"; "Tipo: text/plain";
     "Dimensione: 5 byte"; "Categoria: documenti/";
     "Percorso aggiornato: files/documenti/a,b.txt";
     "Log registrato in: files/recap.csv";
     "----------------------------------------"] /\
  run_end r = Returned /\
  stat "files/documenti/a,b.txt" (run_fs r) = Return (File "hello") /\
  stat "files/a,b.txt" (run_fs r) = Raise (FileNotFoundError "files/a,b.txt") /\
  stat "files/recap.csv" (run_fs r)
  = Return (File (Sample.ledger
                  ++ String Csv.quotechar "a,b.txt"
                  ++ String Csv.quotechar ",text/plain,5,"
                  ++ String Csv.quotechar "files/documenti/a,b.txt"
                  ++ String Csv.quotechar Csv.lineterminator)).
Proof.
  intros r.
  assert (H1 : stat "files" Sample.w_ledger = Return Dir) by (vm_compute; reflexivity).
  assert (H2 : stat (PosixPath.join "files" "a,b.txt") Sample.w_ledger
               = Return (File "hello")) by (vm_compute; reflexivity).
  assert (H3 : exists e, stat (PosixPath.join "files" "documenti") Sample.w_ledger
                         = Raise e) by (eexists; vm_compute; reflexivity).
  assert (H4 : stat (PosixPath.join (PosixPath.join "files" "documenti") "a,b.txt")
                    Sample.w_ledger <> Return Dir) by (vm_compute; discriminate).
  assert (H5 : stat (PosixPath.join "files" "recap.csv") Sample.w_ledger <> Return Dir)
    by (vm_compute; discriminate).
  assert (H6 : "a,b.txt" <> "recap.csv") by discriminate.
  destruct (main_succeeds Sample.guess_type Sample.isprintable "files" "a,b.txt"
              "documenti" Sample.w_ledger "hello" H1 eq_refl H6 H2 eq_refl (or_intror H3)
              H4 H5 eq_refl eq_refl eq_refl)
    as (Hout & Hend & Hdst & Hsrc & Hcsv).
  split; [refine (eq_trans Hout _); vm_compute; reflexivity|].
  split; [exact Hend|]. split; [exact Hdst|]. split; [exact Hsrc|].
  refine (eq_trans Hcsv _). vm_compute. reflexivity.
Defined.

Lemma main_touches_only_witness :
  let w := <[(false, ["notes.txt"]) := File "outside"]> Sample.w0 in
  let r := main Sample.guess_type Sample.isprintable "files" "song.mp3" w in
  run_end r = Returned /\
  stat "files/audio" (run_fs r) = Return Dir /\
  run_fs r !! (false, ["immagini"; "files"]) = None /\
  run_fs r !! (false, ["documenti"; "files"]) = None /\
  run_fs r !! (false, ["tune.mp3"; "files"]) = Some (File "RIFF") /\
  run_fs r !! (false, ["notes.txt"]) = Some (File "outside") /\
  run_fs r !! (false, ["files"]) = Some Dir.
Proof.
  intros w r.
  assert (H1 : stat "files" w = Return Dir) by (vm_compute; reflexivity).
  assert (H2 : stat (PosixPath.join "files" "song.mp3") w <> Return Dir)
    by (vm_compute; discriminate).
  destruct (main_touches_only Sample.guess_type Sample.isprintable "files" "song.mp3" w H1 eq_refl H2)
    as [Hexact Hout].
  fold r in Hexact, Hout.
  assert (Hk : resolve "files" = (false, ["files"])) by (vm_compute; reflexivity).
  rewrite Hk in Hout. cbn [fst snd] in Hout.
  assert (Hother : forall (k : key) n,
             w !! k = n -> k <> (false, ["song.mp3"; "files"]) ->
             k <> (false, ["recap.csv"; "files"]) -> k <> (false, ["audio"; "files"]) ->
             k <> (false, ["song.mp3"; "audio"; "files"]) ->
             k <> (false, ["song.mp3"; "song.mp3"; "audio"; "files"]) ->
             run_fs r !! k = n).
  { intros k n Hn K1 K2 K3 K4 K5. rewrite <- Hn. apply Hexact; [exact K1 | exact K2|].
    intros c Hc. injection Hc as <-. repeat split; assumption. }
  split; [vm_compute; reflexivity|]. split; [vm_compute; reflexivity|].
  split; [|split; [|split; [|split]]].
  - apply Hother; [vm_compute; reflexivity | discriminate..].
  - apply Hother; [vm_compute; reflexivity | discriminate..].
  - apply Hother; [vm_compute; reflexivity | discriminate..].
  - rewrite Hout; [vm_compute; reflexivity|].
    intros below Hb E. injection E as E. destruct below as [|x [|y below]];
      [congruence | discriminate E | discriminate E].
  - rewrite Hout; [vm_compute; reflexivity|].
    intros below Hb E. injection E as E. destruct below as [|x below]; [congruence|].
    apply (f_equal (@length string)) in E. rewrite length_app in E. cbn in E. lia.
Defined.

Lemma main_twice_ledger_witness :
  let r1 := main Sample.guess_type Sample.isprintable "files" "song.mp3" Sample.w0 in
  let r2 := main Sample.guess_type Sample.isprintable "files" "a,b.txt" (run_fs r1) in
  stat "files/recap.csv" Sample.w0 = Raise (FileNotFoundError "files/recap.csv") /\
  run_end r1 = Returned /\ run_end r2 = Returned /\
  exists text,
    stat "files/recap.csv" (run_fs r2) = Return (File text) /\
    CsvReader.reader text
    = [["Nome"; "Tipo"; "Size Byte"; "Percorso"];
       ["song.mp3"; "audio/mpeg"; "9"; "files/audio/song.mp3"];
       ["a,b.txt"; "text/plain"; "5"; "files/documenti/a,b.txt"]].
Proof.
  intros r1 r2.
  assert (H0 : stat "files" Sample.w0 = Return Dir) by (vm_compute; reflexivity).
  assert (H1 : stat (PosixPath.join "files" "song.mp3") Sample.w0
               = Return (File "ID3-bytes")) by (vm_compute; reflexivity).
  assert (H2 : stat (PosixPath.join "files" "a,b.txt") Sample.w0
               = Return (File "hello")) by (vm_compute; reflexivity).
  assert (H3 : exists e, stat (PosixPath.join "files" "audio") Sample.w0 = Raise e)
    by (eexists; vm_compute; reflexivity).
  assert (H4 : exists e, stat (PosixPath.join "files" "documenti") Sample.w0 = Raise e)
    by (eexists; vm_compute; reflexivity).
  assert (H5 : stat (PosixPath.join (PosixPath.join "files" "audio") "song.mp3")
                    Sample.w0 <> Return Dir) by (vm_compute; discriminate).
  assert (H6 : stat (PosixPath.join (PosixPath.join "files" "documenti") "a,b.txt")
                    Sample.w0 <> Return Dir) by (vm_compute; discriminate).
  assert (H7 : stat (PosixPath.join "files" "recap.csv") Sample.w0
               = Raise (FileNotFoundError "files/recap.csv")) by (vm_compute; reflexivity).
  assert (H8 : "song.mp3" <> "a,b.txt") by discriminate.
  assert (H9 : "song.mp3" <> "recap.csv") by discriminate.
  assert (H10 : "a,b.txt" <> "recap.csv") by discriminate.
  exact (conj H7
           (main_twice_ledger Sample.guess_type Sample.isprintable "files" "song.mp3" "a,b.txt" "audio"
              "documenti" Sample.w0 "ID3-bytes" "hello" H0 eq_refl eq_refl H8 H9 H10
              H1 H2 eq_refl eq_refl (or_intror H3) (or_intror H4) H5 H6
              (ex_intro _ _ H7) eq_refl eq_refl eq_refl eq_refl eq_refl)).
Defined.


Lemma main_refuses_witness :
  Cli.main Sample.guess_type Sample.isprintable
           {| Cli.filename := Some "song.xyz"; Cli.directory := Some "files" |}
           [] Sample.w0
  = {| Cli.prompted := false;
       Cli.session_end :=
         Cli.Finished
           {| run_fs := Sample.w0;
              run_stdout :=
                [("Errore: Il file 'song.xyz' non è valido o non è presente nella "
                    ++ "cartella 'files' o il suo tipo non è supportato.");
                 "File disponibili:";
                 "  - a,b.txt"; "  - report.pdf"; "  - song.mp3"; "  - tune.mp3"];
              run_end := SysExit 1 |} |} /\
  Cli.main Sample.guess_type Sample.isprintable
           {| Cli.filename := Some "recap.csv"; Cli.directory := Some "files" |}
           [] Sample.w_ledger
  = {| Cli.prompted := false;
       Cli.session_end :=
         Cli.Finished
           {| run_fs := Sample.w_ledger;
              run_stdout :=
                [("Errore: Il file 'recap.csv' non è valido o non è presente nella "
                    ++ "cartella 'files' o il suo tipo non è supportato.");
                 "File disponibili:";
                 "  - a,b.txt"; "  - report.pdf"; "  - song.mp3"; "  - tune.mp3"];
              run_end := SysExit 1 |} |}.
Proof.
  assert (H1 : stat "files" Sample.w0 = Return Dir) by (vm_compute; reflexivity).
  assert (H2 : stat "files" Sample.w_ledger = Return Dir) by (vm_compute; reflexivity).
  assert (H3 : "song.xyz" <> "") by discriminate.
  assert (H4 : "recap.csv" <> "") by discriminate.
  assert (H5 : forall mime,
             Sample.guess_type (PosixPath.join "files" "song.xyz") = Some mime ->
             tipo_valido mime = false) by (intros mime H; discriminate H).
  pose proof (main_refuses Sample.guess_type Sample.isprintable [] Sample.w0 "files" "song.xyz" H1 H3
                (or_intror (or_intror (or_intror H5)))) as Hxyz.
  pose proof (main_refuses Sample.guess_type Sample.isprintable [] Sample.w_ledger "files" "recap.csv" H2 H4
                (or_intror (or_intror (or_introl eq_refl)))) as Hcsv.
  assert (Ha : Cli.available_files Sample.guess_type "files" Sample.w0
               = ["a,b.txt"; "report.pdf"; "song.mp3"; "tune.mp3"])
    by (vm_compute; reflexivity).
  assert (Hb : Cli.available_files Sample.guess_type "files" Sample.w_ledger
               = ["a,b.txt"; "report.pdf"; "song.mp3"; "tune.mp3"])
    by (vm_compute; reflexivity).
  rewrite Ha in Hxyz. rewrite Hb in Hcsv. exact (conj Hxyz Hcsv).
Defined.

Lemma main_unrecognized_refused_witness :
  Sample.guess_type "files/song.xyz" = None /\
  stat "files/song.xyz" Sample.w0 = Return (File "?") /\
  Cli.main Sample.guess_type Sample.isprintable
           {| Cli.filename := Some "song.xyz"; Cli.directory := Some "files" |}
           [] Sample.w0
  = {| Cli.prompted := false;
       Cli.session_end :=
         Cli.Finished
           {| run_fs := Sample.w0;
              run_stdout :=
                [("Errore: Il file 'song.xyz' non è valido o non è presente nella "
                    ++ "cartella 'files' o il suo tipo non è supportato.");
                 "File disponibili:";
                 "  - a,b.txt"; "  - report.pdf"; "  - song.mp3"; "  - tune.mp3"];
              run_end := SysExit 1 |} |} /\
  main Sample.guess_type Sample.isprintable "files" "song.xyz" Sample.w0
  = {| run_fs := Sample.w0;
       run_stdout :=
         ["File 'song.xyz' di tipo 'Tipo sconosciuto' non riconosciuto, "
            ++ "nessuna azione eseguita."];
       run_end := SysExit 0 |}.
Proof.
  assert (H1 : stat "files" Sample.w0 = Return Dir) by (vm_compute; reflexivity).
  assert (H2 : "song.xyz" <> "") by discriminate.
  assert (H3 : stat (PosixPath.join "files" "song.xyz") Sample.w0 = Return (File "?"))
    by (vm_compute; reflexivity).
  destruct (main_unrecognized_refused Sample.guess_type Sample.isprintable []
              Sample.w0 "files" "song.xyz" H1 H2 eq_refl) as (Hcli & _ & Hmain).
  assert (Ha : Cli.available_files Sample.guess_type "files" Sample.w0
               = ["a,b.txt"; "report.pdf"; "song.mp3"; "tune.mp3"])
    by (vm_compute; reflexivity).
  rewrite Ha in Hcli.
  exact (conj eq_refl (conj H3 (conj Hcli (Hmain _ H3)))).
Defined.

(** C4 as stated fails: for a file of an unknown extension in a
    directory with a ledger, the script does not end with the
    skipped outcome and status 0, it ends with status 1. *)
Lemma main_unrecognized_exits_1 :
  let mime_type := match Sample.guess_type "files/song.xyz" with
                   | None => tipo_sconosciuto
                   | Some mime_type => mime_type
                   end in
  let session :=
    Cli.main Sample.guess_type Sample.isprintable
             {| Cli.filename := Some "song.xyz"; Cli.directory := Some "files" |}
             [] Sample.w_ledger in
  stat "files/song.xyz" Sample.w_ledger = Return (File "?") /\
  mime_type = "Tipo sconosciuto" /\
  classifica_file (Some mime_type) = None /\
  Cli.session_end session
  = Cli.Finished
      {| run_fs := Sample.w_ledger;
         run_stdout :=
           [("Errore: Il file 'song.xyz' non è valido o non è presente nella "
               ++ "cartella 'files' o il suo tipo non è supportato.");
            "File disponibili:";
            "  - a,b.txt"; "  - report.pdf"; "  - song.mp3"; "  - tune.mp3"];
         run_end := SysExit 1 |}.
Proof.
  intros mime_type session.
  split; [vm_compute; reflexivity|]. split; [reflexivity|]. split; [reflexivity|].
  evaluated.
Qed.

Lemma main_accepts_witness :
  Cli.main Sample.guess_type Sample.isprintable
           {| Cli.filename := Some "report.pdf"; Cli.directory := Some "files" |}
           [] Sample.w0
  = {| Cli.prompted := false;
       Cli.session_end :=
         Cli.Finished (main Sample.guess_type Sample.isprintable "files" "report.pdf" Sample.w0) |} /\
  get_mime_type Sample.guess_type "files/report.pdf" Sample.w0
  = (Sample.w0, Return ("application/pdf", 8%Z)) /\
  outcome_of Sample.guess_type "files" "report.pdf" Sample.w0 <> Skipped.
Proof.
  assert (H1 : stat "files" Sample.w0 = Return Dir) by (vm_compute; reflexivity).
  assert (H2 : stat (PosixPath.join "files" "report.pdf") Sample.w0
               = Return (File "%PDF-1.7")) by (vm_compute; reflexivity).
  assert (H3 : "report.pdf" <> "recap.csv") by discriminate.
  destruct (main_accepts Sample.guess_type Sample.isprintable [] Sample.w0 "files" "report.pdf" "%PDF-1.7"
              "application/pdf" H1 eq_refl H3 H2 eq_refl eq_refl)
    as (Hmain & Hget & _ & Hout).
  exact (conj Hmain (conj Hget Hout)).
Defined.

Lemma main_ledger_append_only_witness :
  exists r added,
    Cli.main Sample.guess_type Sample.isprintable
             {| Cli.filename := Some "song.mp3"; Cli.directory := Some "files" |}
             [] Sample.w_ledger
    = {| Cli.prompted := false; Cli.session_end := Cli.Finished r |} /\
    stat "files/recap.csv" (run_fs r) = Return (File (Sample.ledger ++ added)) /\
    run_end r = Returned.
Proof.
  assert (H1 : "files" <> "") by discriminate.
  assert (H2 : stat (PosixPath.join "files" "recap.csv") Sample.w_ledger
               = Return (File Sample.ledger)) by (vm_compute; reflexivity).
  destruct (main_ledger_append_only Sample.guess_type Sample.isprintable (Some "song.mp3") []
              Sample.w_ledger "files" Sample.ledger H1 H2) as (r & added & Hmain & Hcsv).
  exists r, added. split; [exact Hmain|]. split; [exact Hcsv|].
  change (run_end r)
    with (match Cli.session_end
                  {| Cli.prompted := false; Cli.session_end := Cli.Finished r |} with
          | Cli.Finished r => run_end r
          | Cli.Traceback _ => SysExit 1
          end).
  rewrite <- Hmain. vm_compute. reflexivity.
Defined.

Lemma main_second_run_refused_witness :
  let args := {| Cli.filename := Some "song.mp3"; Cli.directory := Some "files" |} in
  exists r1 r2,
    Cli.main Sample.guess_type Sample.isprintable args [] Sample.w0
    = {| Cli.prompted := false; Cli.session_end := Cli.Finished r1 |} /\
    run_end r1 = Returned /\
    stat "files/audio/song.mp3" (run_fs r1) = Return (File "ID3-bytes") /\
    Cli.main Sample.guess_type Sample.isprintable args [] (run_fs r1)
    = {| Cli.prompted := false; Cli.session_end := Cli.Finished r2 |} /\
    run_end r2 = SysExit 1 /\
    run_fs r2 = run_fs r1.
Proof.
  assert (H1 : stat "files" Sample.w0 = Return Dir) by (vm_compute; reflexivity).
  assert (H2 : stat (PosixPath.join "files" "song.mp3") Sample.w0
               = Return (File "ID3-bytes")) by (vm_compute; reflexivity).
  assert (H3 : exists e, stat (PosixPath.join "files" "audio") Sample.w0 = Raise e)
    by (eexists; vm_compute; reflexivity).
  assert (H4 : stat (PosixPath.join (PosixPath.join "files" "audio") "song.mp3")
                    Sample.w0 <> Return Dir) by (vm_compute; discriminate).
  assert (H5 : stat (PosixPath.join "files" "recap.csv") Sample.w0 <> Return Dir)
    by (vm_compute; discriminate).
  assert (H6 : "song.mp3" <> "recap.csv") by discriminate.
  exact (main_second_run_refused Sample.guess_type Sample.isprintable [] [] Sample.w0 "files" "song.mp3"
           "audio" "ID3-bytes" "audio/mpeg" H1 eq_refl H6 H2 eq_refl eq_refl eq_refl
           (or_intror H3) H4 H5).
Defined.

End SampleRuns.
